(** * The autonomous web-testing agent: a shallow embedding

    This development embeds [core/ai_agent.py] (class [AITestingAgent]) and
    the [/report] route of [app.py] as Rocq functions, and states the
    properties of the agent loop, of element extraction and of the report
    delivered to the rendering shell as theorems about them.

    Python objects are mutable; the embedding threads the agent object and
    the outside world through a state-and-exception monad in which a raised
    exception keeps the state reached so far.  The browser driver, the
    language-model service, the HTML parser and [urljoin] are libraries
    outside the repository: they enter as the fields of an environment
    record [Env], over which every general theorem quantifies. *)

From Stdlib Require Import List String Ascii ZArith Lia Bool Arith PeanoNat.
From Stdlib Require Import DecimalString.
Import ListNotations.
Open Scope string_scope.
Open Scope list_scope.
Open Scope nat_scope.

Set Implicit Arguments.

(* ================================================================== *)
(** * Python strings and values *)
(* ================================================================== *)

(** Strings are Rocq strings: sequences of code points below 256. *)

Definition LF : string := String (ascii_of_nat 10) "".

(** [s.isspace()] for one code point below 256. *)
Definition is_space (c : ascii) : bool :=
  let n := nat_of_ascii c in
  ((9 <=? n) && (n <=? 13)) || ((28 <=? n) && (n <=? 32))
  || (n =? 133) || (n =? 160).

Fixpoint lstrip (s : string) : string :=
  match s with
  | String c r => if is_space c then lstrip r else s
  | EmptyString => EmptyString
  end.

Fixpoint str_rev_onto (s acc : string) : string :=
  match s with
  | String c r => str_rev_onto r (String c acc)
  | EmptyString => acc
  end.

Definition str_rev (s : string) : string := str_rev_onto s "".

Definition rstrip (s : string) : string := str_rev (lstrip (str_rev s)).

(** [s.strip()] *)
Definition strip (s : string) : string := rstrip (lstrip s).

(** [s[-n:]] for [n > 0]: the last [n] characters, the whole string when
    it is shorter. *)
Definition last_chars (n : nat) (s : string) : string :=
  substring (String.length s - n) n s.

(** [sep.join(parts)] *)
Definition join (sep : string) (parts : list string) : string :=
  String.concat sep parts.

(** [str(n)] for an integer. *)
Definition str_of_int (z : Z) : string := NilZero.string_of_int (Z.to_int z).

(** Truth value of a string, and of an optional string ([None] is false). *)
Definition truthy (s : string) : bool := negb (String.eqb s "").

Definition truthy_opt (o : option string) : bool :=
  match o with Some s => truthy s | None => false end.

(** [a or b] on optional strings. *)
Definition py_or (a b : option string) : option string :=
  if truthy_opt a then a else b.

(** The values stored in an action record, and a dict with string keys in
    insertion order. *)
Inductive pyval : Type :=
| PInt (n : Z)
| PStr (s : string).

Definition pyval_eqb (a b : pyval) : bool :=
  match a, b with
  | PInt x, PInt y => Z.eqb x y
  | PStr x, PStr y => String.eqb x y
  | _, _ => false
  end.

Definition dict : Type := list (string * pyval).

Fixpoint dict_get (k : string) (d : dict) : option pyval :=
  match d with
  | [] => None
  | (k', v) :: r => if String.eqb k k' then Some v else dict_get k r
  end.

Definition has_key (k : string) (d : dict) : bool :=
  match dict_get k d with Some _ => true | None => false end.

(** Exceptions: the class name and [str(e)]. *)
Record exn : Type := Exn { exn_class : string; exn_text : string }.

(* ================================================================== *)
(** * Element extraction ([get_page_state], lines 49-54 and 60) *)
(* ================================================================== *)

(** An element of the parsed document: tag name, attributes, and the
    concatenated text of its descendants ([tag.text]). *)
Record Tag : Type := mkTag {
  tag_name : string;
  tag_attrs : list (string * string);
  tag_text : string
}.

(** [tag.get(key)] *)
Fixpoint tag_get (key : string) (attrs : list (string * string)) : option string :=
  match attrs with
  | [] => None
  | (k, v) :: r => if String.eqb key k then Some v else tag_get key r
  end.

(** [tag.get(key, default)] *)
Definition tag_get_default (key default : string) (t : Tag) : string :=
  match tag_get key (tag_attrs t) with Some v => v | None => default end.

(** [soup.find_all(names)]: the elements with one of the names, in
    document order. *)
Definition find_all (names : list string) (soup : list Tag) : list Tag :=
  filter (fun t => existsb (String.eqb (tag_name t)) names) soup.

(** [tag.get('aria-label') or tag.text or tag.get('placeholder') or tag.get('name')] *)
Definition tag_label (t : Tag) : option string :=
  py_or (py_or (py_or (tag_get "aria-label" (tag_attrs t)) (Some (tag_text t)))
               (tag_get "placeholder" (tag_attrs t)))
        (tag_get "name" (tag_attrs t)).

(** [f"<{tag.name}> Text: '{label.strip()}' ID: '{tag.get('id', 'N/A')}'"] *)
Definition describe (t : Tag) (label : string) : string :=
  "<" ++ tag_name t ++ "> Text: '" ++ strip label ++ "' ID: '"
      ++ tag_get_default "id" "N/A" t ++ "'".

(** One iteration of the [for tag in ...] loop. *)
Definition collect (interactable_elements : list string) (t : Tag) : list string :=
  match tag_label t with
  | Some label =>
      if truthy label && (String.length label <? 50)
      then interactable_elements ++ [describe t label]
      else interactable_elements
  | None => interactable_elements
  end.

Definition interactable (soup : list Tag) : list string :=
  fold_left collect (find_all ["a"; "button"; "input"] soup) [].

(** [interactable_elements[:10]] *)
Definition top10 (soup : list Tag) : list string := firstn 10 (interactable soup).

(** [f"Current URL: ...\nPage Title: ...\nVisible ...:\n" + "\n".join(...)] *)
Definition format_state (url title : string) (elements : list string) : string :=
  "Current URL: " ++ url ++ LF ++
  "Page Title: " ++ title ++ LF ++
  "Visible Interactable Elements (Top 10):" ++ LF ++
  join LF elements.


(* ================================================================== *)
(** * The outside world *)
(* ================================================================== *)

(** Errors raised by the Python interpreter itself while it evaluates the
    model's text; their messages are the interpreter's. *)
Inductive interp_error : Type :=
| NoAttribute (name : string)
| NotCallable (name : string)
| BadArity (name : string) (given : nat).

(** The libraries and services the agent calls.  [inr e] is a raised
    exception. *)
Record Env : Type := mkEnv {
  (** [os.getenv(name)] *)
  getenv : string -> option string;
  (** [genai.Client(api_key=k)]: [None] when the client is constructed *)
  genai_Client : option string -> option exn;
  (** [webdriver.Chrome(options=...)] when [n] sessions were created before *)
  webdriver_Chrome : nat -> option exn;
  (** [driver.get(url)]: the URL the browser lands on *)
  browse : string -> string + exn;
  (** [driver.title] and [driver.page_source] of the page at a URL *)
  page_title : string -> string;
  page_source : string -> string;
  (** [BeautifulSoup(markup, 'html.parser')]: every element, in document order *)
  html_parser : string -> list Tag;
  (** [WebDriverWait(driver, 10).until(find_element(by, locator)).click()] on
      the page at a URL: the URL the browser is on afterwards *)
  wait_click : string -> string -> string -> string + exn;
  (** the same wait, then [clear()] and [send_keys(text)] *)
  wait_type : string -> string -> string -> string -> string + exn;
  (** [client.models.generate_content(model, contents, config).text.strip()]
      before the strip, for the [n]-th call: model, system instruction, prompt *)
  generate_content : nat -> string -> string -> string -> string + exn;
  (** [urllib.parse.urljoin(base, url)] *)
  urljoin : string -> string -> string;
  (** [str(e)] for an interpreter error *)
  interp_message : interp_error -> string
}.

(** A browser session: whether it is still open and the URL it is on. *)
Record Session : Type := mkSession {
  is_open : bool;
  current_url : string
}.

(** All sessions ever created (a driver object is an index into them), the
    number of model calls made, the seconds slept and the printed lines. *)
Record World : Type := mkWorld {
  sessions : list Session;
  llm_calls : nat;
  slept : nat;
  stdout : list string
}.

(** [self.test_report]: a dict with the fixed keys url, actions, summary. *)
Record Report : Type := mkReport {
  url : string;
  actions : list dict;
  summary : string
}.

(** The attributes of an [AITestingAgent] object. *)
Record Agent : Type := mkAgent {
  client : option string;
  driver : nat;
  start_url : string;
  test_report : Report;
  history : string;
  max_steps : nat
}.

Record State : Type := mkState {
  self : Agent;
  world : World
}.

(* ================================================================== *)
(** * State and exceptions *)
(* ================================================================== *)

(** The outcome of a computation.  A raised exception keeps the state.
    [Unmodelled] marks Python behaviour outside this embedding. *)
Inductive Result (A : Type) : Type :=
| Ok (a : A) (s : State)
| Raise (e : exn) (s : State)
| Unmodelled.

Arguments Ok {A} a s.
Arguments Raise {A} e s.
Arguments Unmodelled {A}.

Definition M (A : Type) : Type := State -> Result A.

Definition ret {A} (a : A) : M A := fun s => Ok a s.

Definition bind {A B} (m : M A) (k : A -> M B) : M B :=
  fun s =>
    match m s with
    | Ok a s' => k a s'
    | Raise e s' => Raise e s'
    | Unmodelled => Unmodelled
    end.

Definition raise {A} (e : exn) : M A := fun s => Raise e s.

Definition unmodelled {A} : M A := fun _ => Unmodelled.

(** [try: m  except (classes) as e: handler(e)]; [None] is [except Exception]. *)
Definition catches (classes : option (list string)) (e : exn) : bool :=
  match classes with
  | None => true
  | Some cs => existsb (String.eqb (exn_class e)) cs
  end.

Definition try_except {A} (m : M A) (classes : option (list string))
    (handler : exn -> M A) : M A :=
  fun s =>
    match m s with
    | Ok a s' => Ok a s'
    | Raise e s' => if catches classes e then handler e s' else Raise e s'
    | Unmodelled => Unmodelled
    end.

Definition get_self : M Agent := fun s => Ok (self s) s.
Definition get_world : M World := fun s => Ok (world s) s.
Definition put_self (a : Agent) : M unit := fun s => Ok tt (mkState a (world s)).
Definition put_world (w : World) : M unit := fun s => Ok tt (mkState (self s) w).

Declare Scope py_scope.
Delimit Scope py_scope with py.
Notation "x <- c1 ;; c2" := (bind c1 (fun x => c2))
  (at level 61, c1 at next level, right associativity) : py_scope.
Notation "c1 ;; c2" := (bind c1 (fun _ => c2))
  (at level 61, right associativity) : py_scope.
Open Scope py_scope.

(** Attribute assignment on [self]. *)
Definition set_client (v : option string) (a : Agent) : Agent :=
  mkAgent v (driver a) (start_url a) (test_report a) (history a) (max_steps a).
Definition set_driver (v : nat) (a : Agent) : Agent :=
  mkAgent (client a) v (start_url a) (test_report a) (history a) (max_steps a).
Definition set_start_url (v : string) (a : Agent) : Agent :=
  mkAgent (client a) (driver a) v (test_report a) (history a) (max_steps a).
Definition set_test_report (v : Report) (a : Agent) : Agent :=
  mkAgent (client a) (driver a) (start_url a) v (history a) (max_steps a).
Definition set_history (v : string) (a : Agent) : Agent :=
  mkAgent (client a) (driver a) (start_url a) (test_report a) v (max_steps a).
Definition set_max_steps (v : nat) (a : Agent) : Agent :=
  mkAgent (client a) (driver a) (start_url a) (test_report a) (history a) v.

Definition modify_self (f : Agent -> Agent) : M unit :=
  a <- get_self ;; put_self (f a).

(* ================================================================== *)
(** * The browser driver *)
(* ================================================================== *)

Fixpoint set_nth {A} (n : nat) (x : A) (l : list A) : list A :=
  match l, n with
  | [], _ => []
  | _ :: r, 0 => x :: r
  | y :: r, S k => y :: set_nth k x r
  end.

(** What a driver command raises once its session is gone. *)
Definition session_gone : exn :=
  Exn "InvalidSessionIdException" "invalid session id".

(** The session behind [self.driver], for a command that needs it open. *)
Definition live_session : M Session :=
  fun s =>
    match nth_error (sessions (world s)) (driver (self s)) with
    | Some b => if is_open b then Ok b s else Raise session_gone s
    | None => Raise session_gone s
    end.

Definition set_session (b : Session) : M unit :=
  fun s =>
    let w := world s in
    Ok tt (mkState (self s)
             (mkWorld (set_nth (driver (self s)) b (sessions w))
                      (llm_calls w) (slept w) (stdout w))).

(** [self.driver.current_url] *)
Definition driver_current_url : M string :=
  b <- live_session ;; ret (current_url b).

Section WithEnv.

Variable env : Env.

(** [self.driver.title] *)
Definition driver_title : M string :=
  b <- live_session ;; ret (page_title env (current_url b)).

(** [self.driver.page_source] *)
Definition driver_page_source : M string :=
  b <- live_session ;; ret (page_source env (current_url b)).

(** [self.driver.get(url)] *)
Definition driver_get (target : string) : M unit :=
  b <- live_session ;;
  match browse env target with
  | inl landed => set_session (mkSession true landed)
  | inr e => raise e
  end.

(** [WebDriverWait(self.driver, 10).until(...).click()] *)
Definition driver_wait_click (by_type locator : string) : M unit :=
  b <- live_session ;;
  match wait_click env (current_url b) by_type locator with
  | inl landed => set_session (mkSession true landed)
  | inr e => raise e
  end.

(** The wait, then [element.clear()] and [element.send_keys(text)]. *)
Definition driver_wait_type (by_type locator text : string) : M unit :=
  b <- live_session ;;
  match wait_type env (current_url b) by_type locator text with
  | inl landed => set_session (mkSession true landed)
  | inr e => raise e
  end.

(** [self.driver.quit()] *)
Definition driver_quit : M unit :=
  fun s =>
    match nth_error (sessions (world s)) (driver (self s)) with
    | Some b => set_session (mkSession false (current_url b)) s
    | None => Ok tt s
    end.

(** [time.sleep(seconds)] *)
Definition sleep (seconds : nat) : M unit :=
  w <- get_world ;;
  put_world (mkWorld (sessions w) (llm_calls w) (slept w + seconds) (stdout w)).

(** [print(line)] *)
Definition print (line : string) : M unit :=
  w <- get_world ;;
  put_world (mkWorld (sessions w) (llm_calls w) (slept w) (stdout w ++ [line])).

(* ================================================================== *)
(** * [AITestingAgent] *)
(* ================================================================== *)

Definition GEMINI_MODEL : string := "gemini-2.5-flash".

(** [report_action(self, description, status)] *)
Definition report_action (description status : string) : M unit :=
  a <- get_self ;;
  let step := (Z.of_nat (List.length (actions (test_report a))) + 1)%Z in
  current <- driver_current_url ;;
  let log : dict :=
    [("step", PInt step); ("action", PStr description);
     ("status", PStr status); ("url_after", PStr current)] in
  let r := test_report a in
  put_self (set_test_report (mkReport (url r) (actions r ++ [log]) (summary r)) a) ;;
  modify_self (fun a =>
    set_history (history a ++ "Step " ++ str_of_int step ++ " (" ++ status
                   ++ "): " ++ description ++ LF) a) ;;
  print ("[" ++ status ++ "] Step " ++ str_of_int step ++ ": " ++ description).

(** [__init__(self, start_url)] *)
Definition __init__ (start : string) : M unit :=
  let api_key := getenv env "GEMINI_API_KEY" in
  match genai_Client env api_key with
  | Some e => raise e
  | None =>
      modify_self (set_client api_key) ;;
      w <- get_world ;;
      match webdriver_Chrome env (List.length (sessions w)) with
      | Some e => raise e
      | None =>
          put_world (mkWorld (sessions w ++ [mkSession true "data:,"])
                             (llm_calls w) (slept w) (stdout w)) ;;
          modify_self (set_driver (List.length (sessions w))) ;;
          modify_self (set_start_url start) ;;
          modify_self (set_test_report (mkReport start [] "")) ;;
          modify_self (set_history "") ;;
          modify_self (set_max_steps 7)
      end
  end.

(** [get_page_state(self)] *)
Definition get_page_state : M string :=
  current <- driver_current_url ;;
  title <- driver_title ;;
  source <- driver_page_source ;;
  let soup := html_parser env source in
  ret (format_state current title (top10 soup)).

Definition system_prompt : string :=
  "You are a sophisticated Web Testing Agent. Your goal is to explore the website, "
  ++ "perform functional tests, and look for bugs. "
  ++ "You must respond ONLY with a single, valid Python function call from the list: "
  ++ "1. click_element(By.LINK_TEXT, 'About')"
  ++ "2. type_text(By.ID, 'search-input', 'test query')"
  ++ "3. navigate_to('contact')"
  ++ "4. finish_testing('Your final quality assessment and summary')"
  ++ "Analyze the page state and testing history to decide the best action. Prefer locators by visible text (LINK_TEXT) or unique ID (ID).".

Definition user_prompt (hist page_state : string) : string :=
  "TESTING HISTORY (last 200 chars):" ++ LF ++ last_chars 200 hist ++ LF ++ LF
  ++ "CURRENT PAGE STATE:" ++ LF ++ page_state ++ LF ++ LF
  ++ "What is the single, best Python action to take next? Respond ONLY with the function call.".

(** The remote call of lines 85-91, with the strip. *)
Definition call_model (prompt : string) : M string :=
  w <- get_world ;;
  put_world (mkWorld (sessions w) (S (llm_calls w)) (slept w) (stdout w)) ;;
  match generate_content env (llm_calls w) GEMINI_MODEL system_prompt prompt with
  | inl text => ret (strip text)
  | inr e => raise e
  end.

Definition canned_finish : string := "finish_testing('AI communication failed.')".

(** [generate_action(self, page_state)] *)
Definition generate_action (page_state : string) : M string :=
  a <- get_self ;;
  let prompt := user_prompt (history a) page_state in
  try_except (call_model prompt) None
    (fun e =>
       report_action ("Error calling Gemini: " ++ exn_text e) "FATAL_ERROR" ;;
       ret canned_finish).

Definition not_found : option (list string) :=
  Some ["TimeoutException"; "NoSuchElementException"].

(** [click_element(self, by_type, locator)] *)
Definition click_element (by_type locator : string) : M unit :=
  try_except
    (driver_wait_click by_type locator ;;
     report_action ("Clicked element found by " ++ by_type ++ "='" ++ locator ++ "'.") "PASS")
    not_found
    (fun _ =>
       report_action ("Failed to click element " ++ locator
                        ++ ". Element not found or timed out.") "ERROR").

(** [type_text(self, by_type, locator, text)] *)
Definition type_text (by_type locator text : string) : M unit :=
  try_except
    (driver_wait_type by_type locator text ;;
     report_action ("Typed text into field " ++ locator ++ ".") "PASS")
    not_found
    (fun _ =>
       report_action ("Failed to type text into " ++ locator
                        ++ ". Element not found.") "ERROR").

(** [navigate_to(self, path)] *)
Definition navigate_to (path : string) : M unit :=
  a <- get_self ;;
  let new_url := urljoin env (start_url a) path in
  driver_get new_url ;;
  report_action ("Navigated to: " ++ new_url) "PASS".

(** [finish_testing(self, summary)] *)
Definition finish_testing (text : string) : M unit :=
  modify_self (fun a =>
    let r := test_report a in
    set_test_report (mkReport (url r) (actions r) text) a) ;;
  report_action text "FINISH".

(* ================================================================== *)
(** * [eval(f"self.{action_code}")] *)
(* ================================================================== *)

(** The expressions the embedding evaluates: an attribute of [self], or a
    call of one with positional arguments that are string literals without
    escapes or members of [By].  Every argument evaluates to a string. *)
Inductive action_expr : Type :=
| Attr (name : string)
| Call (name : string) (args : list string).

Definition is_ident_start (c : ascii) : bool :=
  let n := nat_of_ascii c in
  ((65 <=? n) && (n <=? 90)) || ((97 <=? n) && (n <=? 122)) || (n =? 95).

Definition is_ident_char (c : ascii) : bool :=
  let n := nat_of_ascii c in
  is_ident_start c || ((48 <=? n) && (n <=? 57)).

Fixpoint take_ident (s : string) : string * string :=
  match s with
  | String c r =>
      if is_ident_char c
      then let (i, rest) := take_ident r in (String c i, rest)
      else ("", s)
  | EmptyString => ("", "")
  end.

Definition parse_ident (s : string) : option (string * string) :=
  match s with
  | String c _ => if is_ident_start c then Some (take_ident s) else None
  | EmptyString => None
  end.

Fixpoint skip_blanks (s : string) : string :=
  match s with
  | String c r => if Ascii.eqb c " " then skip_blanks r else s
  | EmptyString => EmptyString
  end.

(** A character a literal may hold here: no control character, no backslash. *)
Definition plain_char (c : ascii) : bool :=
  let n := nat_of_ascii c in (32 <=? n) && negb (n =? 92).

Definition double_quote : ascii := ascii_of_nat 34.

(** The body of a string literal up to the closing quote [q]. *)
Fixpoint take_literal (q : ascii) (s : string) : option (string * string) :=
  match s with
  | EmptyString => None
  | String c r =>
      if Ascii.eqb c q then Some ("", r)
      else if plain_char c then
        match take_literal q r with
        | Some (v, rest) => Some (String c v, rest)
        | None => None
        end
      else None
  end.

(** The locator strategies of [selenium.webdriver.common.by.By]. *)
Definition By : list (string * string) :=
  [("ID", "id"); ("XPATH", "xpath"); ("LINK_TEXT", "link text");
   ("PARTIAL_LINK_TEXT", "partial link text"); ("NAME", "name");
   ("TAG_NAME", "tag name"); ("CLASS_NAME", "class name");
   ("CSS_SELECTOR", "css selector")].

Definition parse_arg (s : string) : option (string * string) :=
  match s with
  | String c r =>
      if Ascii.eqb c "'" || Ascii.eqb c double_quote then take_literal c r
      else
        match parse_ident s with
        | Some (base, String dot r2) =>
            if String.eqb base "By" && Ascii.eqb dot "." then
              match parse_ident r2 with
              | Some (member, rest) =>
                  match tag_get member By with
                  | Some v => Some (v, rest)
                  | None => None
                  end
              | None => None
              end
            else None
        | _ => None
        end
  | EmptyString => None
  end.

(** The arguments after the first, up to the closing parenthesis that ends
    the text. *)
Fixpoint parse_args (fuel : nat) (s : string) : option (list string) :=
  match fuel with
  | 0 => None
  | S f =>
      match parse_arg (skip_blanks s) with
      | None => None
      | Some (v, rest) =>
          match skip_blanks rest with
          | String c rest' =>
              if Ascii.eqb c ")" then
                match rest' with EmptyString => Some [v] | _ => None end
              else if Ascii.eqb c "," then
                match parse_args f rest' with
                | Some vs => Some (v :: vs)
                | None => None
                end
              else None
          | EmptyString => None
          end
      end
  end.

Definition parse_arglist (s : string) : option (list string) :=
  if String.eqb (skip_blanks s) ")" then Some []
  else parse_args (String.length s) s.

Definition parse_action (code : string) : option action_expr :=
  match parse_ident code with
  | Some (name, EmptyString) => Some (Attr name)
  | Some (name, String c rest) =>
      if Ascii.eqb c "(" then
        match parse_arglist rest with
        | Some args => Some (Call name args)
        | None => None
        end
      else None
  | None => None
  end.

(** The methods of the class with the number of arguments after [self],
    and the attributes [__init__] sets. *)
Definition methods : list (string * nat) :=
  [("__init__", 1); ("get_page_state", 0); ("generate_action", 1);
   ("click_element", 2); ("type_text", 3); ("navigate_to", 1);
   ("finish_testing", 1); ("report_action", 2); ("run_tests", 0)].

Definition data_attributes : list string :=
  ["client"; "driver"; "start_url"; "test_report"; "history"; "max_steps"].

Definition keywords : list string :=
  ["False"; "None"; "True"; "and"; "as"; "assert"; "async"; "await"; "break";
   "class"; "continue"; "def"; "del"; "elif"; "else"; "except"; "finally";
   "for"; "from"; "global"; "if"; "import"; "in"; "is"; "lambda"; "nonlocal";
   "not"; "or"; "pass"; "raise"; "return"; "try"; "while"; "with"; "yield"].

Definition mem (x : string) (l : list string) : bool := existsb (String.eqb x) l.

Definition starts_with_underscore (s : string) : bool :=
  match s with String c _ => Ascii.eqb c "_" | EmptyString => false end.

(** What [self.<name>] is. [Opaque]: a keyword (a syntax error) or a name
    with a leading underscore other than [__init__] (the attributes every
    object inherits), left outside the embedding. *)
Inductive attribute : Type :=
| IsMethod (arity : nat)
| IsData
| IsMissing
| IsOpaque.

Definition lookup_method (name : string) : option nat :=
  match find (fun p => String.eqb name (fst p)) methods with
  | Some p => Some (snd p)
  | None => None
  end.

Definition getattr (name : string) : attribute :=
  match lookup_method name with
  | Some n => IsMethod n
  | None =>
      if mem name data_attributes then IsData
      else if starts_with_underscore name || mem name keywords then IsOpaque
      else IsMissing
  end.

(** Python looks the attribute up before it evaluates any argument, so a
    call of a name the agent does not have raises AttributeError whatever
    its arguments are.  A text outside [action_expr] is still read far
    enough to see that it is such a call: the name, spaces, and a
    parenthesised list of positional arguments that are plain string
    literals, numbers, the constants [True], [False] and [None], or
    dotted names, with or without a comma after the last; all of these
    are well-formed Python. *)
Definition is_digit (c : ascii) : bool :=
  let n := nat_of_ascii c in (48 <=? n) && (n <=? 57).

Fixpoint take_digits (s : string) : string * string :=
  match s with
  | String c r =>
      if is_digit c
      then let (d, rest) := take_digits r in (String c d, rest)
      else ("", s)
  | EmptyString => ("", "")
  end.

Definition constants : list string := ["True"; "False"; "None"].

(** A dotted name: no part is a keyword, but for a constant in the first
    place.  The text after it. *)
Fixpoint skip_dotted (fuel : nat) (first : bool) (s : string) : option string :=
  match fuel with
  | 0 => None
  | S f =>
      match parse_ident s with
      | Some (name, rest) =>
          if mem name keywords && negb (first && mem name constants) then None
          else
            match rest with
            | String c r =>
                if Ascii.eqb c "." then skip_dotted f false r else Some rest
            | EmptyString => Some rest
            end
      | None => None
      end
  end.

(** A number: a decimal integer ([0], or digits that do not start with 0,
    at most 640 of them, the least limit Python can be set to), and after
    it, if any, a point and digits.  The text after it. *)
Definition skip_number (s : string) : option string :=
  let (digits, rest) := take_digits s in
  let leading_zero :=
    match digits with
    | String c (String _ _) => Ascii.eqb c "0"
    | _ => false
    end in
  if String.eqb digits "" || leading_zero || (640 <? String.length digits)
  then None
  else
    match rest with
    | String c r =>
        if Ascii.eqb c "." then
          let (fraction, rest') := take_digits r in
          if String.eqb fraction "" then None else Some rest'
        else Some rest
    | EmptyString => Some rest
    end.

(** One argument: a string literal, a number with or without a minus
    sign, or a dotted name.  The text after it. *)
Definition skip_atom (s : string) : option string :=
  match s with
  | String c r =>
      if Ascii.eqb c "'" || Ascii.eqb c double_quote then
        match take_literal c r with
        | Some (_, rest) => Some rest
        | None => None
        end
      else if Ascii.eqb c "-" then skip_number r
      else if is_digit c then skip_number s
      else skip_dotted (String.length s) true s
  | EmptyString => None
  end.

Fixpoint loose_args (fuel : nat) (s : string) : bool :=
  match fuel with
  | 0 => false
  | S f =>
      match skip_atom (skip_blanks s) with
      | None => false
      | Some rest =>
          match skip_blanks rest with
          | String c rest' =>
              if Ascii.eqb c ")" then String.eqb rest' ""
              else if Ascii.eqb c "," then
                String.eqb (skip_blanks rest') ")" || loose_args f rest'
              else false
          | EmptyString => false
          end
      end
  end.

(** The name a text begins with, when the text is that name alone or a
    call of it with such arguments. *)
Definition head_name (code : string) : option string :=
  match parse_ident code with
  | Some (name, rest) =>
      match skip_blanks rest with
      | EmptyString => Some name
      | String c args =>
          if Ascii.eqb c "(" then
            if String.eqb (skip_blanks args) ")"
               || loose_args (String.length args) args
            then Some name else None
          else None
      end
  | None => None
  end.

(** The four calls the system prompt offers the model. *)
Definition grammar : list string :=
  ["click_element"; "type_text"; "navigate_to"; "finish_testing"].

Definition interp_raise {A} (cls : string) (err : interp_error) : M A :=
  raise (Exn cls (interp_message env err)).

Definition discard {A} (m : M A) : M unit := _ <- m ;; ret tt.

(** The call of a method with as many arguments as it takes. *)
Definition call_method (name : string) (args : list string) : M unit :=
  match args with
  | [] =>
      if String.eqb name "get_page_state" then discard get_page_state
      else unmodelled (* run_tests(): the re-entrant run *)
  | [x] =>
      if String.eqb name "navigate_to" then navigate_to x
      else if String.eqb name "finish_testing" then finish_testing x
      else if String.eqb name "generate_action" then discard (generate_action x)
      else if String.eqb name "__init__" then __init__ x
      else unmodelled
  | [x; y] =>
      if String.eqb name "click_element" then click_element x y
      else if String.eqb name "report_action" then report_action x y
      else unmodelled
  | [x; y; z] =>
      if String.eqb name "type_text" then type_text x y z
      else unmodelled
  | _ => unmodelled
  end.

(** A text outside [action_expr]: the lookup of a name the agent does not
    have raises before anything else of the text is evaluated. *)
Definition eval_unread (action_code : string) : M unit :=
  match head_name action_code with
  | Some name =>
      match getattr name with
      | IsMissing => interp_raise "AttributeError" (NoAttribute name)
      | _ => unmodelled
      end
  | None => unmodelled
  end.

(** [eval(f"self.{action_code}")]; the value is dropped by the caller. *)
Definition eval_action (action_code : string) : M unit :=
  match parse_action action_code with
  | None => eval_unread action_code
  | Some e =>
      let name := match e with Attr n => n | Call n _ => n end in
      match getattr name, e with
      | IsOpaque, _ => unmodelled
      | IsMissing, _ => interp_raise "AttributeError" (NoAttribute name)
      | _, Attr _ => ret tt
      | IsData, Call _ _ => interp_raise "TypeError" (NotCallable name)
      | IsMethod arity, Call _ args =>
          if List.length args =? arity then call_method name args
          else interp_raise "TypeError" (BadArity name (List.length args))
      end
  end.

(** The [for] loop of [run_tests] (lines 146-159) over a range of [n]
    steps.  The result is the number of iterations begun: the final value
    of [step], plus one. *)
Definition last_is_finish : M bool :=
  a <- get_self ;;
  match last (map Some (actions (test_report a))) None with
  | None => ret false
  | Some log =>
      match dict_get "status" log with
      | Some v => ret (pyval_eqb v (PStr "FINISH"))
      | None => raise (Exn "KeyError" "'status'")
      end
  end.

Inductive flow : Type := Continue | Break.

(** One iteration of the loop body. *)
Definition loop_body : M flow :=
  finished <- last_is_finish ;;
  if finished then ret Break
  else
    page_state <- get_page_state ;;
    action_code <- generate_action page_state ;;
    try_except
      (eval_action action_code ;; sleep 3 ;; ret Continue)
      None
      (fun e =>
         report_action ("CRITICAL ERROR executing AI code '" ++ action_code
                          ++ "': " ++ exn_text e) "FATAL_ERROR" ;;
         ret Break).

Fixpoint run_loop (n : nat) : M nat :=
  match n with
  | 0 => ret 0
  | S k =>
      f <- loop_body ;;
      match f with
      | Break => ret 1
      | Continue => begun <- run_loop k ;; ret (S begun)
      end
  end.

(** Lines 146-162: the loop, [self.driver.quit()] and the return. *)
Definition loop_and_quit : M (nat * Report) :=
  a <- get_self ;;
  begun <- run_loop (max_steps a) ;;
  driver_quit ;;
  a' <- get_self ;;
  ret (begun, test_report a').

(** [run_tests(self)], with the number of iterations begun kept next to
    the report it returns. *)
Definition run_tests_counting : M (nat * Report) :=
  a <- get_self ;;
  driver_get (start_url a) ;;
  report_action ("Initial navigation to: " ++ start_url a) "PASS" ;;
  loop_and_quit.

(** [run_tests(self)] *)
Definition run_tests : M Report :=
  r <- run_tests_counting ;;
  ret (snd r).

(** The model's text [run_tests()] runs the loop again, inside the loop:
    [nested] is what that call does, and [eval] drops what it returns.
    Every other text is evaluated as before. *)
Definition eval_action_in (nested : M unit) (action_code : string) : M unit :=
  match parse_action action_code with
  | Some (Call name []) =>
      if String.eqb name "run_tests" then nested else eval_action action_code
  | _ => eval_action action_code
  end.

Definition loop_body_in (nested : M unit) : M flow :=
  finished <- last_is_finish ;;
  if finished then ret Break
  else
    page_state <- get_page_state ;;
    action_code <- generate_action page_state ;;
    try_except
      (eval_action_in nested action_code ;; sleep 3 ;; ret Continue)
      None
      (fun e =>
         report_action ("CRITICAL ERROR executing AI code '" ++ action_code
                          ++ "': " ++ exn_text e) "FATAL_ERROR" ;;
         ret Break).

Fixpoint run_loop_in (nested : M unit) (n : nat) : M nat :=
  match n with
  | 0 => ret 0
  | S k =>
      f <- loop_body_in nested ;;
      match f with
      | Break => ret 1
      | Continue => begun <- run_loop_in nested k ;; ret (S begun)
      end
  end.

Definition run_tests_in (nested : M unit) : M Report :=
  a <- get_self ;;
  driver_get (start_url a) ;;
  report_action ("Initial navigation to: " ++ start_url a) "PASS" ;;
  a1 <- get_self ;;
  run_loop_in nested (max_steps a1) ;;
  driver_quit ;;
  a' <- get_self ;;
  ret (test_report a').

(** [run_tests(self)] with calls of itself from the model's text followed
    [depth] deep; a deeper call is outside the embedding. *)
Fixpoint run_tests_deep (depth : nat) : M Report :=
  match depth with
  | 0 => run_tests_in unmodelled
  | S d => run_tests_in (discard (run_tests_deep d))
  end.

(** [AITestingAgent(start_url)]: [__init__] on a new object. *)
Definition blank : Agent := mkAgent None 0 "" (mkReport "" [] "") "" 0.

Definition AITestingAgent (start : string) : World -> Result unit :=
  fun w => __init__ start (mkState blank w).

(* ================================================================== *)
(** * The [/report] route of [app.py] *)
(* ================================================================== *)

Inductive Response : Type :=
| Redirect (endpoint : string)
| Render (template : string) (report : Report) (success : bool).

(** The report both error branches build: one record without [url_after]. *)
Definition error_report (target message text : string) : Report :=
  mkReport target
    [[("step", PInt 1); ("action", PStr message); ("status", PStr "FATAL_ERROR")]]
    text.

(** [run_test_and_show_report()], given [request.args.get('url')].  The
    result is the response and the world afterwards. *)
Definition run_test_and_show_report (target_url : option string) (w : World)
    : option (Response * World) :=
  match target_url with
  | None => Some (Redirect "index", w)
  | Some target =>
      if negb (truthy target) then Some (Redirect "index", w)
      else if negb (truthy_opt (getenv env "GEMINI_API_KEY")) then
        let error_msg := "FATAL ERROR: GEMINI_API_KEY not found in environment. Did you set it in Railway Variables?" in
        Some (Render "report.html" (error_report target error_msg "Setup Error") false, w)
      else
        let failed (e : exn) (w' : World) :=
          let error_message :=
            ("FATAL ERROR during test execution: " ++ exn_text e
               ++ ". Check your Chrome WebDriver setup.")%string in
          Some (Render "report.html"
                  (error_report target error_message "Execution Failed") false, w') in
        match AITestingAgent target w with
        | Ok _ s =>
            match run_tests s with
            | Ok final_report s' => Some (Render "report.html" final_report true, world s')
            | Raise e s' => failed e (world s')
            | Unmodelled => None
            end
        | Raise e s => failed e (world s)
        | Unmodelled => None
        end
  end.

End WithEnv.

(* ================================================================== *)
(** * The vocabulary of the specification *)
(* ================================================================== *)

(* ------------------------------------------------------------------ *)
(** ** States reached by the methods *)

(** The session behind [self.driver], and the URL it is on. *)
Definition session_at (s : State) : option Session :=
  nth_error (sessions (world s)) (driver (self s)).

Definition alive (s : State) : Prop :=
  exists u, session_at s = Some (mkSession true u).

Definition here (s : State) : string :=
  match session_at s with Some b => current_url b | None => "" end.

Definition report_of (s : State) : Report := test_report (self s).

(** The record [report_action] builds. *)
Definition log_entry (step : nat) (description status current : string) : dict :=
  [("step", PInt (Z.of_nat step + 1)); ("action", PStr description);
   ("status", PStr status); ("url_after", PStr current)].

(** The state after [report_action(description, status)]. *)
Definition logged (description status : string) (s : State) : State :=
  let a := self s in
  let r := test_report a in
  let w := world s in
  let n := List.length (actions r) in
  let step := str_of_int (Z.of_nat n + 1) in
  mkState
    (mkAgent (client a) (driver a) (start_url a)
       (mkReport (url r) (actions r ++ [log_entry n description status (here s)])
                 (summary r))
       (history a ++ "Step " ++ step ++ " (" ++ status ++ "): " ++ description ++ LF)
       (max_steps a))
    (mkWorld (sessions w) (llm_calls w) (slept w)
       (stdout w ++ [("[" ++ status ++ "] Step " ++ step ++ ": " ++ description)%string])).

(** The state after the browser moved to [landed]. *)
Definition moved (landed : string) (s : State) : State :=
  let w := world s in
  mkState (self s)
    (mkWorld (set_nth (driver (self s)) (mkSession true landed) (sessions w))
             (llm_calls w) (slept w) (stdout w)).

(** The state after one more model call. *)
Definition asked (s : State) : State :=
  let w := world s in
  mkState (self s) (mkWorld (sessions w) (S (llm_calls w)) (slept w) (stdout w)).

(** The state after [time.sleep(n)]. *)
Definition rested (n : nat) (s : State) : State :=
  let w := world s in
  mkState (self s) (mkWorld (sessions w) (llm_calls w) (slept w + n) (stdout w)).

(** The state after [self.test_report['summary'] = text]. *)
Definition summarized (text : string) (s : State) : State :=
  let a := self s in
  let r := test_report a in
  mkState (set_test_report (mkReport (url r) (actions r) text) a) (world s).

(** The state after [self.driver.quit()]. *)
Definition closed (s : State) : State :=
  let w := world s in
  mkState (self s)
    (mkWorld (set_nth (driver (self s)) (mkSession false (here s)) (sessions w))
             (llm_calls w) (slept w) (stdout w)).

(** The state after a complete [__init__(start)] with key [k]. *)
Definition constructed (k : option string) (start : string) (s : State) : State :=
  let w := world s in
  mkState
    (mkAgent k (List.length (sessions w)) start (mkReport start [] "") "" 7)
    (mkWorld (sessions w ++ [mkSession true "data:,"])
             (llm_calls w) (slept w) (stdout w)).

(** The observation [get_page_state] returns in a state. *)
Definition page_state (env : Env) (s : State) : string :=
  format_state (here s) (page_title env (here s))
    (top10 (html_parser env (page_source env (here s)))).

(** The state when [webdriver.Chrome] raises inside [__init__]: only
    [self.client] was assigned. *)
Definition keyed (k : option string) (s : State) : State :=
  mkState (set_client k (self s)) (world s).

(* ------------------------------------------------------------------ *)
(** ** Assertions and the invariant of a run *)

(** From a state satisfying [P], a run of [m] that returns satisfies [Q]
    and one that raises satisfies [E]. *)
Definition hoare {A} (P : State -> Prop) (m : M A)
    (Q : A -> State -> Prop) (E : State -> Prop) : Prop :=
  forall s, P s ->
    match m s with
    | Ok a s' => Q a s'
    | Raise _ s' => E s'
    | Unmodelled => True
    end.

(** Every record was built by [report_action], at its position. *)
Definition numbered (l : list dict) : Prop :=
  forall i e, nth_error l i = Some e ->
    exists d st u, e = log_entry i d st u.

Definition status_of (e : dict) : option pyval := dict_get "status" e.

(** The last record, if any, has status FINISH. *)
Definition ends_in_finish (l : list dict) : Prop :=
  exists l' e, l = l' ++ [e] /\ status_of e = Some (PStr "FINISH").

(** The session is open and the records are numbered; with the flag set,
    there is a record. *)
Definition settled (ne : bool) (s : State) : Prop :=
  alive s /\ numbered (actions (report_of s))
  /\ (ne = true -> actions (report_of s) <> []).

(** Settled, and no summary was set. *)
Definition quiet (ne : bool) (s : State) : Prop :=
  settled ne s /\ summary (report_of s) = "".

(** Settled, and a summary was set only by the last, FINISH record. *)
Definition closing (ne : bool) (s : State) : Prop :=
  settled ne s
  /\ (summary (report_of s) = "" \/ ends_in_finish (actions (report_of s))).

(** The model's text calls [finish_testing] or the constructor, the two
    methods that assign the summary. *)
Definition sets_summary (code : string) : bool :=
  match parse_action code with
  | Some (Call name _) =>
      String.eqb name "finish_testing" || String.eqb name "__init__"
  | _ => false
  end.

(** The model's text calls the constructor. *)
Definition is_init_call (code : string) : bool :=
  match parse_action code with
  | Some (Call name _) => String.eqb name "__init__"
  | _ => false
  end.

(** What a returned report satisfies. *)
Definition sound_report (ne : bool) (r : Report) : Prop :=
  numbered (actions r)
  /\ (ne = true -> actions r <> [])
  /\ (summary r = "" \/ ends_in_finish (actions r)).

(** The texts [generate_action] can return. *)
Definition from_model (env : Env) (code : string) : Prop :=
  code = canned_finish
  \/ exists n p text,
       generate_content env n GEMINI_MODEL system_prompt p = inl text
       /\ code = strip text.

(* ------------------------------------------------------------------ *)
(** ** The label policy *)

(** The label the code picks, said without [or]: the first of the
    accessible-label attribute, the text, the placeholder and the name
    attribute that is present and not the empty string. *)
Definition label_sources (t : Tag) : list (option string) :=
  [tag_get "aria-label" (tag_attrs t); Some (tag_text t);
   tag_get "placeholder" (tag_attrs t); tag_get "name" (tag_attrs t)].

Fixpoint first_truthy (candidates : list (option string)) : option string :=
  match candidates with
  | [] => None
  | Some l :: rest => if truthy l then Some l else first_truthy rest
  | None :: rest => first_truthy rest
  end.

Definition picked_label (t : Tag) : option string :=
  first_truthy (label_sources t).

(** Anchor, button and input tags. *)
Definition is_candidate (t : Tag) : bool :=
  mem (tag_name t) ["a"; "button"; "input"].

(** A candidate for which a label is picked that has fewer than 50
    characters. *)
Definition listed (t : Tag) : bool :=
  is_candidate t &&
  match picked_label t with
  | Some l => String.length l <? 50
  | None => false
  end.

(** The line a listed element is shown as. *)
Definition render (t : Tag) : string :=
  match picked_label t with
  | Some l => describe t l
  | None => ""
  end.

(** A value the code takes as a label: present and not empty. *)
Definition nonempty (o : option string) : option string :=
  if truthy_opt o then o else None.

(** The label policy in the words of the specification: in priority order
    the accessible-label attribute, the visible text, the placeholder text
    and the name attribute, the first that resolves.  A value resolves when
    there is something of it to see: a character that is not white space.
    An element with no resolvable label or with a label of 50 or more
    characters is excluded; the output is at most ten entries, in document
    order. *)
Definition resolvable (l : string) : bool := truthy (strip l).

Fixpoint first_resolved (candidates : list (option string)) : option string :=
  match candidates with
  | [] => None
  | Some l :: rest => if resolvable l then Some l else first_resolved rest
  | None :: rest => first_resolved rest
  end.

Definition spec_label (t : Tag) : option string :=
  first_resolved (label_sources t).

Definition spec_listed (t : Tag) : bool :=
  is_candidate t &&
  match spec_label t with
  | Some l => String.length l <? 50
  | None => false
  end.

(** The line of an element: its tag kind, its label without the white
    space around it, and its identifier, N/A when it has none. *)
Definition spec_entry (t : Tag) : string :=
  match spec_label t with
  | Some l =>
      "<" ++ tag_name t ++ "> Text: '" ++ strip l ++ "' ID: '"
          ++ match tag_get "id" (tag_attrs t) with
             | Some i => i
             | None => "N/A"
             end ++ "'"
  | None => ""
  end.

Definition spec_elements (soup : list Tag) : list string :=
  firstn 10 (map spec_entry (filter spec_listed soup)).

(** No value a label can come from is white space only. *)
Definition no_blank_source (t : Tag) : bool :=
  forallb (fun o => match o with
                    | Some v => implb (truthy v) (resolvable v)
                    | None => true
                    end)
          (label_sources t).

(** The same, for every anchor, button and input of a document. *)
Definition no_blank_candidate (soup : list Tag) : bool :=
  forallb (fun t => implb (is_candidate t) (no_blank_source t)) soup.

(* ------------------------------------------------------------------ *)
(** ** Texts inside the embedding *)

Definition expr_name (e : action_expr) : string :=
  match e with Attr n => n | Call n _ => n end.

(** The name the model's text refers to or calls. *)
Definition named_by (code : string) : option string :=
  match parse_action code with
  | Some e => Some (expr_name e)
  | None => head_name code
  end.

(** The evaluation of the text is modelled: it parses as an attribute
    reference or a call with literal arguments, the name is not opaque, and
    it is not a well-formed call of [run_tests]; or it is read as a call of
    a name the agent does not have. *)
Definition modelled (code : string) : bool :=
  match parse_action code with
  | None =>
      match head_name code with
      | Some name =>
          match getattr name with IsMissing => true | _ => false end
      | None => false
      end
  | Some e =>
      match getattr (expr_name e), e with
      | IsOpaque, _ => false
      | IsMethod arity, Call name args =>
          negb (List.length args =? arity) || negb (String.eqb name "run_tests")
      | _, _ => true
      end
  end.

(** Every answer of the model is a modelled text. *)
Definition answers_modelled (env : Env) : Prop :=
  forall n p text,
    generate_content env n GEMINI_MODEL system_prompt p = inl text ->
    modelled (strip text) = true.

(** [m] has an outcome in the embedding from every state. *)
Definition total {A} (m : M A) : Prop := forall s, m s <> Unmodelled.

(* ------------------------------------------------------------------ *)
(** ** Concrete worlds *)

(** A model service that answers from a script and is unavailable after it. *)
Definition scripted (script : list (string + exn))
    : nat -> string -> string -> string -> string + exn :=
  fun n _ _ _ => nth n script (inr (Exn "ServerError" "503 UNAVAILABLE")).

(** [urljoin] on a base without a path and a relative segment. *)
Definition join_segment (base path : string) : string := base ++ "/" ++ path.

Definition example_soup : list Tag :=
  [mkTag "a" [("href", "/about")] " About ";
   mkTag "div" [("id", "main")] "About Search";
   mkTag "input" [("name", "q"); ("id", "search-input")] "";
   mkTag "button" [("aria-label", "")] "";
   mkTag "a" [("aria-label", "Home"); ("id", "home")] "Start page"].

(** A site on which every page loads, with one link that can be clicked;
    the URL [not a url] is refused by the browser. *)
Definition example_env (key : option string) (script : list (string + exn)) : Env :=
  mkEnv
    (fun name => if String.eqb name "GEMINI_API_KEY" then key else None)
    (fun k => match k with
              | Some _ => None
              | None => Some (Exn "ValueError" "Missing key inputs argument!")
              end)
    (fun _ => None)
    (fun u => if String.eqb u "not a url"
              then inr (Exn "InvalidArgumentException" "Message: invalid argument")
              else inl u)
    (fun _ => "Example Domain")
    (fun _ => "<html>...</html>")
    (fun _ => example_soup)
    (fun u _ locator =>
       if String.eqb locator "About" then inl (u ++ "/about")%string
       else inr (Exn "TimeoutException" "Message: "))
    (fun u _ _ _ => inl u)
    (scripted script)
    join_segment
    (fun err =>
       match err with
       | NoAttribute name =>
           ("'AITestingAgent' object has no attribute '" ++ name ++ "'")%string
       | NotCallable name => "object is not callable"
       | BadArity name _ => (name ++ "() got the wrong number of arguments")%string
       end).

Definition empty_world : World := mkWorld [] 0 0 [].

(* ------------------------------------------------------------------ *)
(** ** Step numbers *)



(** The model never answers with a call of the constructor. *)
Definition never_reconstructs (env : Env) : Prop :=
  forall n p text,
    generate_content env n GEMINI_MODEL system_prompt p = inl text ->
    is_init_call (strip text) = false.

(** The model answers every step with a call of the constructor. *)
Definition reconstructing_env : Env :=
  example_env (Some "key") (repeat (inl "__init__('x')") 7).

(** The scenario of the specification: two answers, then the script ends. *)
Definition scenario_env : Env :=
  example_env (Some "key")
    [inl "navigate_to('contact')"; inl "finish_testing('No issues found')"].

Definition scenario_start : State :=
  Eval vm_compute in
    match AITestingAgent scenario_env "https://example.test" empty_world with
    | Ok _ s => s
    | _ => mkState blank empty_world
    end.

Definition scenario_run : Result Report :=
  Eval vm_compute in run_tests scenario_env scenario_start.

Definition scenario_report : Report :=
  match scenario_run with Ok r _ => r | _ => mkReport "" [] "" end.

Definition scenario_end : State :=
  match scenario_run with Ok _ s => s | _ => scenario_start end.

(* ------------------------------------------------------------------ *)
(** ** What a method may touch *)

(** From [s] to [s']: at most [c] more model calls and [t] more seconds
    slept; the summary is untouched unless [sm], the url unless [ur]. *)
Definition within (c t : nat) (sm ur : bool) (s s' : State) : Prop :=
  llm_calls (world s') <= llm_calls (world s) + c
  /\ slept (world s') <= slept (world s) + t
  /\ (sm = false -> summary (report_of s') = summary (report_of s))
  /\ (ur = false -> url (report_of s') = url (report_of s)).

(** Every outcome of [m] stays [within] the bounds; a returned value
    satisfies [V]. *)
Definition effect {A} (m : M A) (V : A -> Prop) (c t : nat) (sm ur : bool) : Prop :=
  forall s,
    match m s with
    | Ok a s' => V a /\ within c t sm ur s s'
    | Raise _ s' => within c t sm ur s s'
    | Unmodelled => True
    end.

Definition anything {A} : A -> Prop := fun _ => True.

(** The model answers with a call of [report_action], a method of the
    agent that the grammar does not offer. *)
Definition forging_env : Env :=
  example_env (Some "key")
    [inl "report_action('Checkout verified', 'PASS')"; inl "finish_testing('done')"].

(** The model answers with a name the agent does not have. *)
Definition stray_env : Env := example_env (Some "key") [inl "frobnicate (1, x)"].

Definition stray_start : State :=
  Eval vm_compute in
    match AITestingAgent stray_env "https://example.test" empty_world with
    | Ok _ s => s
    | _ => mkState blank empty_world
    end.

(** The model service is down from the first call on. *)
Definition offline_env : Env := example_env (Some "key") [].

Definition offline_start : State :=
  Eval vm_compute in
    match AITestingAgent offline_env "https://example.test" empty_world with
    | Ok _ s => s
    | _ => mkState blank empty_world
    end.

Definition example_test : string := "https://example.test".

(** The report of the scenario. *)
Definition scenario_expected : Report :=
  mkReport example_test
    [log_entry 0 "Initial navigation to: https://example.test" "PASS" example_test;
     log_entry 1 "Navigated to: https://example.test/contact" "PASS"
       "https://example.test/contact";
     log_entry 2 "No issues found" "FINISH" "https://example.test/contact"]
    "No issues found".

(** [m] returns or raises, and leaves the url of the report as it is
    either way. *)
Definition leaves_url {A} (m : M A) : Prop :=
  forall s,
    match m s with
    | Ok _ s' | Raise _ s' => url (report_of s') = url (report_of s)
    | Unmodelled => False
    end.

(** [m] returns or raises, and leaves the summary and the url of the report
    as they are. *)
Definition leaves_summary_and_url {A} (m : M A) : Prop :=
  forall s,
    match m s with
    | Ok _ s' | Raise _ s' =>
        summary (report_of s') = summary (report_of s)
        /\ url (report_of s') = url (report_of s)
    | Unmodelled => False
    end.

(** Seven clicks on a link that is not there exhaust the budget. *)
Definition clicking_env : Env :=
  example_env (Some "key") (repeat (inl "click_element(By.LINK_TEXT, 'Pricing')") 7).

Definition clicking_start : State :=
  Eval vm_compute in
    match AITestingAgent clicking_env "https://example.test" empty_world with
    | Ok _ s => s
    | _ => mkState blank empty_world
    end.

Definition clicking_run : Result Report :=
  Eval vm_compute in run_tests clicking_env clicking_start.

Definition clicking_report : Report :=
  match clicking_run with Ok r _ => r | _ => mkReport "" [] "" end.

Definition clicking_end : State :=
  match clicking_run with Ok _ s => s | _ => clicking_start end.

Definition has_keys (keys : list string) (e : dict) : Prop :=
  forall k, In k keys -> has_key k e = true.

(** No credential is set. *)
Definition keyless_env : Env := example_env None [].

Definition setup_error_msg : string :=
  "FATAL ERROR: GEMINI_API_KEY not found in environment. Did you set it in Railway Variables?".

(** The credential is set and the model is never reached. *)
Definition refusing_env : Env := example_env (Some "key") [].

(* ------------------------------------------------------------------ *)
(** ** The index route of [app.py] *)

(** What [index()] answers: a redirect to the report route carrying the
    URL ([url_for('run_test_and_show_report', url=target_url)]), or the
    search page. *)
Inductive IndexResponse : Type :=
| ToReport (endpoint : string) (target_url : string)
| Page (template : string).

(** [index()], given [request.method] and [request.form.get('url')]. *)
Definition index (method : string) (form_url : option string) : IndexResponse :=
  if String.eqb method "POST" then
    match form_url with
    | Some target_url =>
        if truthy target_url then ToReport "run_test_and_show_report" target_url
        else Page "index.html"
    | None => Page "index.html"
    end
  else Page "index.html".

(* ------------------------------------------------------------------ *)
(** ** Invariants of the states a run reaches *)

(** The session is open and [I] holds. *)
Definition kept (I : State -> Prop) (s : State) : Prop := alive s /\ I s.

(** The last record has the given status. *)
Definition ends_in_status (status : string) (l : list dict) : Prop :=
  exists l' e, l = l' ++ [e] /\ status_of e = Some (PStr status).

(** The line [report_action] adds to the history for the record it
    appends. *)
Definition history_line (e : dict) : string :=
  match dict_get "step" e, dict_get "status" e, dict_get "action" e with
  | Some (PInt n), Some (PStr st), Some (PStr d) =>
      "Step " ++ str_of_int n ++ " (" ++ st ++ "): " ++ d ++ LF
  | _, _, _ => ""
  end.

(** The history of a list of records: their lines, in order. *)
Fixpoint history_of (l : list dict) : string :=
  match l with
  | [] => ""
  | e :: r => history_line e ++ history_of r
  end.

(** The history is the log of the records of the report. *)
Definition history_synced (s : State) : Prop :=
  history (self s) = history_of (actions (report_of s)).

(** The report carries the URL navigation is resolved against, and the
    budget is the constructor's. *)
Definition base_fixed (s : State) : Prop :=
  url (report_of s) = start_url (self s) /\ max_steps (self s) = 7.

(** The sessions that existed before are still there, unchanged, and the
    driver of the agent is none of them. *)
Definition others_untouched (old : list Session) (s : State) : Prop :=
  exists mine, sessions (world s) = old ++ mine
               /\ List.length old <= driver (self s).

(** The world holds one session more than before, the agent's, still open. *)
Definition one_session (old : list Session) (s : State) : Prop :=
  exists u, sessions (world s) = old ++ [mkSession true u]
            /\ driver (self s) = List.length old.

(* ------------------------------------------------------------------ *)
(** ** More concrete worlds *)

(** Chrome cannot be started. *)
Definition driverless_env : Env :=
  let e := example_env (Some "key") [] in
  mkEnv (getenv e) (genai_Client e)
    (fun _ => Some (Exn "WebDriverException"
                      "Message: unknown error: Chrome failed to start"))
    (browse e) (page_title e) (page_source e) (html_parser e) (wait_click e)
    (wait_type e) (generate_content e) (urljoin e) (interp_message e).

(** The model asks for a page the browser cannot load. *)
Definition dead_link_env : Env :=
  let e := example_env (Some "key") [inl "navigate_to('missing')"] in
  mkEnv (getenv e) (genai_Client e) (webdriver_Chrome e)
    (fun u => if String.eqb u "https://example.test/missing"
              then inr (Exn "WebDriverException"
                          "Message: unknown error: net::ERR_CONNECTION_REFUSED")
              else inl u)
    (page_title e) (page_source e) (html_parser e) (wait_click e)
    (wait_type e) (generate_content e) (urljoin e) (interp_message e).

(** The model types into a field, calls a method with one argument too
    many, or names a method without calling it. *)
Definition typing_env : Env :=
  example_env (Some "key") [inl "type_text(By.ID, 'q', 'shoes')"].

Definition overfull_env : Env :=
  example_env (Some "key") [inl "navigate_to('a', 'b')"].

Definition bare_env : Env := example_env (Some "key") [inl "finish_testing"].

(** A new agent for the example site, its browser still on the blank page. *)
Definition fresh : State :=
  constructed (Some "key") example_test (mkState blank empty_world).

(** A page with a button that shows a blank and has a name, and a link
    around white space only. *)
Definition blank_soup : list Tag :=
  [mkTag "button" [("name", "submit")] " "; mkTag "a" [("href", "/")] "  "].

Definition blank_env : Env :=
  let e := example_env (Some "key") [] in
  mkEnv (getenv e) (genai_Client e) (webdriver_Chrome e) (browse e)
    (page_title e) (page_source e) (fun _ => blank_soup) (wait_click e)
    (wait_type e) (generate_content e) (urljoin e) (interp_message e).

(** The model has the agent ask the model again and the service fails on
    that call; the model then names an attribute six times. *)
Definition nested_env : Env :=
  example_env (Some "key")
    ([inl "generate_action('x')"; inr (Exn "ServerError" "503 UNAVAILABLE")]
       ++ repeat (inl "history") 6).

(** The model has the agent run its tests again from inside the loop; in
    that run it names an attribute six times and then finishes. *)
Definition reentrant_env : Env :=
  example_env (Some "key")
    ([inl "run_tests()"] ++ repeat (inl "history") 6
       ++ [inl "finish_testing('done')"]).

(** The model has the agent construct itself again for another site, and
    finishes. *)
Definition hijacking_env : Env :=
  example_env (Some "key")
    [inl "__init__('https://evil.test')"; inl "finish_testing('done')"].

(** The run in which the model has the agent construct itself again. *)
Definition reconstructing_run : Result Report :=
  Eval vm_compute in run_tests reconstructing_env fresh.

Definition reconstructing_report : Report :=
  match reconstructing_run with Ok r _ => r | _ => mkReport "" [] "" end.

Definition reconstructing_end : State :=
  match reconstructing_run with Ok _ s => s | _ => fresh end.

(** A world in which the browser of somebody else is open, and the
    scenario served in it. *)
Definition busy_world : World :=
  mkWorld [mkSession true "https://other.test"] 0 0 [].

Definition busy_outcome : Response * World :=
  Eval vm_compute in
    match run_test_and_show_report scenario_env (Some "https://example.test")
            busy_world with
    | Some p => p
    | None => (Redirect "index", busy_world)
    end.

(* ================================================================== *)
(** * What each method does to the state *)
(* ================================================================== *)

Lemma nth_error_set_nth {A} (l : list A) (n : nat) (x y : A) :
  nth_error l n = Some y -> nth_error (set_nth n x l) n = Some x.
Proof.
  revert n; induction l as [|z l IH]; intros [|n] H; simpl in *;
    try discriminate; auto.
Qed.

Lemma alive_here (s : State) :
  alive s -> session_at s = Some (mkSession true (here s)).
Proof.
  intros [u H]. unfold here. rewrite H. reflexivity.
Qed.

Lemma live_session_alive (s : State) :
  alive s -> live_session s = Ok (mkSession true (here s)) s.
Proof.
  intros H. apply alive_here in H. unfold live_session.
  unfold session_at in H. rewrite H. reflexivity.
Qed.

Lemma report_action_alive (description status : string) (s : State) :
  alive s -> report_action description status s = Ok tt (logged description status s).
Proof.
  intros H.
  unfold report_action, driver_current_url, bind, get_self.
  rewrite (live_session_alive H).
  reflexivity.
Qed.

Section Steps.

Variable env : Env.

Lemma get_page_state_alive (s : State) :
  alive s -> get_page_state env s = Ok (page_state env s) s.
Proof.
  intros H.
  unfold get_page_state, driver_current_url, driver_title, driver_page_source, bind, ret.
  repeat (rewrite (live_session_alive H); cbv beta iota).
  reflexivity.
Qed.

Lemma driver_get_alive (target : string) (s : State) :
  alive s ->
  driver_get env target s =
    match browse env target with
    | inl landed => Ok tt (moved landed s)
    | inr e => Raise e s
    end.
Proof.
  intros H. unfold driver_get, bind. rewrite (live_session_alive H).
  destruct (browse env target); reflexivity.
Qed.

Lemma driver_wait_click_alive (by_type locator : string) (s : State) :
  alive s ->
  driver_wait_click env by_type locator s =
    match wait_click env (here s) by_type locator with
    | inl landed => Ok tt (moved landed s)
    | inr e => Raise e s
    end.
Proof.
  intros H. unfold driver_wait_click, bind. rewrite (live_session_alive H).
  simpl. destruct (wait_click env (here s) by_type locator); reflexivity.
Qed.

Lemma driver_wait_type_alive (by_type locator text : string) (s : State) :
  alive s ->
  driver_wait_type env by_type locator text s =
    match wait_type env (here s) by_type locator text with
    | inl landed => Ok tt (moved landed s)
    | inr e => Raise e s
    end.
Proof.
  intros H. unfold driver_wait_type, bind. rewrite (live_session_alive H).
  simpl. destruct (wait_type env (here s) by_type locator text); reflexivity.
Qed.

Lemma driver_quit_alive (s : State) :
  alive s -> driver_quit s = Ok tt (closed s).
Proof.
  intros H. unfold driver_quit. fold (session_at s).
  unfold closed, here. rewrite (alive_here H). reflexivity.
Qed.

Lemma alive_moved (landed : string) (s : State) : alive s -> alive (moved landed s).
Proof.
  intros [u H]. exists landed. unfold session_at, moved in *. simpl.
  eapply nth_error_set_nth; eauto.
Qed.

Lemma alive_logged (d st : string) (s : State) : alive s -> alive (logged d st s).
Proof. intros [u H]. exists u. exact H. Qed.

Lemma alive_asked (s : State) : alive s -> alive (asked s).
Proof. intros [u H]. exists u. exact H. Qed.

Lemma alive_rested (n : nat) (s : State) : alive s -> alive (rested n s).
Proof. intros [u H]. exists u. exact H. Qed.

Lemma alive_summarized (t : string) (s : State) : alive s -> alive (summarized t s).
Proof. intros [u H]. exists u. exact H. Qed.

Lemma alive_constructed (k : option string) (start : string) (s : State) :
  alive (constructed k start s).
Proof.
  exists "data:,". unfold session_at, constructed. simpl.
  rewrite nth_error_app2 by lia. rewrite Nat.sub_diag. reflexivity.
Qed.

Lemma call_model_eq (prompt : string) (s : State) :
  call_model env prompt s =
    match generate_content env (llm_calls (world s)) GEMINI_MODEL system_prompt prompt with
    | inl text => Ok (strip text) (asked s)
    | inr e => Raise e (asked s)
    end.
Proof.
  unfold call_model, bind, get_world, put_world. simpl.
  destruct (generate_content env (llm_calls (world s)) GEMINI_MODEL system_prompt prompt);
    reflexivity.
Qed.

Lemma generate_action_alive (ps : string) (s : State) :
  alive s ->
  generate_action env ps s =
    match generate_content env (llm_calls (world s)) GEMINI_MODEL system_prompt
            (user_prompt (history (self s)) ps) with
    | inl text => Ok (strip text) (asked s)
    | inr e => Ok canned_finish
                 (logged ("Error calling Gemini: " ++ exn_text e) "FATAL_ERROR" (asked s))
    end.
Proof.
  intros H. unfold generate_action, bind, get_self, try_except.
  rewrite call_model_eq.
  destruct (generate_content env (llm_calls (world s)) GEMINI_MODEL system_prompt
              (user_prompt (history (self s)) ps)) as [text|e]; [reflexivity|].
  simpl catches. cbv iota.
  rewrite (report_action_alive _ _ (alive_asked H)). reflexivity.
Qed.

End Steps.

Section MoreSteps.

Variable env : Env.

Lemma sleep_eq (n : nat) (s : State) : sleep n s = Ok tt (rested n s).
Proof. reflexivity. Qed.

Lemma click_element_alive (by_type locator : string) (s : State) :
  alive s ->
  click_element env by_type locator s =
    match wait_click env (here s) by_type locator with
    | inl landed =>
        Ok tt (logged ("Clicked element found by " ++ by_type ++ "='" ++ locator ++ "'.")
                 "PASS" (moved landed s))
    | inr e =>
        if catches not_found e
        then Ok tt (logged ("Failed to click element " ++ locator
                              ++ ". Element not found or timed out.") "ERROR" s)
        else Raise e s
    end.
Proof.
  intros H. unfold click_element, try_except, bind.
  rewrite (driver_wait_click_alive env _ _ H).
  destruct (wait_click env (here s) by_type locator) as [landed|e].
  - rewrite (report_action_alive _ _ (alive_moved landed H)). reflexivity.
  - destruct (catches not_found e); [|reflexivity].
    rewrite (report_action_alive _ _ H). reflexivity.
Qed.

Lemma type_text_alive (by_type locator text : string) (s : State) :
  alive s ->
  type_text env by_type locator text s =
    match wait_type env (here s) by_type locator text with
    | inl landed =>
        Ok tt (logged ("Typed text into field " ++ locator ++ ".") "PASS" (moved landed s))
    | inr e =>
        if catches not_found e
        then Ok tt (logged ("Failed to type text into " ++ locator
                              ++ ". Element not found.") "ERROR" s)
        else Raise e s
    end.
Proof.
  intros H. unfold type_text, try_except, bind.
  rewrite (driver_wait_type_alive env _ _ _ H).
  destruct (wait_type env (here s) by_type locator text) as [landed|e].
  - rewrite (report_action_alive _ _ (alive_moved landed H)). reflexivity.
  - destruct (catches not_found e); [|reflexivity].
    rewrite (report_action_alive _ _ H). reflexivity.
Qed.

Lemma navigate_to_alive (path : string) (s : State) :
  alive s ->
  navigate_to env path s =
    let new_url := urljoin env (start_url (self s)) path in
    match browse env new_url with
    | inl landed => Ok tt (logged ("Navigated to: " ++ new_url) "PASS" (moved landed s))
    | inr e => Raise e s
    end.
Proof.
  intros H. unfold navigate_to, bind, get_self.
  rewrite (driver_get_alive env _ H).
  destruct (browse env (urljoin env (start_url (self s)) path)) as [landed|e]; cbv zeta.
  - rewrite (report_action_alive _ _ (alive_moved landed H)). reflexivity.
  - reflexivity.
Qed.

Lemma finish_testing_alive (text : string) (s : State) :
  alive s ->
  finish_testing text s = Ok tt (logged text "FINISH" (summarized text s)).
Proof.
  intros H. unfold finish_testing, bind.
  change (modify_self _ s) with (Ok tt (summarized text s)). cbv iota beta.
  rewrite (report_action_alive _ _ (alive_summarized text H)). reflexivity.
Qed.

Lemma init_eq (start : string) (s : State) :
  __init__ env start s =
    let k := getenv env "GEMINI_API_KEY" in
    match genai_Client env k with
    | Some e => Raise e s
    | None =>
        match webdriver_Chrome env (List.length (sessions (world s))) with
        | Some e => Raise e (keyed k s)
        | None => Ok tt (constructed k start s)
        end
    end.
Proof.
  unfold __init__. cbv zeta.
  destruct (genai_Client env (getenv env "GEMINI_API_KEY")); [reflexivity|].
  unfold bind, modify_self, get_self, get_world, put_self, put_world. simpl.
  destruct (webdriver_Chrome env (List.length (sessions (world s)))); reflexivity.
Qed.

Lemma alive_keyed (k : option string) (s : State) : alive s -> alive (keyed k s).
Proof. intros [u H]. exists u. exact H. Qed.

End MoreSteps.

(* ================================================================== *)
(** * Assertions over outcomes *)
(* ================================================================== *)

Lemma hoare_ret {A} (P : State -> Prop) (a : A) (Q : A -> State -> Prop) E :
  (forall s, P s -> Q a s) -> hoare P (ret a) Q E.
Proof. intros H s Hs. simpl. auto. Qed.

Lemma hoare_bind {A B} (P : State -> Prop) (m : M A) (k : A -> M B)
    (Q : A -> State -> Prop) (R : B -> State -> Prop) (E : State -> Prop) :
  hoare P m Q E -> (forall a, hoare (Q a) (k a) R E) -> hoare P (bind m k) R E.
Proof.
  intros Hm Hk s Hs. unfold bind. specialize (Hm s Hs).
  destruct (m s) as [a s'| |]; auto. apply Hk; auto.
Qed.

Lemma hoare_try {A} (P : State -> Prop) (m : M A) classes (h : exn -> M A)
    (Q : A -> State -> Prop) (E1 E2 : State -> Prop) :
  hoare P m Q E1 -> (forall e, hoare E1 (h e) Q E2) ->
  (forall s, E1 s -> E2 s) ->
  hoare P (try_except m classes h) Q E2.
Proof.
  intros Hm Hh Hw s Hs. unfold try_except. specialize (Hm s Hs).
  destruct (m s) as [a s'|e s'|]; auto.
  destruct (catches classes e); auto. apply Hh; auto.
Qed.

Lemma hoare_weaken {A} (P P' : State -> Prop) (m : M A)
    (Q Q' : A -> State -> Prop) (E E' : State -> Prop) :
  hoare P m Q E -> (forall s, P' s -> P s) ->
  (forall a s, Q a s -> Q' a s) -> (forall s, E s -> E' s) ->
  hoare P' m Q' E'.
Proof.
  intros H HP HQ HE s Hs. specialize (H s (HP s Hs)).
  destruct (m s); auto.
Qed.

Lemma hoare_post {A} (P : State -> Prop) (m : M A)
    (Q Q' : A -> State -> Prop) (E E' : State -> Prop) :
  hoare P m Q E ->
  (forall a s, Q a s -> Q' a s) -> (forall s, E s -> E' s) ->
  hoare P m Q' E'.
Proof. intros H HQ HE. eapply hoare_weaken; eauto. Qed.

Lemma hoare_get_self (P : State -> Prop) (E : State -> Prop) :
  hoare P get_self (fun _ => P) E.
Proof. intros s Hs. exact Hs. Qed.

Lemma hoare_unmodelled {A} (P : State -> Prop) (Q : A -> State -> Prop) E :
  hoare P unmodelled Q E.
Proof. intros s _. exact I. Qed.

Lemma hoare_raise {A} (P : State -> Prop) (e : exn) (Q : A -> State -> Prop)
    (E : State -> Prop) :
  (forall s, P s -> E s) -> hoare P (raise e) Q E.
Proof. intros H s Hs. simpl. auto. Qed.

(* ================================================================== *)
(** * The invariant of a run *)
(* ================================================================== *)

Lemma numbered_nil : numbered [].
Proof. intros [|i] e H; discriminate. Qed.

Lemma numbered_snoc (l : list dict) (d st u : string) :
  numbered l -> numbered (l ++ [log_entry (List.length l) d st u]).
Proof.
  intros H i e Hi.
  destruct (Nat.lt_ge_cases i (List.length l)) as [Hlt|Hge].
  - rewrite nth_error_app1 in Hi by exact Hlt. eauto.
  - rewrite nth_error_app2 in Hi by exact Hge.
    destruct (i - List.length l) as [|k] eqn:Hk.
    + simpl in Hi. injection Hi as <-. replace i with (List.length l) by lia. eauto.
    + simpl in Hi. destruct k; discriminate.
Qed.

Lemma settled_weaken (ne ne' : bool) (s : State) :
  (ne' = true -> ne = true) -> settled ne s -> settled ne' s.
Proof. intros Hb (Ha & Hn & He). repeat split; auto. Qed.

Lemma quiet_weaken (ne ne' : bool) (s : State) :
  (ne' = true -> ne = true) -> quiet ne s -> quiet ne' s.
Proof. intros Hb [Hs Hq]. split; eauto using settled_weaken. Qed.

Lemma closing_weaken (ne ne' : bool) (s : State) :
  (ne' = true -> ne = true) -> closing ne s -> closing ne' s.
Proof. intros Hb [Hs Hq]. split; eauto using settled_weaken. Qed.

Lemma quiet_closing (ne : bool) (s : State) : quiet ne s -> closing ne s.
Proof. intros [Hs Hq]. split; auto. Qed.

Lemma settled_logged (ne : bool) (d st : string) (s : State) :
  settled ne s -> settled true (logged d st s).
Proof.
  intros (Ha & Hn & _). split; [|split].
  - apply alive_logged; exact Ha.
  - unfold logged, report_of. simpl. apply numbered_snoc. exact Hn.
  - intros _. unfold logged, report_of. simpl.
    intros Hnil. apply app_eq_nil in Hnil. destruct Hnil; discriminate.
Qed.

Lemma quiet_logged (ne : bool) (d st : string) (s : State) :
  quiet ne s -> quiet true (logged d st s).
Proof. intros [Hs Hq]. split; [eapply settled_logged; eauto | exact Hq]. Qed.

Lemma quiet_moved (ne : bool) (landed : string) (s : State) :
  quiet ne s -> quiet ne (moved landed s).
Proof.
  intros [(Ha & Hn & He) Hq]. split; [split; [|split]|];
    auto using alive_moved, alive_asked, alive_rested, alive_keyed.
Qed.

Lemma quiet_asked (ne : bool) (s : State) : quiet ne s -> quiet ne (asked s).
Proof.
  intros [(Ha & Hn & He) Hq]. split; [split; [|split]|];
    auto using alive_moved, alive_asked, alive_rested, alive_keyed.
Qed.

Lemma closing_rested (ne : bool) (n : nat) (s : State) :
  closing ne s -> closing ne (rested n s).
Proof.
  intros [(Ha & Hn & He) Hq]. split; [split; [|split]|];
    auto using alive_moved, alive_asked, alive_rested, alive_keyed.
Qed.

Lemma quiet_keyed (ne : bool) (k : option string) (s : State) :
  quiet ne s -> quiet ne (keyed k s).
Proof.
  intros [(Ha & Hn & He) Hq]. split; [split; [|split]|];
    auto using alive_moved, alive_asked, alive_rested, alive_keyed.
Qed.

Lemma quiet_constructed (k : option string) (start : string) (s : State) :
  quiet false (constructed k start s).
Proof.
  split; [split; [|split]|].
  - apply alive_constructed.
  - apply numbered_nil.
  - discriminate.
  - reflexivity.
Qed.

Lemma closing_finish (ne : bool) (text : string) (s : State) :
  settled ne s -> closing true (logged text "FINISH" (summarized text s)).
Proof.
  intros (Ha & Hn & He). split.
  - apply settled_logged with (ne := ne). split; [|split]; auto.
  - right. unfold logged, report_of. simpl.
    eexists _, _. split; reflexivity.
Qed.

Lemma last_some_snoc {A} (l : list A) (x : A) :
  last (map Some (l ++ [x])) None = Some x.
Proof.
  induction l as [|y l IH]; [reflexivity|].
  simpl. simpl in IH. rewrite IH.
  destruct (map Some (l ++ [x])) eqn:E; [|reflexivity].
  destruct l; discriminate.
Qed.

Lemma last_none_nil {A} (l : list A) :
  last (map Some l) None = None -> l = [].
Proof.
  destruct l as [|x l] using rev_ind; [reflexivity|].
  rewrite last_some_snoc. discriminate.
Qed.

Lemma last_some_inv {A} (l : list A) (x : A) :
  last (map Some l) None = Some x -> exists l', l = l' ++ [x].
Proof.
  destruct l as [|y l] using rev_ind; [discriminate|].
  rewrite last_some_snoc. intros [= ->]. eauto.
Qed.

Lemma status_log_entry (i : nat) (d st u : string) :
  status_of (log_entry i d st u) = Some (PStr st).
Proof. reflexivity. Qed.

Section Invariant.

Variable env : Env.

Lemma report_action_quiet ne d st :
  hoare (quiet ne) (report_action d st) (fun _ => quiet true) (fun _ => False).
Proof.
  intros s Hs. rewrite report_action_alive by apply Hs.
  eapply quiet_logged; eauto.
Qed.

Lemma get_page_state_quiet (P : State -> Prop) :
  (forall s, P s -> alive s) ->
  hoare P (get_page_state env) (fun _ => P) (fun _ => False).
Proof.
  intros HP s Hs. rewrite get_page_state_alive by auto. exact Hs.
Qed.

Lemma generate_action_quiet ne ps :
  hoare (quiet ne) (generate_action env ps)
    (fun code s' => quiet ne s' /\ from_model env code) (fun _ => False).
Proof.
  intros s Hs. rewrite generate_action_alive by apply Hs.
  destruct (generate_content env (llm_calls (world s)) GEMINI_MODEL system_prompt
              (user_prompt (history (self s)) ps)) as [text|e] eqn:E.
  - split; [apply quiet_asked; exact Hs|]. right. eauto.
  - split; [|left; reflexivity].
    apply quiet_weaken with (ne := true); [auto|].
    eapply quiet_logged. apply quiet_asked. exact Hs.
Qed.

Lemma click_element_quiet ne by_type locator :
  hoare (quiet ne) (click_element env by_type locator)
    (fun _ => quiet ne) (quiet ne).
Proof.
  intros s Hs. rewrite click_element_alive by apply Hs.
  destruct (wait_click env (here s) by_type locator) as [landed|e].
  - apply quiet_weaken with (ne := true); [auto|].
    eapply quiet_logged. apply quiet_moved. exact Hs.
  - destruct (catches not_found e); [|exact Hs].
    apply quiet_weaken with (ne := true); [auto|].
    eapply quiet_logged. exact Hs.
Qed.

Lemma type_text_quiet ne by_type locator text :
  hoare (quiet ne) (type_text env by_type locator text)
    (fun _ => quiet ne) (quiet ne).
Proof.
  intros s Hs. rewrite type_text_alive by apply Hs.
  destruct (wait_type env (here s) by_type locator text) as [landed|e].
  - apply quiet_weaken with (ne := true); [auto|].
    eapply quiet_logged. apply quiet_moved. exact Hs.
  - destruct (catches not_found e); [|exact Hs].
    apply quiet_weaken with (ne := true); [auto|].
    eapply quiet_logged. exact Hs.
Qed.

Lemma navigate_to_quiet ne path :
  hoare (quiet ne) (navigate_to env path) (fun _ => quiet ne) (quiet ne).
Proof.
  intros s Hs. rewrite navigate_to_alive by apply Hs. cbv zeta.
  destruct (browse env (urljoin env (start_url (self s)) path)) as [landed|e].
  - apply quiet_weaken with (ne := true); [auto|].
    eapply quiet_logged. apply quiet_moved. exact Hs.
  - exact Hs.
Qed.

Lemma finish_testing_closing ne text :
  hoare (quiet ne) (finish_testing text) (fun _ => closing ne) (quiet ne).
Proof.
  intros s Hs. rewrite finish_testing_alive by apply Hs.
  apply closing_weaken with (ne := true); [auto|].
  eapply closing_finish. apply Hs.
Qed.

Lemma init_quiet ne start :
  hoare (quiet ne) (__init__ env start) (fun _ => quiet false) (quiet ne).
Proof.
  intros s Hs. rewrite init_eq. cbv zeta.
  destruct (genai_Client env (getenv env "GEMINI_API_KEY")); [exact Hs|].
  destruct (webdriver_Chrome env (List.length (sessions (world s)))).
  - apply quiet_keyed. exact Hs.
  - apply quiet_constructed.
Qed.

Lemma discard_hoare {A} (P : State -> Prop) (m : M A) (Q : State -> Prop) E :
  hoare P m (fun _ => Q) E -> hoare P (discard m) (fun _ => Q) E.
Proof.
  intros H. unfold discard. eapply hoare_bind; [exact H|].
  intros a. apply hoare_ret. auto.
Qed.

Lemma report_action_keeps ne d st :
  hoare (quiet ne) (report_action d st) (fun _ => quiet ne) (quiet ne).
Proof.
  eapply hoare_post; [apply report_action_quiet| |contradiction].
  intros ? s Hs. eapply quiet_weaken; [|exact Hs]. auto.
Qed.

Lemma get_page_state_keeps ne :
  hoare (quiet ne) (discard (get_page_state env)) (fun _ => quiet ne) (quiet ne).
Proof.
  apply discard_hoare.
  eapply hoare_post; [apply get_page_state_quiet|auto|contradiction].
  intros s Hs. apply Hs.
Qed.

Lemma generate_action_keeps ne ps :
  hoare (quiet ne) (discard (generate_action env ps)) (fun _ => quiet ne) (quiet ne).
Proof.
  apply discard_hoare.
  eapply hoare_post; [apply generate_action_quiet| |contradiction].
  intros ? s Hs. apply Hs.
Qed.

(** An action that keeps the state quiet leaves it closing, whatever the flag. *)
Lemma keeps_closing {A} ne (c : bool) (m : M A) :
  hoare (quiet ne) m (fun _ => quiet ne) (quiet ne) ->
  hoare (quiet ne) m (fun _ => closing (ne && c)) (quiet ne).
Proof.
  intros H. eapply hoare_weaken; [exact H|auto| |auto].
  intros ? s Hs. apply quiet_closing. eapply quiet_weaken; [|exact Hs].
  intros Hb. apply andb_prop in Hb. tauto.
Qed.

Lemma eval_unread_hoare (P : State -> Prop) (Q : unit -> State -> Prop)
    (E : State -> Prop) code :
  (forall s, P s -> E s) -> hoare P (eval_unread env code) Q E.
Proof.
  intros H. unfold eval_unread.
  destruct (head_name code) as [name|]; [|apply hoare_unmodelled].
  destruct (getattr name);
    first [apply hoare_unmodelled | apply hoare_raise; exact H].
Qed.

Lemma eval_action_closing ne code :
  hoare (quiet ne) (eval_action env code)
    (fun _ => closing (ne && negb (is_init_call code))) (quiet ne).
Proof.
  unfold eval_action, is_init_call.
  destruct (parse_action code) as [[name|name args]|];
    [| |apply eval_unread_hoare; auto].
  - destruct (getattr name);
      try apply hoare_unmodelled;
      try (apply hoare_raise; auto);
      apply keeps_closing, hoare_ret; auto.
  - destruct (getattr name) as [arity| | |];
      try apply hoare_unmodelled;
      try (apply hoare_raise; auto).
    destruct (List.length args =? arity); [|apply hoare_raise; auto].
    unfold call_method.
    destruct args as [|x [|y [|z [|? ?]]]]; try apply hoare_unmodelled.
    + destruct (String.eqb name "get_page_state"); [|apply hoare_unmodelled].
      apply keeps_closing, get_page_state_keeps.
    + destruct (String.eqb name "navigate_to");
        [apply keeps_closing, navigate_to_quiet|].
      destruct (String.eqb name "finish_testing").
      { eapply hoare_post; [apply finish_testing_closing| |auto].
        intros ? s Hs. eapply closing_weaken; [|exact Hs].
        intros Hb. apply andb_prop in Hb. tauto. }
      destruct (String.eqb name "generate_action");
        [apply keeps_closing, generate_action_keeps|].
      destruct (String.eqb name "__init__"); [|apply hoare_unmodelled].
      eapply hoare_post; [apply init_quiet| |auto].
      intros ? s Hs. apply quiet_closing.
      eapply quiet_weaken; [|exact Hs].
      rewrite andb_false_r. discriminate.
    + destruct (String.eqb name "click_element");
        [apply keeps_closing, click_element_quiet|].
      destruct (String.eqb name "report_action"); [|apply hoare_unmodelled].
      apply keeps_closing, report_action_keeps.
    + destruct (String.eqb name "type_text"); [|apply hoare_unmodelled].
      apply keeps_closing, type_text_quiet.
Qed.

Lemma hoare_pure {A} (phi : Prop) (P : State -> Prop) (m : M A)
    (Q : A -> State -> Prop) (E : State -> Prop) :
  (phi -> hoare P m Q E) -> hoare (fun s => P s /\ phi) m Q E.
Proof. intros H s [Hs Hphi]. apply H; assumption. Qed.

Lemma driver_get_quiet ne target :
  hoare (quiet ne) (driver_get env target) (fun _ => quiet ne) (quiet ne).
Proof.
  intros s Hs. rewrite driver_get_alive by apply Hs.
  destruct (browse env target); [apply quiet_moved|]; exact Hs.
Qed.

Lemma sleep_closing ne n :
  hoare (closing ne) (sleep n) (fun _ => closing ne) (fun _ => False).
Proof. intros s Hs. rewrite sleep_eq. apply closing_rested. exact Hs. Qed.

(** With a record whose status is not FINISH last, or none, no summary was set. *)
Lemma last_is_finish_closing ne :
  hoare (closing ne) last_is_finish
    (fun r s' => if r then closing ne s' else quiet ne s') (fun _ => False).
Proof.
  intros s Hs. unfold last_is_finish, bind, get_self.
  destruct Hs as [Hs Hsum]. pose proof Hs as (Ha & Hn & He).
  fold (report_of s).
  destruct (last (map Some (actions (report_of s))) None) as [log|] eqn:El.
  - destruct (last_some_inv _ El) as [l' Hl'].
    destruct (Hn (List.length l') log) as (d & st & u & ->).
    { rewrite Hl', nth_error_app2, Nat.sub_diag by lia. reflexivity. }
    fold (status_of (log_entry (List.length l') d st u)).
    rewrite status_log_entry. unfold ret.
    destruct (pyval_eqb (PStr st) (PStr "FINISH")) eqn:Ef.
    + split; assumption.
    + split; [assumption|].
      destruct Hsum as [Hsum|(l2 & e2 & Hl2 & Hst)]; [exact Hsum|].
      rewrite Hl' in Hl2. apply app_inj_tail in Hl2. destruct Hl2 as [_ <-].
      rewrite status_log_entry in Hst. injection Hst as ->.
      simpl in Ef. discriminate.
  - apply last_none_nil in El. simpl. split; [assumption|].
    destruct Hsum as [Hsum|(l2 & e2 & Hl2 & _)]; [exact Hsum|].
    rewrite El in Hl2. destruct l2; discriminate.
Qed.

(** [polite] holds when the model never answers with a call of the
    constructor; the flag [b] says whether that is known. *)
Variable b : bool.
Hypothesis polite :
  b = true -> forall code, from_model env code -> is_init_call code = false.

Lemma loop_body_closing :
  hoare (closing b) (loop_body env) (fun _ => closing b) (fun _ => True).
Proof.
  unfold loop_body.
  eapply hoare_bind;
    [eapply hoare_post; [apply last_is_finish_closing|intros ? ? H; exact H|auto]|].
  intros [|]; [apply hoare_ret; auto|].
  eapply hoare_bind;
    [eapply hoare_post; [apply (@get_page_state_quiet (quiet b))|
                         intros ? ? H; exact H|contradiction]|].
  { intros s Hs. apply Hs. }
  intros ps.
  eapply hoare_bind;
    [eapply hoare_post; [apply generate_action_quiet|intros ? ? H; exact H|contradiction]|].
  intros code. apply hoare_pure. intros Hcode.
  eapply hoare_try with (E1 := quiet b); [| |auto].
  - eapply hoare_bind; [apply eval_action_closing|]. intros ?.
    eapply hoare_bind with (Q := fun _ => closing b).
    + eapply hoare_weaken; [apply (@sleep_closing b 3)| |auto|contradiction].
      intros s Hs. eapply closing_weaken; [|exact Hs].
      intros Hb. rewrite (polite Hb Hcode), Hb. reflexivity.
    + intros ?. apply hoare_ret. auto.
  - intros e.
    eapply hoare_bind with (Q := fun _ => closing b).
    + eapply hoare_post; [apply report_action_quiet| |contradiction].
      intros ? s Hs. apply quiet_closing. eapply quiet_weaken; [|exact Hs]. auto.
    + intros ?. apply hoare_ret. auto.
Qed.

Lemma run_loop_closing n :
  hoare (closing b) (run_loop env n) (fun _ => closing b) (fun _ => True).
Proof.
  induction n as [|n IH]; simpl.
  - apply hoare_ret. auto.
  - eapply hoare_bind; [apply loop_body_closing|].
    intros [|].
    + eapply hoare_bind; [apply IH|]. intros k. apply hoare_ret. auto.
    + apply hoare_ret. auto.
Qed.

Lemma closing_sound (s : State) : closing b s -> sound_report b (report_of s).
Proof. intros [(Ha & Hn & He) Hsum]. repeat split; assumption. Qed.

Lemma loop_and_quit_sound :
  hoare (closing b) (loop_and_quit env)
    (fun r _ => sound_report b (snd r)) (fun _ => True).
Proof.
  unfold loop_and_quit.
  eapply hoare_bind; [apply hoare_get_self|].
  intros a.
  eapply hoare_bind; [apply run_loop_closing|]. intros begun.
  intros s Hs. unfold bind. rewrite driver_quit_alive by apply Hs.
  simpl. apply (closing_sound Hs).
Qed.

Lemma run_tests_sound :
  hoare (quiet false) (run_tests env) (fun r _ => sound_report b r) (fun _ => True).
Proof.
  unfold run_tests, run_tests_counting.
  eapply hoare_bind with (Q := fun r _ => sound_report b (snd r));
    [|intros r; apply hoare_ret; auto].
  eapply hoare_bind; [apply hoare_get_self|].
  intros a.
  eapply hoare_bind;
    [eapply hoare_post; [apply driver_get_quiet|intros ? ? H; exact H|auto]|].
  intros ?.
  eapply hoare_bind with (Q := fun _ => closing b).
  { eapply hoare_post; [apply report_action_quiet| |contradiction].
    intros ? s Hs. apply quiet_closing. eapply quiet_weaken; [|exact Hs]. auto. }
  intros ?. apply loop_and_quit_sound.
Qed.

End Invariant.

(** A new agent is quiet, has no record yet and a budget of 7 steps. *)
Lemma AITestingAgent_quiet (env : Env) (start : string) (w : World) (s : State) :
  AITestingAgent env start w = Ok tt s ->
  quiet false s /\ max_steps (self s) = 7 /\ start_url (self s) = start
  /\ report_of s = mkReport start [] ""
  /\ world s = mkWorld (sessions w ++ [mkSession true "data:,"])
                       (llm_calls w) (slept w) (stdout w).
Proof.
  unfold AITestingAgent. rewrite init_eq. cbv zeta.
  destruct (genai_Client env (getenv env "GEMINI_API_KEY")); [discriminate|].
  simpl. destruct (webdriver_Chrome env (List.length (sessions w))); [discriminate|].
  intros [= <-]. split; [apply quiet_constructed|]. repeat split.
Qed.

(* ================================================================== *)
(** * Element extraction: the label policy *)
(* ================================================================== *)

Lemma nonempty_or (a b : option string) :
  nonempty (py_or a b) =
    match nonempty a with Some x => Some x | None => nonempty b end.
Proof.
  unfold nonempty, py_or.
  destruct (truthy_opt a) eqn:Ea; [rewrite Ea|reflexivity].
  destruct a; [reflexivity|discriminate].
Qed.

Lemma first_truthy_cons (o : option string) (rest : list (option string)) :
  first_truthy (o :: rest) =
    match nonempty o with Some x => Some x | None => first_truthy rest end.
Proof.
  unfold nonempty. destruct o as [l|]; simpl; [|reflexivity].
  destruct (truthy l); reflexivity.
Qed.

Lemma tag_label_picked (t : Tag) : nonempty (tag_label t) = picked_label t.
Proof.
  unfold tag_label, picked_label, label_sources.
  rewrite !nonempty_or, !first_truthy_cons.
  destruct (nonempty (tag_get "aria-label" (tag_attrs t))); [reflexivity|].
  destruct (nonempty (Some (tag_text t))); [reflexivity|].
  destruct (nonempty (tag_get "placeholder" (tag_attrs t))); [reflexivity|].
  destruct (nonempty (tag_get "name" (tag_attrs t))); reflexivity.
Qed.

Lemma first_truthy_is_truthy (l : list (option string)) (x : string) :
  first_truthy l = Some x -> truthy x = true.
Proof.
  induction l as [|[y|] l IH]; simpl; try discriminate; auto.
  destruct (truthy y) eqn:E; auto. intros [= <-]. exact E.
Qed.

(** One iteration appends the line of a listed tag and skips the others. *)
Lemma collect_picked (acc : list string) (t : Tag) :
  collect acc t =
    match picked_label t with
    | Some l => if String.length l <? 50 then acc ++ [render t] else acc
    | None => acc
    end.
Proof.
  unfold collect, render. rewrite <- (tag_label_picked t). unfold nonempty.
  destruct (tag_label t) as [l|]; simpl; [|reflexivity].
  destruct (truthy l); reflexivity.
Qed.

Lemma fold_collect (tags : list Tag) (acc : list string) :
  (forall t, In t tags -> is_candidate t = true) ->
  fold_left collect tags acc = acc ++ map render (filter listed tags).
Proof.
  revert acc. induction tags as [|t tags IH]; intros acc Hc; simpl.
  - rewrite app_nil_r. reflexivity.
  - rewrite IH by (intros; apply Hc; right; assumption).
    rewrite collect_picked. unfold listed. rewrite (Hc t) by (left; reflexivity).
    simpl. destruct (picked_label t) as [l|]; [|reflexivity].
    destruct (String.length l <? 50); [|reflexivity].
    simpl. rewrite <- app_assoc. reflexivity.
Qed.

Lemma filter_filter_implied {A} (f g : A -> bool) (l : list A) :
  (forall x, f x = true -> g x = true) ->
  filter f (filter g l) = filter f l.
Proof.
  intros H. induction l as [|x l IH]; [reflexivity|]. simpl.
  destruct (g x) eqn:Eg; simpl.
  - rewrite IH. reflexivity.
  - destruct (f x) eqn:Ef; [|exact IH].
    rewrite (H x Ef) in Eg. discriminate.
Qed.

Lemma filter_listed_candidates (soup : list Tag) :
  filter listed (find_all ["a"; "button"; "input"] soup) = filter listed soup.
Proof.
  unfold find_all. apply filter_filter_implied.
  intros t Ht. unfold listed in Ht. apply andb_prop in Ht. apply Ht.
Qed.

Lemma interactable_listed (soup : list Tag) :
  interactable soup = map render (filter listed soup).
Proof.
  unfold interactable. rewrite fold_collect.
  - simpl. rewrite filter_listed_candidates. reflexivity.
  - intros t Ht. unfold find_all in Ht. apply filter_In in Ht. apply Ht.
Qed.

(* ------------------------------------------------------------------ *)
(** ** C6: element extraction *)

Lemma live_session_gone (s : State) :
  ~ alive s -> live_session s = Raise session_gone s.
Proof.
  intros H. unfold live_session. fold (session_at s).
  destruct (session_at s) as [[[|] u]|] eqn:E; try reflexivity.
  exfalso. apply H. exists u. exact E.
Qed.

Lemma alive_dec (s : State) : alive s \/ ~ alive s.
Proof.
  unfold alive. destruct (session_at s) as [[[|] u]|].
  - left. eauto.
  - right. intros [v Hv]. discriminate.
  - right. intros [v Hv]. discriminate.
Qed.

Lemma get_page_state_pure (env : Env) (s : State) :
  match get_page_state env s with
  | Ok observation s' => s' = s /\ observation = page_state env s
  | Raise e s' => s' = s /\ ~ alive s
  | Unmodelled => False
  end.
Proof.
  destruct (alive_dec s) as [H|H].
  - rewrite get_page_state_alive by exact H. split; reflexivity.
  - unfold get_page_state, driver_current_url, bind.
    rewrite (live_session_gone H). split; [reflexivity|exact H].
Qed.

(** C6 fails on the code.  The button shows a blank and has the name
    [submit]; the link holds white space only.  The code tests the text
    before it strips it, takes the blank as the label of each, and lists
    both with an empty text.  By the policy of the specification the
    button is listed under its name and the link, which has no resolvable
    label, is excluded. *)
Lemma C6_blank_text_is_listed :
  get_page_state blank_env fresh
  = Ok ("Current URL: data:," ++ LF
        ++ "Page Title: Example Domain" ++ LF
        ++ "Visible Interactable Elements (Top 10):" ++ LF
        ++ "<button> Text: '' ID: 'N/A'" ++ LF
        ++ "<a> Text: '' ID: 'N/A'")%string fresh
  /\ spec_elements blank_soup = ["<button> Text: 'submit' ID: 'N/A'"].
Proof. split; vm_compute; reflexivity. Qed.

(* ------------------------------------------------------------------ *)
(** ** C5: step numbers *)



Lemma polite_of_never (env : Env) (b : bool) :
  (b = true -> never_reconstructs env) ->
  b = true -> forall code, from_model env code -> is_init_call code = false.
Proof.
  intros H Hb code [->|(n & p & text & Hg & ->)].
  - reflexivity.
  - exact (H Hb n p text Hg).
Qed.

(** What a run of a new agent returns, if it returns. *)
Lemma run_sound (env : Env) (b : bool) (start : string) (w : World)
    (s s' : State) (r : Report) :
  (b = true -> never_reconstructs env) ->
  AITestingAgent env start w = Ok tt s ->
  run_tests env s = Ok r s' ->
  sound_report b r.
Proof.
  intros Hb Hinit Hrun.
  apply AITestingAgent_quiet in Hinit. destruct Hinit as [Hq _].
  pose proof (run_tests_sound (polite_of_never Hb) Hq) as H.
  rewrite Hrun in H. exact H.
Qed.



Lemma scenario_never_reconstructs : never_reconstructs scenario_env.
Proof.
  intros [|[|n]] p text; simpl; unfold scripted; simpl.
  - intros [= <-]. reflexivity.
  - intros [= <-]. reflexivity.
  - destruct n; discriminate.
Qed.


(* ================================================================== *)
(** * Bounds and frames *)
(* ================================================================== *)

Lemma within_refl (s : State) : within 0 0 false false s s.
Proof. unfold within. repeat split; auto; lia. Qed.

Lemma within_trans c1 t1 sm1 ur1 c2 t2 sm2 ur2 c t (sm ur : bool) s s1 s2 :
  within c1 t1 sm1 ur1 s s1 -> within c2 t2 sm2 ur2 s1 s2 ->
  c1 + c2 <= c -> t1 + t2 <= t ->
  (sm = false -> sm1 = false /\ sm2 = false) ->
  (ur = false -> ur1 = false /\ ur2 = false) ->
  within c t sm ur s s2.
Proof.
  intros (A1 & B1 & C1 & D1) (A2 & B2 & C2 & D2) Hc Ht Hsm Hur.
  unfold within. repeat split; try lia.
  - intros H. destruct (Hsm H). rewrite C2, C1; auto.
  - intros H. destruct (Hur H). rewrite D2, D1; auto.
Qed.

Lemma within_weaken c1 t1 sm1 ur1 c t (sm ur : bool) s s' :
  within c1 t1 sm1 ur1 s s' ->
  c1 <= c -> t1 <= t -> (sm = false -> sm1 = false) -> (ur = false -> ur1 = false) ->
  within c t sm ur s s'.
Proof.
  intros (A1 & B1 & C1 & D1) Hc Ht Hsm Hur.
  unfold within. repeat split; auto; lia.
Qed.

Lemma effect_ret {A} (a : A) (V : A -> Prop) c t sm ur :
  V a -> effect (ret a) V c t sm ur.
Proof.
  intros H s. simpl. split; [exact H|].
  eapply within_weaken; [apply within_refl| | | |]; auto; lia.
Qed.

Lemma effect_ret0 {A} (a : A) (V : A -> Prop) :
  V a -> effect (ret a) V 0 0 false false.
Proof. apply effect_ret. Qed.

Lemma effect_raise {A} (e : exn) (V : A -> Prop) c t sm ur :
  effect (raise e) V c t sm ur.
Proof.
  intros s. simpl. eapply within_weaken; [apply within_refl| | | |]; auto; lia.
Qed.

Lemma effect_unmodelled {A} (V : A -> Prop) c t sm ur :
  effect unmodelled V c t sm ur.
Proof. intros s. exact I. Qed.

Lemma effect_bind {A B} (m : M A) (k : A -> M B) (V : A -> Prop) (W : B -> Prop)
    c1 t1 sm1 ur1 c2 t2 sm2 ur2 c t (sm ur : bool) :
  effect m V c1 t1 sm1 ur1 ->
  (forall a, V a -> effect (k a) W c2 t2 sm2 ur2) ->
  c1 + c2 <= c -> t1 + t2 <= t ->
  (sm = false -> sm1 = false /\ sm2 = false) ->
  (ur = false -> ur1 = false /\ ur2 = false) ->
  effect (bind m k) W c t sm ur.
Proof.
  intros Hm Hk Hc Ht Hsm Hur s. unfold bind. specialize (Hm s).
  destruct (m s) as [a s1|e s1|]; [| |exact I].
  - destruct Hm as [Va Hw]. specialize (Hk a Va s1).
    destruct (k a s1) as [b s2|e s2|]; [| |exact I].
    + destruct Hk as [Wb Hw2]. split; [exact Wb|].
      eapply within_trans; eauto.
    + eapply within_trans; eauto.
  - eapply within_weaken; [exact Hm| | | |]; try lia.
    + intros H. apply Hsm, H.
    + intros H. apply Hur, H.
Qed.

Lemma effect_try {A} (m : M A) classes (h : exn -> M A) (V : A -> Prop)
    c1 t1 sm1 ur1 c2 t2 sm2 ur2 c t (sm ur : bool) :
  effect m V c1 t1 sm1 ur1 ->
  (forall e, effect (h e) V c2 t2 sm2 ur2) ->
  c1 + c2 <= c -> t1 + t2 <= t ->
  (sm = false -> sm1 = false /\ sm2 = false) ->
  (ur = false -> ur1 = false /\ ur2 = false) ->
  effect (try_except m classes h) V c t sm ur.
Proof.
  intros Hm Hh Hc Ht Hsm Hur s. unfold try_except. specialize (Hm s).
  destruct (m s) as [a s1|e s1|]; [| |exact I].
  - destruct Hm as [Va Hw]. split; [exact Va|].
    eapply within_weaken; [exact Hw| | | |]; try lia.
    + intros H. apply Hsm, H.
    + intros H. apply Hur, H.
  - destruct (catches classes e).
    + specialize (Hh e s1).
      destruct (h e s1) as [b s2|e2 s2|]; [| |exact I].
      * destruct Hh as [Vb Hw2]. split; [exact Vb|].
        eapply within_trans; eauto.
      * eapply within_trans; eauto.
    + eapply within_weaken; [exact Hm| | | |]; try lia.
      * intros H. apply Hsm, H.
      * intros H. apply Hur, H.
Qed.

Lemma effect_weaken {A} (m : M A) (V V' : A -> Prop) c1 t1 sm1 ur1 c t (sm ur : bool) :
  effect m V c1 t1 sm1 ur1 ->
  (forall a, V a -> V' a) ->
  c1 <= c -> t1 <= t -> (sm = false -> sm1 = false) -> (ur = false -> ur1 = false) ->
  effect m V' c t sm ur.
Proof.
  intros Hm HV Hc Ht Hsm Hur s. specialize (Hm s).
  destruct (m s) as [a s1|e s1|]; [| |exact I].
  - destruct Hm as [Va Hw]. split; [auto|]. eapply within_weaken; eauto.
  - eapply within_weaken; eauto.
Qed.

(** The side conditions of the rules above; an unknown bound becomes the
    sum, an unknown flag the disjunction. *)
Ltac bounds :=
  first
    [ apply Nat.le_refl
    | exact (@orb_false_elim _ _)
    | simpl; lia
    | intros; simpl in *; split; first [reflexivity | assumption | discriminate]
    | intros; simpl in *; first [reflexivity | assumption | discriminate]
    | idtac ].

(** [m ;; k]: the effect of [m] by [lemma], then [rest] for [k]. *)
Tactic Notation "after" uconstr(lemma) "then" tactic3(rest) :=
  eapply effect_bind;
  [ apply lemma | intros ? ?; rest | bounds | bounds | bounds | bounds ].

Tactic Notation "after" uconstr(lemma) "as" ident(x) ident(H) "then" tactic3(rest) :=
  eapply effect_bind;
  [ apply lemma | intros x H; rest | bounds | bounds | bounds | bounds ].

(** [try: m except: h]: [body] for [m], [handler] for [h]. *)
Tactic Notation "trying" tactic3(body) "except" tactic3(handler) :=
  eapply effect_try;
  [ body | intros ?; handler | bounds | bounds | bounds | bounds ].

Lemma live_session_effect : effect live_session anything 0 0 false false.
Proof.
  intros s. unfold live_session.
  destruct (nth_error (sessions (world s)) (driver (self s))) as [[[|] u]|];
    try split; try exact I; apply within_refl.
Qed.

Lemma set_session_effect (b : Session) : effect (set_session b) anything 0 0 false false.
Proof. intros s. split; [exact I|]. unfold within. simpl. repeat split; auto; lia. Qed.

Lemma get_self_effect : effect get_self anything 0 0 false false.
Proof. intros s. split; [exact I|apply within_refl]. Qed.

Lemma sleep_effect (n : nat) : effect (sleep n) anything 0 n false false.
Proof. intros s. split; [exact I|]. unfold within. simpl. repeat split; auto; lia. Qed.

Lemma report_action_effect (d st : string) :
  effect (report_action d st) anything 0 0 false false.
Proof.
  intros s. destruct (alive_dec s) as [H|H].
  - rewrite report_action_alive by exact H. split; [exact I|].
    unfold within. simpl. repeat split; auto; lia.
  - unfold report_action, bind, get_self, driver_current_url. unfold bind.
    rewrite (live_session_gone H). apply within_refl.
Qed.

Section Effects.

Variable env : Env.

Lemma driver_get_effect (target : string) :
  effect (driver_get env target) anything 0 0 false false.
Proof.
  unfold driver_get.
  after live_session_effect then
    (destruct (browse env target); [apply set_session_effect|apply effect_raise]).
Qed.

Lemma driver_wait_click_effect (by_type locator : string) :
  effect (driver_wait_click env by_type locator) anything 0 0 false false.
Proof.
  unfold driver_wait_click.
  after live_session_effect then
    (destruct (wait_click env _ by_type locator);
     [apply set_session_effect|apply effect_raise]).
Qed.

Lemma driver_wait_type_effect (by_type locator text : string) :
  effect (driver_wait_type env by_type locator text) anything 0 0 false false.
Proof.
  unfold driver_wait_type.
  after live_session_effect then
    (destruct (wait_type env _ by_type locator text);
     [apply set_session_effect|apply effect_raise]).
Qed.

Lemma get_page_state_effect :
  effect (get_page_state env) anything 0 0 false false.
Proof.
  intros s. pose proof (get_page_state_pure env s) as H.
  destruct (get_page_state env s) as [a s'|e s'|]; [| |exact I].
  - destruct H as [-> _]. split; [exact I|apply within_refl].
  - destruct H as [-> _]. apply within_refl.
Qed.

Lemma call_model_effect (prompt : string) :
  effect (call_model env prompt) (from_model env) 1 0 false false.
Proof.
  intros s. rewrite call_model_eq.
  destruct (generate_content env (llm_calls (world s)) GEMINI_MODEL system_prompt prompt)
    as [text|e] eqn:E.
  - split; [right; eauto|]. unfold within. simpl. repeat split; auto; lia.
  - unfold within. simpl. repeat split; auto; lia.
Qed.

Lemma generate_action_effect (ps : string) :
  effect (generate_action env ps) (from_model env) 1 0 false false.
Proof.
  unfold generate_action.
  after get_self_effect then
    (trying (apply call_model_effect)
     except (after report_action_effect then
               (apply effect_ret0; left; reflexivity))).
Qed.

Lemma click_element_effect (by_type locator : string) :
  effect (click_element env by_type locator) anything 0 0 false false.
Proof.
  unfold click_element.
  trying (after driver_wait_click_effect then (apply report_action_effect))
  except (apply report_action_effect).
Qed.

Lemma type_text_effect (by_type locator text : string) :
  effect (type_text env by_type locator text) anything 0 0 false false.
Proof.
  unfold type_text.
  trying (after driver_wait_type_effect then (apply report_action_effect))
  except (apply report_action_effect).
Qed.

Lemma navigate_to_effect (path : string) :
  effect (navigate_to env path) anything 0 0 false false.
Proof.
  unfold navigate_to.
  after get_self_effect then
    (after driver_get_effect then (apply report_action_effect)).
Qed.

Lemma set_summary_effect (text : string) :
  effect (modify_self (fun a =>
            let r := test_report a in
            set_test_report (mkReport (url r) (actions r) text) a))
    anything 0 0 true false.
Proof.
  intros s. split; [exact I|]. unfold within. simpl.
  repeat split; auto; try lia; discriminate.
Qed.

Lemma finish_testing_effect (text : string) :
  effect (finish_testing text) anything 0 0 true false.
Proof.
  unfold finish_testing.
  after set_summary_effect then (apply report_action_effect).
Qed.

Lemma init_effect (start : string) :
  effect (__init__ env start) anything 0 0 true true.
Proof.
  intros s. rewrite init_eq. cbv zeta.
  destruct (genai_Client env (getenv env "GEMINI_API_KEY")).
  - eapply within_weaken; [apply within_refl| | | |]; bounds.
  - destruct (webdriver_Chrome env (List.length (sessions (world s))));
      [|split; [exact I|]]; unfold within; simpl; repeat split; auto; try lia;
      try discriminate.
Qed.

Lemma discard_effect {A} (m : M A) (V : A -> Prop) c t sm ur :
  effect m V c t sm ur -> effect (discard m) anything c t sm ur.
Proof.
  intros H. unfold discard.
  eapply effect_bind with (c2 := 0) (t2 := 0) (sm2 := false) (ur2 := false);
    [exact H|intros ? ?; apply effect_ret; exact I| | | |]; bounds.
Qed.

(** An action that touches nothing stays within any bounds. *)
Lemma effect_minor {A} (m : M A) (V : A -> Prop) c t sm ur :
  effect m V 0 0 false false -> effect m anything c t sm ur.
Proof.
  intros H. eapply effect_weaken; [exact H| | | | |]; try lia; auto.
  intros; exact I.
Qed.

Lemma eval_unread_effect (code : string) (V : unit -> Prop) c t sm ur :
  effect (eval_unread env code) V c t sm ur.
Proof.
  unfold eval_unread.
  destruct (head_name code) as [name|]; [|apply effect_unmodelled].
  destruct (getattr name);
    first [apply effect_unmodelled | apply effect_raise].
Qed.

Lemma eval_action_effect (code : string) :
  effect (eval_action env code) anything 1 0 (sets_summary code) (is_init_call code).
Proof.
  unfold eval_action, is_init_call, sets_summary.
  destruct (parse_action code) as [[name|name args]|];
    [| |apply eval_unread_effect].
  - destruct (getattr name);
      first [apply effect_unmodelled | apply effect_raise | apply effect_ret; exact I].
  - destruct (getattr name) as [arity| | |];
      try first [apply effect_unmodelled | apply effect_raise].
    destruct (List.length args =? arity); [|apply effect_raise].
    unfold call_method.
    destruct args as [|x [|y [|z [|? ?]]]]; try apply effect_unmodelled.
    + destruct (String.eqb name "get_page_state"); [|apply effect_unmodelled].
      eapply effect_minor, discard_effect, get_page_state_effect.
    + destruct (String.eqb name "navigate_to");
        [eapply effect_minor, navigate_to_effect|].
      destruct (String.eqb name "finish_testing").
      { eapply effect_weaken; [apply finish_testing_effect| | | | |]; bounds. }
      destruct (String.eqb name "generate_action").
      { eapply effect_weaken;
          [eapply discard_effect, generate_action_effect| | | | |]; bounds. }
      destruct (String.eqb name "__init__"); [|apply effect_unmodelled].
      eapply effect_weaken; [apply init_effect| | | | |]; bounds.
    + destruct (String.eqb name "click_element");
        [eapply effect_minor, click_element_effect|].
      destruct (String.eqb name "report_action"); [|apply effect_unmodelled].
      eapply effect_minor, report_action_effect.
    + destruct (String.eqb name "type_text"); [|apply effect_unmodelled].
      eapply effect_minor, type_text_effect.
Qed.

Lemma last_is_finish_effect : effect last_is_finish anything 0 0 false false.
Proof.
  intros s. unfold last_is_finish, bind, get_self.
  destruct (last (map Some (actions (test_report (self s)))) None) as [log|];
    [destruct (dict_get "status" log)|];
    simpl; try split; try exact I; apply within_refl.
Qed.

(** The flag [b] says whether the model is known never to call the
    constructor; only then is the url known to stay. *)
Variable b : bool.
Hypothesis polite :
  b = true -> forall code, from_model env code -> is_init_call code = false.

Lemma guarded_eval_effect (code : string) :
  from_model env code ->
  effect
    (try_except (eval_action env code ;; sleep 3 ;; ret Continue) None
       (fun e =>
          report_action ("CRITICAL ERROR executing AI code '" ++ code
                           ++ "': " ++ exn_text e) "FATAL_ERROR" ;;
          ret Break))
    anything 1 3 true (negb b).
Proof.
  intros Hcode.
  assert (Hur : negb b = false -> is_init_call code = false).
  { intros Hb. apply polite; [|exact Hcode]. destruct b; [reflexivity|discriminate]. }
  eapply effect_try with (c1 := 1) (t1 := 3) (sm1 := sets_summary code)
                         (ur1 := is_init_call code)
                         (c2 := 0) (t2 := 0) (sm2 := false) (ur2 := false).
  - after eval_action_effect then
      (after sleep_effect then (apply effect_ret0; exact I)).
  - intros e.
    after report_action_effect then (apply effect_ret0; exact I).
  - lia.
  - lia.
  - intros H. discriminate H.
  - intros H. split; [apply Hur; exact H|reflexivity].
Qed.

Lemma loop_body_effect :
  effect (loop_body env) anything 2 3 true (negb b).
Proof.
  unfold loop_body.
  after last_is_finish_effect as finished Hf then
    (destruct finished;
     [ apply effect_ret; exact I
     | after get_page_state_effect as ps Hps then
         (after generate_action_effect as code Hcode then
            (apply guarded_eval_effect; exact Hcode)) ]).
Qed.

Lemma run_loop_effect (n : nat) :
  effect (run_loop env n) (fun begun => begun <= n) (2 * n) (3 * n) true (negb b).
Proof.
  induction n as [|n IH].
  - simpl. apply effect_ret. lia.
  - cbn [run_loop].
    eapply effect_bind with (c1 := 2) (t1 := 3) (c2 := 2 * n) (t2 := 3 * n)
                            (sm1 := true) (sm2 := true)
                            (ur1 := negb b) (ur2 := negb b);
      [apply loop_body_effect| |lia|lia|intros H; discriminate H|auto].
    intros [|] _.
    + after IH as k Hk then (apply effect_ret0; cbv beta in Hk; lia).
    + apply effect_ret. lia.
Qed.

End Effects.

Lemma run_tests_counting_inv (env : Env) (s s' : State) (r : Report) :
  run_tests env s = Ok r s' ->
  exists begun, run_tests_counting env s = Ok (begun, r) s'.
Proof.
  unfold run_tests, bind.
  destruct (run_tests_counting env s) as [[k r0] s0| |]; try discriminate.
  simpl. intros [= <- <-]. eauto.
Qed.

Lemma driver_quit_effect : effect driver_quit anything 0 0 false false.
Proof.
  intros s. unfold driver_quit.
  destruct (nth_error (sessions (world s)) (driver (self s))).
  - apply set_session_effect.
  - split; [exact I|apply within_refl].
Qed.

(** The loop and the quit from any state: the iterations begun, the model
    calls and the seconds slept are bounded by the budget, and the report
    returned is the agent's. *)
Lemma loop_and_quit_bounds (env : Env) (b : bool) (s : State) :
  (b = true -> never_reconstructs env) ->
  let n := max_steps (self s) in
  match loop_and_quit env s with
  | Ok (begun, r) s' =>
      begun <= n /\ r = report_of s' /\ within (2 * n) (3 * n) true (negb b) s s'
  | Raise _ s' => within (2 * n) (3 * n) true (negb b) s s'
  | Unmodelled => True
  end.
Proof.
  intros Hb n. unfold loop_and_quit, bind, get_self. fold n.
  pose proof (run_loop_effect (polite_of_never Hb) n s) as H.
  destruct (run_loop env n s) as [k s1|e s1|]; [| exact H | exact I].
  destruct H as [Hk Hw].
  pose proof (driver_quit_effect s1) as Hq.
  destruct (driver_quit s1) as [[] s2|e s2|]; [| |exact I].
  - destruct Hq as [_ Hq]. simpl. split; [exact Hk|]. split; [reflexivity|].
    eapply within_trans; [exact Hw|exact Hq| | | |]; bounds.
  - eapply within_trans; [exact Hw|exact Hq| | | |]; bounds.
Qed.

(** A run of a new agent. *)
Lemma run_tests_counting_bounds (env : Env) (b : bool) (start : string)
    (w : World) (s : State) :
  (b = true -> never_reconstructs env) ->
  AITestingAgent env start w = Ok tt s ->
  match run_tests_counting env s with
  | Ok (begun, r) s' =>
      begun <= 7 /\ r = report_of s'
      /\ llm_calls (world s') <= llm_calls w + 14
      /\ slept (world s') <= slept w + 21
      /\ (b = true -> url r = start)
  | Raise _ s' =>
      llm_calls (world s') <= llm_calls w + 14
      /\ slept (world s') <= slept w + 21
  | Unmodelled => True
  end.
Proof.
  intros Hb Hinit. apply AITestingAgent_quiet in Hinit.
  destruct Hinit as (Hq & Hmax & Hstart & Hrep & Hw).
  assert (Ha : alive s) by apply Hq.
  unfold run_tests_counting, bind, get_self.
  rewrite (driver_get_alive env _ Ha).
  destruct (browse env (start_url (self s))) as [landed|e].
  2:{ rewrite Hw. simpl. lia. }
  rewrite (report_action_alive _ _ (alive_moved landed Ha)).
  set (s1 := logged _ _ _).
  assert (H1 : max_steps (self s1) = 7) by exact Hmax.
  assert (H2 : llm_calls (world s1) = llm_calls w) by (unfold s1; simpl; rewrite Hw; reflexivity).
  assert (H3 : slept (world s1) = slept w) by (unfold s1; simpl; rewrite Hw; reflexivity).
  assert (H4 : url (report_of s1) = start)
    by (unfold s1, report_of in *; simpl; rewrite Hrep; reflexivity).
  pose proof (loop_and_quit_bounds s1 Hb) as H. rewrite H1 in H. simpl in H.
  destruct (loop_and_quit env s1) as [[k r] s2|e s2|]; [| |exact I].
  - destruct H as (Hk & Hr & Hc & Ht & _ & Hu).
    repeat split; try lia; try assumption.
    intros ->. rewrite Hr, Hu by reflexivity. exact H4.
  - destruct H as (Hc & Ht & _). lia.
Qed.

(* ================================================================== *)
(** * Every modelled run has an outcome *)
(* ================================================================== *)

Lemma total_ret {A} (a : A) : total (ret a).
Proof. intros s. discriminate. Qed.

Lemma total_raise {A} (e : exn) : total (@raise A e).
Proof. intros s. discriminate. Qed.

Lemma total_bind {A B} (m : M A) (k : A -> M B) :
  total m -> (forall a, total (k a)) -> total (bind m k).
Proof.
  intros Hm Hk s. unfold bind. specialize (Hm s).
  destruct (m s) as [a s'|e s'|]; [apply Hk|discriminate|contradiction].
Qed.

(** The continuation needs an outcome only on the values [m] can return. *)
Lemma total_bind_on {A B} (m : M A) (k : A -> M B) (V : A -> Prop) c t sm ur :
  total m -> effect m V c t sm ur -> (forall a, V a -> total (k a)) ->
  total (bind m k).
Proof.
  intros Hm He Hk s. unfold bind. specialize (Hm s). specialize (He s).
  destruct (m s) as [a s'|e s'|]; [|discriminate|contradiction].
  apply Hk. apply He.
Qed.

Lemma total_try {A} (m : M A) classes (h : exn -> M A) :
  total m -> (forall e, total (h e)) -> total (try_except m classes h).
Proof.
  intros Hm Hh s. unfold try_except. specialize (Hm s).
  destruct (m s) as [a s'|e s'|]; [discriminate| |contradiction].
  destruct (catches classes e); [apply Hh|discriminate].
Qed.

Lemma total_live_session : total live_session.
Proof.
  intros s. unfold live_session.
  destruct (nth_error (sessions (world s)) (driver (self s))) as [[[|] u]|];
    discriminate.
Qed.

Lemma total_report_action (d st : string) : total (report_action d st).
Proof.
  intros s. destruct (alive_dec s) as [H|H].
  - rewrite report_action_alive by exact H. discriminate.
  - unfold report_action, bind, get_self, driver_current_url. unfold bind.
    rewrite (live_session_gone H). discriminate.
Qed.

Section Totality.

Variable env : Env.

Lemma total_driver_get (target : string) : total (driver_get env target).
Proof.
  unfold driver_get. apply total_bind; [apply total_live_session|].
  intros b s. destruct (browse env target); discriminate.
Qed.

Lemma total_driver_wait_click (by_type locator : string) :
  total (driver_wait_click env by_type locator).
Proof.
  unfold driver_wait_click. apply total_bind; [apply total_live_session|].
  intros b s. destruct (wait_click env _ by_type locator); discriminate.
Qed.

Lemma total_driver_wait_type (by_type locator text : string) :
  total (driver_wait_type env by_type locator text).
Proof.
  unfold driver_wait_type. apply total_bind; [apply total_live_session|].
  intros b s. destruct (wait_type env _ by_type locator text); discriminate.
Qed.

Lemma total_get_page_state : total (get_page_state env).
Proof.
  intros s H. pose proof (get_page_state_pure env s) as Hp.
  rewrite H in Hp. exact Hp.
Qed.

Lemma total_generate_action (ps : string) : total (generate_action env ps).
Proof.
  unfold generate_action. apply total_bind; [intros s; discriminate|].
  intros a. apply total_try.
  - intros s. rewrite call_model_eq. destruct (generate_content _ _ _ _ _); discriminate.
  - intros e. apply total_bind; [apply total_report_action|].
    intros ?. apply total_ret.
Qed.

Lemma total_click_element (by_type locator : string) :
  total (click_element env by_type locator).
Proof.
  unfold click_element. apply total_try.
  - apply total_bind; [apply total_driver_wait_click|].
    intros ?. apply total_report_action.
  - intros e. apply total_report_action.
Qed.

Lemma total_type_text (by_type locator text : string) :
  total (type_text env by_type locator text).
Proof.
  unfold type_text. apply total_try.
  - apply total_bind; [apply total_driver_wait_type|].
    intros ?. apply total_report_action.
  - intros e. apply total_report_action.
Qed.

Lemma total_navigate_to (path : string) : total (navigate_to env path).
Proof.
  unfold navigate_to. apply total_bind; [intros s; discriminate|].
  intros a. apply total_bind; [apply total_driver_get|].
  intros ?. apply total_report_action.
Qed.

Lemma total_finish_testing (text : string) : total (finish_testing text).
Proof.
  unfold finish_testing. apply total_bind; [intros s; discriminate|].
  intros ?. apply total_report_action.
Qed.

Lemma total_init (start : string) : total (__init__ env start).
Proof.
  intros s. rewrite init_eq. cbv zeta.
  destruct (genai_Client env _); [discriminate|].
  destruct (webdriver_Chrome env _); discriminate.
Qed.

Lemma total_discard {A} (m : M A) : total m -> total (discard m).
Proof.
  intros H. unfold discard. apply total_bind; [exact H|].
  intros a. apply total_ret.
Qed.

(** A method called with as many arguments as it takes, [run_tests] apart. *)
Lemma total_call_method (name : string) (args : list string) (arity : nat) :
  lookup_method name = Some arity ->
  List.length args = arity ->
  String.eqb name "run_tests" = false ->
  total (call_method env name args).
Proof.
  unfold lookup_method, methods. cbn [find fst snd].
  intros Hl Ha Hr. unfold call_method.
  repeat match type of Hl with
    | (match (if String.eqb name ?x then _ else _) with _ => _ end) = _ =>
        let E := fresh "E" in
        destruct (String.eqb name x) eqn:E;
        [ apply String.eqb_eq in E; subst name; injection Hl as <-;
          destruct args as [|x1 [|x2 [|x3 [|x4 l]]]]; try discriminate Ha;
          cbn [String.eqb Ascii.eqb Bool.eqb];
          try discriminate Hr;
          auto using total_discard, total_get_page_state, total_generate_action,
            total_click_element, total_type_text, total_navigate_to,
            total_finish_testing, total_report_action, total_init
        | ]
    end.
  discriminate Hl.
Qed.

Lemma total_eval_action (code : string) :
  modelled code = true -> total (eval_action env code).
Proof.
  unfold modelled, eval_action.
  destruct (parse_action code) as [e|].
  2:{ unfold eval_unread. destruct (head_name code) as [name|]; [|discriminate].
      destruct (getattr name); discriminate. }
  destruct e as [name|name args]; cbn [expr_name].
  - destruct (getattr name); try discriminate; intros _ s; discriminate.
  - unfold getattr.
    destruct (lookup_method name) as [arity|] eqn:Hl.
    + destruct (List.length args =? arity) eqn:Hn; [|intros _ s; discriminate].
      cbn [negb orb]. intros Hr. apply negb_true_iff in Hr.
      apply Nat.eqb_eq in Hn.
      eapply total_call_method; eauto.
    + destruct (mem name data_attributes); [intros _ s; discriminate|].
      destruct (starts_with_underscore name || mem name keywords);
        [discriminate|intros _ s; discriminate].
Qed.

Hypothesis answers : answers_modelled env.

Lemma from_model_modelled (code : string) :
  from_model env code -> modelled code = true.
Proof.
  intros [->|(n & p & text & Hg & ->)]; [reflexivity|exact (answers _ _ Hg)].
Qed.

Lemma total_last_is_finish : total last_is_finish.
Proof.
  intros s. unfold last_is_finish, bind, get_self.
  destruct (last (map Some (actions (test_report (self s)))) None) as [log|];
    [destruct (dict_get "status" log)|]; discriminate.
Qed.

Lemma total_loop_body : total (loop_body env).
Proof.
  unfold loop_body. apply total_bind; [apply total_last_is_finish|].
  intros [|]; [apply total_ret|].
  apply total_bind; [apply total_get_page_state|]. intros ps.
  eapply total_bind_on;
    [apply total_generate_action|apply generate_action_effect|].
  intros code Hcode. apply total_try.
  - apply total_bind; [apply total_eval_action, from_model_modelled, Hcode|].
    intros ?. apply total_bind; [intros s; discriminate|].
    intros ?. apply total_ret.
  - intros e. apply total_bind; [apply total_report_action|].
    intros ?. apply total_ret.
Qed.

Lemma total_run_loop (n : nat) : total (run_loop env n).
Proof.
  induction n as [|n IH]; cbn [run_loop]; [apply total_ret|].
  apply total_bind; [apply total_loop_body|].
  intros [|]; [|apply total_ret].
  apply total_bind; [exact IH|]. intros k. apply total_ret.
Qed.

Lemma total_driver_quit : total driver_quit.
Proof.
  intros s. unfold driver_quit.
  destruct (nth_error (sessions (world s)) (driver (self s))); discriminate.
Qed.

Lemma total_run_tests_counting : total (run_tests_counting env).
Proof.
  unfold run_tests_counting. apply total_bind; [intros s; discriminate|].
  intros a. apply total_bind; [apply total_driver_get|].
  intros ?. apply total_bind; [apply total_report_action|].
  intros ?. unfold loop_and_quit. apply total_bind; [intros s; discriminate|].
  intros a'. apply total_bind; [apply total_run_loop|].
  intros k. apply total_bind; [apply total_driver_quit|].
  intros ?. apply total_bind; [intros s; discriminate|].
  intros ?. apply total_ret.
Qed.

End Totality.

(* ================================================================== *)
(** * The claims about a run *)
(* ================================================================== *)

(* ------------------------------------------------------------------ *)
(** ** The report and the URL after each step *)

Lemma report_of_logged (d st : string) (s : State) :
  report_of (logged d st s)
  = mkReport (url (report_of s))
      (actions (report_of s)
         ++ [log_entry (List.length (actions (report_of s))) d st (here s)])
      (summary (report_of s)).
Proof. reflexivity. Qed.

Lemma report_of_summarized (t : string) (s : State) :
  report_of (summarized t s)
  = mkReport (url (report_of s)) (actions (report_of s)) t.
Proof. reflexivity. Qed.

Lemma report_of_rested (n : nat) (s : State) : report_of (rested n s) = report_of s.
Proof. reflexivity. Qed.

Lemma report_of_asked (s : State) : report_of (asked s) = report_of s.
Proof. reflexivity. Qed.

Lemma report_of_moved (l : string) (s : State) : report_of (moved l s) = report_of s.
Proof. reflexivity. Qed.

Lemma here_logged (d st : string) (s : State) : here (logged d st s) = here s.
Proof. reflexivity. Qed.

Lemma here_summarized (t : string) (s : State) : here (summarized t s) = here s.
Proof. reflexivity. Qed.

Lemma here_rested (n : nat) (s : State) : here (rested n s) = here s.
Proof. reflexivity. Qed.

Lemma here_asked (s : State) : here (asked s) = here s.
Proof. reflexivity. Qed.

Lemma here_moved (l : string) (s : State) : alive s -> here (moved l s) = l.
Proof.
  intros [u Hu]. unfold here, session_at, moved. simpl.
  unfold session_at in Hu. rewrite (nth_error_set_nth _ _ _ Hu). reflexivity.
Qed.

Lemma session_at_closed (s : State) :
  alive s -> session_at (closed s) = Some (mkSession false (here s)).
Proof.
  intros [u Hu]. unfold closed, session_at. simpl.
  unfold session_at in Hu. rewrite (nth_error_set_nth _ _ _ Hu). reflexivity.
Qed.

(* ------------------------------------------------------------------ *)
(** ** One iteration, step by step *)

Lemma last_is_finish_snoc (s : State) (l : list dict) (i : nat) (d st u : string) :
  actions (report_of s) = l ++ [log_entry i d st u] ->
  last_is_finish s = Ok (String.eqb st "FINISH") s.
Proof.
  intros H. unfold last_is_finish, bind, get_self. fold (report_of s).
  rewrite H, last_some_snoc. reflexivity.
Qed.

Lemma last_is_finish_logged (d st : string) (s : State) :
  last_is_finish (logged d st s) = Ok (String.eqb st "FINISH") (logged d st s).
Proof. eapply last_is_finish_snoc. reflexivity. Qed.

Lemma last_is_finish_rested (n : nat) (d st : string) (s : State) :
  last_is_finish (rested n (logged d st s))
  = Ok (String.eqb st "FINISH") (rested n (logged d st s)).
Proof. eapply last_is_finish_snoc. reflexivity. Qed.

(** The iteration from a state whose loop is not finished: the model is
    asked about the page, its text is evaluated. *)
Lemma loop_body_unfinished (env : Env) (s : State) :
  alive s ->
  last_is_finish s = Ok false s ->
  loop_body env s =
    (action_code <- generate_action env (page_state env s) ;;
     try_except (eval_action env action_code ;; sleep 3 ;; ret Continue) None
       (fun e =>
          report_action ("CRITICAL ERROR executing AI code '" ++ action_code
                           ++ "': " ++ exn_text e) "FATAL_ERROR" ;;
          ret Break)) s.
Proof.
  intros Ha Hf. unfold loop_body. unfold bind at 1. rewrite Hf.
  unfold bind at 1. rewrite (get_page_state_alive env Ha). reflexivity.
Qed.

Lemma eval_action_missing (env : Env) (code : string) (e : action_expr) (s : State) :
  parse_action code = Some e ->
  getattr (expr_name e) = IsMissing ->
  eval_action env code s =
    Raise (Exn "AttributeError" (interp_message env (NoAttribute (expr_name e)))) s.
Proof.
  intros Hp Hg. unfold eval_action. rewrite Hp.
  destruct e as [n|n args]; simpl in Hg; rewrite Hg; reflexivity.
Qed.

(** A name that is no attribute of the agent is outside the grammar. *)
Lemma missing_outside_grammar (name : string) :
  getattr name = IsMissing -> mem name grammar = false.
Proof.
  unfold getattr, lookup_method, methods, grammar, mem. simpl.
  destruct (String.eqb name "__init__"); [discriminate|].
  destruct (String.eqb name "get_page_state"); [discriminate|].
  destruct (String.eqb name "generate_action"); [discriminate|].
  destruct (String.eqb name "click_element"); [discriminate|].
  destruct (String.eqb name "type_text"); [discriminate|].
  destruct (String.eqb name "navigate_to"); [discriminate|].
  destruct (String.eqb name "finish_testing"); [discriminate|].
  reflexivity.
Qed.

(* ------------------------------------------------------------------ *)
(** ** C1: a name outside the grammar *)

(** C1 as stated fails: [report_action] is outside the grammar, yet the
    text is evaluated as code: it appends a PASS record of its own, no
    FATAL_ERROR record is written, and the run goes on to the next answer. *)
Lemma C1_counterexample :
  exists s s',
    AITestingAgent forging_env "https://example.test" empty_world = Ok tt s
    /\ parse_action "report_action('Checkout verified', 'PASS')"
       = Some (Call "report_action" ["Checkout verified"; "PASS"])
    /\ mem "report_action" grammar = false
    /\ run_tests forging_env s
       = Ok (mkReport "https://example.test"
               [log_entry 0 "Initial navigation to: https://example.test" "PASS"
                  "https://example.test";
                log_entry 1 "Checkout verified" "PASS" "https://example.test";
                log_entry 2 "done" "FINISH" "https://example.test"]
               "done") s'.
Proof.
  eexists _, _. split; [vm_compute; reflexivity|].
  split; [vm_compute; reflexivity|].
  split; [reflexivity|]. vm_compute. reflexivity.
Qed.

Lemma eval_action_unknown (env : Env) (code name : string) (s : State) :
  named_by code = Some name ->
  getattr name = IsMissing ->
  eval_action env code s =
    Raise (Exn "AttributeError" (interp_message env (NoAttribute name))) s.
Proof.
  unfold named_by, eval_action. destruct (parse_action code) as [e|].
  - intros [= <-] Hg. destruct e as [n|n args]; simpl in Hg; rewrite Hg; reflexivity.
  - intros Hh Hg. unfold eval_unread. rewrite Hh, Hg. reflexivity.
Qed.

(** C1 (amended). When the model's text is a bare name, or a call of a name
    with plain string literals, integer literals or dotted names as
    arguments, and the name has no leading underscore, is no keyword and
    is no attribute of the agent (so it is outside the grammar),
    evaluating it raises AttributeError before any argument is evaluated:
    exactly one record, with status FATAL_ERROR, is appended, the loop
    stops in that iteration, and [driver.quit()] then closes the
    session. *)
Theorem C1_unknown_name_is_fatal (env : Env) (s : State) (n : nat)
    (text name : string) :
  alive s ->
  last_is_finish s = Ok false s ->
  generate_content env (llm_calls (world s)) GEMINI_MODEL system_prompt
    (user_prompt (history (self s)) (page_state env s)) = inl text ->
  named_by (strip text) = Some name ->
  getattr name = IsMissing ->
  let message :=
    ("CRITICAL ERROR executing AI code '" ++ strip text ++ "': "
       ++ interp_message env (NoAttribute name))%string in
  let s1 := logged message "FATAL_ERROR" (asked s) in
  mem name grammar = false
  /\ run_loop env (S n) s = Ok 1 s1
  /\ actions (report_of s1)
     = actions (report_of s)
         ++ [log_entry (List.length (actions (report_of s))) message
               "FATAL_ERROR" (here s)]
  /\ driver_quit s1 = Ok tt (closed s1)
  /\ session_at (closed s1) = Some (mkSession false (here s))
  /\ (max_steps (self s) = S n ->
      loop_and_quit env s = Ok (1, report_of s1) (closed s1)).
Proof.
  intros Ha Hf Hg Hp Hm message s1.
  assert (Ha1 : alive s1) by (apply alive_logged, alive_asked, Ha).
  assert (Hloop : run_loop env (S n) s = Ok 1 s1).
  { cbn [run_loop]. unfold bind at 1.
    rewrite (loop_body_unfinished env Ha Hf). unfold bind at 1.
    rewrite (generate_action_alive env _ Ha), Hg.
    unfold try_except, bind at 1.
    rewrite (eval_action_unknown env _ _ Hp Hm). simpl catches. cbv iota.
    unfold bind at 1.
    rewrite (report_action_alive _ _ (alive_asked Ha)). reflexivity. }
  split; [apply missing_outside_grammar; exact Hm|].
  split; [exact Hloop|]. split; [reflexivity|].
  split; [apply driver_quit_alive; exact Ha1|].
  split.
  - apply (session_at_closed Ha1).
  - intros Hmax. unfold loop_and_quit, bind, get_self. rewrite Hmax, Hloop.
    rewrite (driver_quit_alive Ha1). reflexivity.
Qed.

Lemma C1_witness :
  run_loop stray_env 7 stray_start
  = Ok 1 (logged
            ("CRITICAL ERROR executing AI code '" ++ strip "frobnicate (1, x)" ++ "': "
               ++ interp_message stray_env (NoAttribute "frobnicate"))
            "FATAL_ERROR" (asked stray_start)).
Proof.
  refine (proj1 (proj2 (@C1_unknown_name_is_fatal stray_env stray_start 6
                          "frobnicate (1, x)" "frobnicate" _ _ _ _ _))).
  - exists "data:,". reflexivity.
  - reflexivity.
  - reflexivity.
  - vm_compute. reflexivity.
  - reflexivity.
Defined.

(* ------------------------------------------------------------------ *)
(** ** C3: the model call fails *)

Lemma eval_canned_finish (env : Env) (s : State) :
  alive s ->
  eval_action env canned_finish s
  = Ok tt (logged "AI communication failed." "FINISH"
             (summarized "AI communication failed." s)).
Proof.
  intros Ha. unfold eval_action.
  change (parse_action canned_finish)
    with (Some (Call "finish_testing" ["AI communication failed."])).
  cbv iota beta.
  change (getattr "finish_testing") with (IsMethod 1).
  cbv iota beta. simpl Nat.eqb. cbv iota. unfold call_method.
  simpl String.eqb. cbv iota.
  apply finish_testing_alive. exact Ha.
Qed.

(** C3 as stated fails: the model's text calls [generate_action] itself,
    the remote call made there raises, and the canned finish call goes back
    to [eval], which drops it.  The run returns with the FATAL_ERROR record
    last, no FINISH record and no summary. *)
Lemma C3_counterexample :
  exists r s',
    AITestingAgent nested_env "https://example.test" empty_world = Ok tt fresh
    /\ run_tests nested_env fresh = Ok r s'
    /\ actions r
       = [log_entry 0 "Initial navigation to: https://example.test" "PASS"
            "https://example.test";
          log_entry 1 "Error calling Gemini: 503 UNAVAILABLE" "FATAL_ERROR"
            "https://example.test"]
    /\ summary r = ""
    /\ ~ ends_in_finish (actions r).
Proof.
  eexists _, _. split; [vm_compute; reflexivity|].
  split; [vm_compute; reflexivity|].
  split; [reflexivity|]. split; [reflexivity|].
  intros (l & e & Hl & He).
  apply (f_equal (fun x => last (map Some x) None)) in Hl.
  rewrite last_some_snoc in Hl. vm_compute in Hl.
  injection Hl as <-. discriminate He.
Qed.

(** C3 (amended). While the session is open, a remote call that raises
    makes [generate_action] raise nothing, whoever calls it and whatever
    page state it is given: it appends one FATAL_ERROR record and returns
    the canned finish call.  When the call is the one the loop makes, the
    loop evaluates that text, appends the FINISH record, sets the summary
    and stops, whatever budget is left. *)
Theorem C3_model_failure_finishes (env : Env) (s : State) (n : nat) (e : exn)
    (ps : string) :
  alive s ->
  generate_content env (llm_calls (world s)) GEMINI_MODEL system_prompt
    (user_prompt (history (self s)) ps) = inr e ->
  let s1 := logged ("Error calling Gemini: " ++ exn_text e) "FATAL_ERROR" (asked s) in
  let s2 := rested 3 (logged "AI communication failed." "FINISH"
                        (summarized "AI communication failed." s1)) in
  generate_action env ps s
    = Ok "finish_testing('AI communication failed.')" s1
  /\ actions (report_of s1)
     = actions (report_of s)
         ++ [log_entry (List.length (actions (report_of s)))
               ("Error calling Gemini: " ++ exn_text e) "FATAL_ERROR" (here s)]
  /\ (last_is_finish s = Ok false s ->
      ps = page_state env s ->
      run_loop env (S n) s = Ok (match n with 0 => 1 | S _ => 2 end) s2
      /\ ends_in_finish (actions (report_of s2))
      /\ summary (report_of s2) = "AI communication failed.").
Proof.
  intros Ha Hg s1 s2.
  assert (Hgen : generate_action env ps s = Ok canned_finish s1).
  { rewrite (generate_action_alive env _ Ha), Hg. reflexivity. }
  assert (Ha1 : alive s1) by (apply alive_logged, alive_asked, Ha).
  split; [exact Hgen|]. split; [reflexivity|].
  intros Hf Hps. subst ps. split.
  - cbn [run_loop]. unfold bind at 1.
    rewrite (loop_body_unfinished env Ha Hf). unfold bind at 1. rewrite Hgen.
    unfold try_except, bind at 1. unfold bind at 1.
    rewrite (eval_canned_finish env Ha1). unfold bind at 1.
    rewrite sleep_eq. fold s2. unfold ret at 1. cbv iota beta.
    destruct n as [|n]; [reflexivity|].
    cbn [run_loop]. unfold bind at 1 2. unfold loop_body, bind at 1.
    unfold s2. rewrite last_is_finish_rested.
    change (String.eqb "FINISH" "FINISH") with true. reflexivity.
  - split; [|reflexivity].
    eexists _, _. split; reflexivity.
Qed.

Lemma C3_witness :
  run_loop offline_env 7 offline_start
  = Ok 2 (rested 3
            (logged "AI communication failed." "FINISH"
               (summarized "AI communication failed."
                  (logged ("Error calling Gemini: "
                             ++ exn_text (Exn "ServerError" "503 UNAVAILABLE"))
                     "FATAL_ERROR" (asked offline_start))))).
Proof.
  refine (proj1 (proj2 (proj2 (@C3_model_failure_finishes offline_env offline_start 6
                   (Exn "ServerError" "503 UNAVAILABLE")
                   (page_state offline_env offline_start) _ _)) _ _)).
  - exists "data:,". reflexivity.
  - reflexivity.
  - reflexivity.
  - reflexivity.
Defined.

(* ------------------------------------------------------------------ *)
(** ** C7: navigate, then finish *)

Lemma eval_action_navigate (env : Env) (code path : string) :
  parse_action code = Some (Call "navigate_to" [path]) ->
  eval_action env code = navigate_to env path.
Proof. intros H. unfold eval_action. rewrite H. reflexivity. Qed.

Lemma eval_action_finish (env : Env) (code text : string) :
  parse_action code = Some (Call "finish_testing" [text]) ->
  eval_action env code = finish_testing text.
Proof. intros H. unfold eval_action. rewrite H. reflexivity. Qed.

(** An iteration in which the model asks for a navigation that succeeds. *)
Lemma loop_body_navigate (env : Env) (s : State) (text path landed : string) :
  alive s ->
  last_is_finish s = Ok false s ->
  generate_content env (llm_calls (world s)) GEMINI_MODEL system_prompt
    (user_prompt (history (self s)) (page_state env s)) = inl text ->
  parse_action (strip text) = Some (Call "navigate_to" [path]) ->
  browse env (urljoin env (start_url (self s)) path) = inl landed ->
  loop_body env s
  = Ok Continue
      (rested 3 (logged ("Navigated to: " ++ urljoin env (start_url (self s)) path)
                   "PASS" (moved landed (asked s)))).
Proof.
  intros Ha Hf Hg Hp Hb.
  rewrite (loop_body_unfinished env Ha Hf). unfold bind at 1.
  rewrite (generate_action_alive env _ Ha), Hg.
  unfold try_except, bind at 1.
  rewrite (eval_action_navigate env _ Hp).
  rewrite (navigate_to_alive env _ (alive_asked Ha)). cbv zeta.
  change (start_url (self (asked s))) with (start_url (self s)).
  rewrite Hb. reflexivity.
Qed.

(** An iteration in which the model asks to finish. *)
Lemma loop_body_finish (env : Env) (s : State) (text verdict : string) :
  alive s ->
  last_is_finish s = Ok false s ->
  generate_content env (llm_calls (world s)) GEMINI_MODEL system_prompt
    (user_prompt (history (self s)) (page_state env s)) = inl text ->
  parse_action (strip text) = Some (Call "finish_testing" [verdict]) ->
  loop_body env s
  = Ok Continue
      (rested 3 (logged verdict "FINISH" (summarized verdict (asked s)))).
Proof.
  intros Ha Hf Hg Hp.
  rewrite (loop_body_unfinished env Ha Hf). unfold bind at 1.
  rewrite (generate_action_alive env _ Ha), Hg.
  unfold try_except, bind at 1.
  rewrite (eval_action_finish env _ Hp).
  rewrite (finish_testing_alive _ (alive_asked Ha)). reflexivity.
Qed.

(** An iteration that finds the FINISH record last only breaks. *)
Lemma loop_body_finished (env : Env) (s : State) :
  last_is_finish s = Ok true s -> loop_body env s = Ok Break s.
Proof. intros H. unfold loop_body, bind. rewrite H. reflexivity. Qed.

(** C7. Started at https://example.test on a site whose pages load, with
    a model that answers navigate_to('contact') and then
    finish_testing('No issues found'), the run returns exactly three
    records: the initial navigation (PASS), the navigation (PASS) with
    url_after https://example.test/contact, resolved against the start
    URL, and the finish (FINISH); the summary is the model's, two model
    calls are made, and the loop breaks in its third iteration
    (step = 2) of the seven. *)
Theorem C7_navigate_then_finish (env : Env) (w : World) (s : State)
    (first second : string) :
  AITestingAgent env example_test w = Ok tt s ->
  browse env example_test = inl example_test ->
  urljoin env example_test "contact" = "https://example.test/contact" ->
  browse env "https://example.test/contact" = inl "https://example.test/contact" ->
  (forall p, generate_content env (llm_calls w) GEMINI_MODEL system_prompt p
             = inl first) ->
  strip first = "navigate_to('contact')" ->
  (forall p, generate_content env (S (llm_calls w)) GEMINI_MODEL system_prompt p
             = inl second) ->
  strip second = "finish_testing('No issues found')" ->
  exists s',
    run_tests_counting env s = Ok (3, scenario_expected) s'
    /\ run_tests env s = Ok scenario_expected s'
    /\ llm_calls (world s') = llm_calls w + 2
    /\ session_at s' = Some (mkSession false "https://example.test/contact").
Proof.
  intros Hinit Hb1 Hj Hb2 Hm1 Hs1 Hm2 Hs2.
  apply AITestingAgent_quiet in Hinit.
  destruct Hinit as (Hq & Hmax & Hstart & Hrep & Hw).
  assert (Ha : alive s) by apply Hq.
  set (s1 := logged "Initial navigation to: https://example.test" "PASS"
               (moved example_test s)).
  set (s2 := rested 3 (logged "Navigated to: https://example.test/contact" "PASS"
                         (moved "https://example.test/contact" (asked s1)))).
  set (s3 := rested 3 (logged "No issues found" "FINISH"
                         (summarized "No issues found" (asked s2)))).
  assert (Ha1 : alive s1) by (apply alive_logged, alive_moved, Ha).
  assert (Ha2 : alive s2)
    by (apply alive_rested, alive_logged, alive_moved, alive_asked, Ha1).
  assert (Ha3 : alive s3)
    by (apply alive_rested, alive_logged, alive_summarized, alive_asked, Ha2).
  assert (Hc : llm_calls (world s) = llm_calls w) by (rewrite Hw; reflexivity).
  assert (L1 : loop_body env s1 = Ok Continue s2).
  { rewrite (@loop_body_navigate env s1 first "contact" "https://example.test/contact").
    - change (start_url (self s1)) with (start_url (self s)).
      rewrite Hstart, Hj. reflexivity.
    - exact Ha1.
    - apply last_is_finish_logged.
    - change (llm_calls (world s1)) with (llm_calls (world s)). rewrite Hc. apply Hm1.
    - rewrite Hs1. reflexivity.
    - change (start_url (self s1)) with (start_url (self s)).
      rewrite Hstart, Hj. exact Hb2. }
  assert (L2 : loop_body env s2 = Ok Continue s3).
  { apply loop_body_finish with (text := second).
    - exact Ha2.
    - apply last_is_finish_rested.
    - change (llm_calls (world s2)) with (S (llm_calls (world s))).
      rewrite Hc. apply Hm2.
    - rewrite Hs2. reflexivity. }
  assert (L3 : loop_body env s3 = Ok Break s3).
  { apply loop_body_finished. apply last_is_finish_rested. }
  assert (Hrun : run_tests_counting env s = Ok (3, report_of s3) (closed s3)).
  { unfold run_tests_counting, bind at 1, get_self.
    unfold bind at 1. rewrite (driver_get_alive env _ Ha), Hstart, Hb1.
    unfold bind at 1. rewrite (report_action_alive _ _ (alive_moved example_test Ha)).
    change (logged _ "PASS" (moved example_test s)) with s1.
    unfold loop_and_quit, bind at 1, get_self.
    change (max_steps (self s1)) with (max_steps (self s)). rewrite Hmax.
    unfold bind at 1. cbn [run_loop].
    unfold bind at 1. rewrite L1. unfold bind at 1 2. rewrite L2.
    unfold bind at 1 2. rewrite L3. unfold ret at 1 2 3. cbv iota beta.
    unfold bind at 1. rewrite (driver_quit_alive Ha3). reflexivity. }
  assert (Hexp : report_of s3 = scenario_expected).
  { unfold s3, s2, s1.
    rewrite !report_of_rested, !report_of_logged, !report_of_summarized,
      !report_of_asked, !report_of_rested, !report_of_logged, !report_of_moved,
      !report_of_asked, !report_of_logged, !report_of_moved, Hrep.
    rewrite !here_summarized, !here_asked, !here_rested, !here_logged.
    rewrite !here_moved by auto using alive_asked, alive_logged, alive_moved.
    reflexivity. }
  exists (closed s3). rewrite <- Hexp. split; [exact Hrun|].
  split; [unfold run_tests, bind; rewrite Hrun; reflexivity|].
  split.
  - change (llm_calls (world (closed s3))) with (S (S (llm_calls (world s)))).
    rewrite Hc. lia.
  - rewrite (session_at_closed Ha3). unfold s3.
    rewrite here_rested, here_logged, here_summarized, here_asked. unfold s2.
    rewrite here_rested, here_logged, here_moved by apply alive_asked, Ha1.
    reflexivity.
Qed.

Lemma C7_witness :
  exists s', run_tests scenario_env scenario_start = Ok scenario_expected s'.
Proof.
  destruct (@C7_navigate_then_finish scenario_env empty_world scenario_start
              "navigate_to('contact')" "finish_testing('No issues found')")
    as (s' & _ & H & _); try reflexivity.
  exists s'. exact H.
Defined.

(* ------------------------------------------------------------------ *)
(** ** C4: the loop is bounded *)

Lemma last_is_finish_state (s s' : State) (r : bool) :
  last_is_finish s = Ok r s' -> s' = s.
Proof.
  unfold last_is_finish, bind, get_self.
  destruct (last (map Some (actions (test_report (self s)))) None) as [log|];
    [destruct (dict_get "status" log)|]; unfold ret, raise; intros H;
    inversion H; reflexivity.
Qed.

(** The loop goes on to another iteration only when the last record was
    not FINISH and the evaluation of the model's text returned. *)
Lemma loop_body_continue (env : Env) (s s1 : State) :
  loop_body env s = Ok Continue s1 ->
  last_is_finish s = Ok false s
  /\ exists code s0,
       generate_action env (page_state env s) s = Ok code s0
       /\ (eval_action env code ;; sleep 3 ;; ret Continue) s0 = Ok Continue s1.
Proof.
  unfold loop_body. unfold bind at 1.
  destruct (last_is_finish s) as [[|] s'| |] eqn:Hf; try discriminate.
  pose proof (last_is_finish_state _ Hf) as ->.
  split; [reflexivity|].
  revert H. unfold bind at 1.
  pose proof (get_page_state_pure env s) as Hp.
  destruct (get_page_state env s) as [ps s'| |]; try discriminate.
  destruct Hp as [-> ->]. unfold bind at 1.
  destruct (generate_action env (page_state env s) s) as [code s0| |];
    try discriminate.
  unfold try_except.
  destruct ((eval_action env code ;; sleep 3 ;; ret Continue) s0)
    as [f s2|e s2|] eqn:Hev; try discriminate.
  - intros [= -> ->]. eauto.
  - simpl catches. cbv iota. unfold bind.
    destruct (report_action _ _ s2); discriminate.
Qed.

(** When the evaluation of the model's text raises, whatever it raises,
    the iteration records it as a FATAL_ERROR and leaves the loop. *)
Lemma loop_body_raises (env : Env) (s s2 : State) (text : string) (e : exn) :
  alive s ->
  last_is_finish s = Ok false s ->
  generate_content env (llm_calls (world s)) GEMINI_MODEL system_prompt
    (user_prompt (history (self s)) (page_state env s)) = inl text ->
  eval_action env (strip text) (asked s) = Raise e s2 ->
  alive s2 ->
  loop_body env s
  = Ok Break
      (logged ("CRITICAL ERROR executing AI code '" ++ strip text ++ "': "
                 ++ exn_text e) "FATAL_ERROR" s2).
Proof.
  intros Ha Hf Hg He Ha2.
  rewrite (loop_body_unfinished env Ha Hf). unfold bind at 1.
  rewrite (generate_action_alive env _ Ha), Hg.
  unfold try_except, bind at 1. rewrite He.
  simpl catches. cbv iota. unfold bind at 1.
  rewrite (report_action_alive _ _ Ha2). reflexivity.
Qed.

(** When it returns, the iteration sleeps and goes on. *)
Lemma loop_body_returns (env : Env) (s s2 : State) (text : string) :
  alive s ->
  last_is_finish s = Ok false s ->
  generate_content env (llm_calls (world s)) GEMINI_MODEL system_prompt
    (user_prompt (history (self s)) (page_state env s)) = inl text ->
  eval_action env (strip text) (asked s) = Ok tt s2 ->
  loop_body env s = Ok Continue (rested 3 s2).
Proof.
  intros Ha Hf Hg He.
  rewrite (loop_body_unfinished env Ha Hf). unfold bind at 1.
  rewrite (generate_action_alive env _ Ha), Hg.
  unfold try_except, bind at 1. rewrite He. reflexivity.
Qed.

(** Followed to depth 0, the re-entrant run is [run_tests]. *)
Lemma eval_action_in_unmodelled (env : Env) (code : string) (s : State) :
  eval_action_in env unmodelled code s = eval_action env code s.
Proof.
  unfold eval_action_in.
  destruct (parse_action code) as [[n|n [|a args]]|] eqn:Hp; try reflexivity.
  destruct (String.eqb n "run_tests") eqn:E; [|reflexivity].
  apply String.eqb_eq in E. subst n. unfold eval_action. rewrite Hp. reflexivity.
Qed.

Lemma loop_body_in_unmodelled (env : Env) (s : State) :
  loop_body_in env unmodelled s = loop_body env s.
Proof.
  unfold loop_body_in, loop_body, bind, try_except.
  destruct (last_is_finish s) as [[|] s1| |]; try reflexivity.
  destruct (get_page_state env s1) as [ps s2| |]; try reflexivity.
  destruct (generate_action env ps s2) as [code s3| |]; try reflexivity.
  rewrite eval_action_in_unmodelled. reflexivity.
Qed.

Lemma run_loop_in_unmodelled (env : Env) (n : nat) (s : State) :
  run_loop_in env unmodelled n s = run_loop env n s.
Proof.
  revert s. induction n as [|n IH]; intros s; [reflexivity|].
  cbn [run_loop_in run_loop]. unfold bind.
  rewrite loop_body_in_unmodelled.
  destruct (loop_body env s) as [[|] s1| |]; try reflexivity.
  rewrite IH. reflexivity.
Qed.

Lemma run_tests_deep_0 (env : Env) (s : State) :
  run_tests_deep env 0 s = run_tests env s.
Proof.
  cbn [run_tests_deep].
  unfold run_tests_in, run_tests, run_tests_counting, loop_and_quit, bind, get_self.
  destruct (driver_get env (start_url (self s)) s) as [[] s1| |]; try reflexivity.
  destruct (report_action _ "PASS" s1) as [[] s2| |]; try reflexivity.
  rewrite run_loop_in_unmodelled.
  destruct (run_loop env (max_steps (self s2)) s2) as [k s3| |]; try reflexivity.
  destruct (driver_quit s3) as [[] s4| |]; reflexivity.
Qed.

(** C4 as stated fails, in two ways.  A fatal condition does not stop the
    loop at once: in the first iteration the model's text calls
    [generate_action], the remote call made there raises and a FATAL_ERROR
    record is written; the loop goes on all the same, begins all seven
    iterations and asks the model eight times.  And the budget does not
    bound the run: the model's text calls [run_tests], the loop runs again
    inside the loop, and in that one run the loop body sleeps eight times,
    24 seconds, one iteration more than the budget. *)
Lemma C4_counterexample :
  (exists s1 r s',
     loop_body nested_env
       (logged "Initial navigation to: https://example.test" "PASS"
          (moved "https://example.test" fresh))
     = Ok Continue s1
     /\ ends_in_status "FATAL_ERROR" (actions (report_of s1))
     /\ run_tests_counting nested_env fresh = Ok (7, r) s'
     /\ llm_calls (world s') = 8)
  /\ (exists r s',
        run_tests_deep reentrant_env 1 fresh = Ok r s'
        /\ slept (world fresh) = 0
        /\ slept (world s') = 8 * 3
        /\ llm_calls (world s') = 8).
Proof.
  split.
  - eexists _, _, _. split; [vm_compute; reflexivity|].
    split.
    + eexists [_], _. split; reflexivity.
    + split; [vm_compute; reflexivity|reflexivity].
  - eexists _, _. split; [vm_compute; reflexivity|].
    split; [reflexivity|]. split; reflexivity.
Qed.

Lemma scenario_answers_modelled : answers_modelled scenario_env.
Proof.
  intros [|[|n]] p text; simpl; unfold scripted; simpl.
  - intros [= <-]. reflexivity.
  - intros [= <-]. reflexivity.
  - destruct n; discriminate.
Qed.

(** C4 (amended). When every answer of the model is a text read here (a
    reference to one of the methods and attributes the class defines, or a
    call of one with string literals or members of [By] as arguments, other
    than a call of [run_tests]; or a reference to a name the agent does not
    have, or a call of one with literals and names as arguments), a run of a
    new agent has an outcome, and the loop of [run_tests] is a [for] over a
    range fixed when it starts, 7 for every agent: at most 7 iterations
    begin, with at most two model calls and one 3-second pause each. The
    loop stops when the budget is exhausted, at the iteration that finds a
    FINISH record last, or in the iteration whose evaluation raises; it goes
    on only after an evaluation that returned. *)
Theorem C4_loop_is_bounded (env : Env) (start : string) (w : World) (s : State) :
  answers_modelled env ->
  AITestingAgent env start w = Ok tt s ->
  max_steps (self s) = 7
  /\ match run_tests_counting env s with
     | Ok (begun, _) s' =>
         begun <= 7
         /\ llm_calls (world s') <= llm_calls w + 14
         /\ slept (world s') <= slept w + 21
     | Raise _ s' =>
         llm_calls (world s') <= llm_calls w + 14
         /\ slept (world s') <= slept w + 21
     | Unmodelled => False
     end
  /\ (forall n s0,
        match run_loop env n s0 with
        | Ok begun s' =>
            begun <= n
            /\ llm_calls (world s') <= llm_calls (world s0) + 2 * n
            /\ slept (world s') <= slept (world s0) + 3 * n
        | Raise _ s' =>
            llm_calls (world s') <= llm_calls (world s0) + 2 * n
            /\ slept (world s') <= slept (world s0) + 3 * n
        | Unmodelled => False
        end)
  /\ (forall s0, run_loop env 0 s0 = Ok 0 s0)
  /\ (forall n s0, last_is_finish s0 = Ok true s0 -> run_loop env (S n) s0 = Ok 1 s0)
  /\ (forall n s0 s1, loop_body env s0 = Ok Break s1 -> run_loop env (S n) s0 = Ok 1 s1)
  /\ (forall s0 s2 text e,
        alive s0 ->
        last_is_finish s0 = Ok false s0 ->
        generate_content env (llm_calls (world s0)) GEMINI_MODEL system_prompt
          (user_prompt (history (self s0)) (page_state env s0)) = inl text ->
        eval_action env (strip text) (asked s0) = Raise e s2 ->
        alive s2 ->
        loop_body env s0
        = Ok Break
            (logged ("CRITICAL ERROR executing AI code '" ++ strip text ++ "': "
                       ++ exn_text e) "FATAL_ERROR" s2))
  /\ (forall s0 s1, loop_body env s0 = Ok Continue s1 ->
        last_is_finish s0 = Ok false s0
        /\ exists code s2,
             generate_action env (page_state env s0) s0 = Ok code s2
             /\ (eval_action env code ;; sleep 3 ;; ret Continue) s2 = Ok Continue s1).
Proof.
  intros Hans Hinit.
  assert (Hfalse : false = true -> never_reconstructs env) by discriminate.
  split; [apply (AITestingAgent_quiet _ _ _ Hinit)|]. split.
  { pose proof (run_tests_counting_bounds _ _ Hfalse Hinit) as H.
    pose proof (total_run_tests_counting Hans s) as Ht.
    destruct (run_tests_counting env s) as [[k r] s'|e s'|]; [| |contradiction].
    - destruct H as (H1 & _ & H2 & H3 & _). auto.
    - exact H. }
  split.
  { intros n s0.
    pose proof (run_loop_effect (polite_of_never Hfalse) n s0) as H.
    pose proof (total_run_loop Hans n s0) as Ht.
    destruct (run_loop env n s0) as [k s'|e s'|]; [| |contradiction].
    - destruct H as (Hk & Hc & Ht' & _). auto.
    - destruct H as (Hc & Ht' & _). auto. }
  split; [reflexivity|]. split.
  { intros n s0 Hf. cbn [run_loop]. unfold bind.
    rewrite (loop_body_finished env Hf). reflexivity. }
  split.
  { intros n s0 s1 Hb. cbn [run_loop]. unfold bind. rewrite Hb. reflexivity. }
  split; [intros s0 s2 text e; apply loop_body_raises|].
  intros s0 s1. apply loop_body_continue.
Qed.

Lemma C4_witness :
  max_steps (self scenario_start) = 7
  /\ match run_tests_counting scenario_env scenario_start with
     | Ok (begun, _) s' =>
         begun <= 7
         /\ llm_calls (world s') <= llm_calls empty_world + 14
         /\ slept (world s') <= slept empty_world + 21
     | Raise _ s' =>
         llm_calls (world s') <= llm_calls empty_world + 14
         /\ slept (world s') <= slept empty_world + 21
     | Unmodelled => False
     end.
Proof.
  assert (H : AITestingAgent scenario_env "https://example.test" empty_world
              = Ok tt scenario_start) by (vm_compute; reflexivity).
  pose proof (@C4_loop_is_bounded scenario_env "https://example.test" empty_world
                scenario_start scenario_answers_modelled H) as (H1 & H2 & _).
  split; [exact H1|exact H2].
Defined.

(* ------------------------------------------------------------------ *)
(** ** C10: who assigns the summary and the url *)

Lemma effect_leaves {A} (m : M A) (V : A -> Prop) c t :
  total m -> effect m V c t false false -> leaves_summary_and_url m.
Proof.
  intros Ht H s. specialize (H s). specialize (Ht s).
  destruct (m s) as [a s'|e s'|]; [| |congruence].
  - destruct H as [_ (_ & _ & Hs & Hu)]. auto.
  - destruct H as (_ & _ & Hs & Hu). auto.
Qed.

Lemma effect_leaves_url {A} (m : M A) (V : A -> Prop) c t sm :
  total m -> effect m V c t sm false -> leaves_url m.
Proof.
  intros Ht H s. specialize (H s). specialize (Ht s).
  destruct (m s) as [a s'|e s'|]; [| |congruence].
  - destruct H as [_ (_ & _ & _ & Hu)]. auto.
  - destruct H as (_ & _ & _ & Hu). auto.
Qed.

(** C10 as stated fails: the url of the report is assigned again after
    construction.  The model's text calls the constructor for another
    site, [eval] runs it, and the report the run returns carries that
    site's url. *)
Lemma C10_counterexample :
  exists r s',
    AITestingAgent hijacking_env "https://example.test" empty_world = Ok tt fresh
    /\ url (report_of fresh) = "https://example.test"
    /\ run_tests hijacking_env fresh = Ok r s'
    /\ url r = "https://evil.test".
Proof.
  eexists _, _. split; [vm_compute; reflexivity|].
  split; [reflexivity|]. split; [vm_compute; reflexivity|]. reflexivity.
Qed.

(** C10 (amended). The summary is assigned by [finish_testing] and by the
    constructor only, the url by the constructor only: appending a record
    with [report_action] leaves both unchanged, and so do the other methods;
    [finish_testing] leaves the url unchanged. A text read here (a reference
    to one of the methods and attributes the class defines, or a call of one
    with string literals or members of [By] as arguments, other than a call
    of [run_tests]; or a reference to a name the agent does not have, or a
    call of one with literals and names as arguments) that calls neither
    [finish_testing] nor the constructor has an outcome and leaves both
    unchanged. So in a report that [run_tests] returns after such answers
    the summary is still empty unless the last record is the FINISH record,
    and the url is the start URL when no answer calls the constructor. *)
Theorem C10_summary_and_url_frame (env : Env) (start : string) (w : World)
    (s s' : State) (r : Report) :
  AITestingAgent env start w = Ok tt s ->
  run_tests env s = Ok r s' ->
  (forall d st, leaves_summary_and_url (report_action d st))
  /\ leaves_summary_and_url (get_page_state env)
  /\ (forall ps, leaves_summary_and_url (generate_action env ps))
  /\ (forall by_type locator, leaves_summary_and_url (click_element env by_type locator))
  /\ (forall by_type locator text,
        leaves_summary_and_url (type_text env by_type locator text))
  /\ (forall path, leaves_summary_and_url (navigate_to env path))
  /\ (forall text, leaves_url (finish_testing text))
  /\ (forall code, modelled code = true -> sets_summary code = false ->
        total (eval_action env code)
        /\ leaves_summary_and_url (eval_action env code))
  /\ summary (report_of s) = ""
  /\ (~ ends_in_finish (actions r) -> summary r = "")
  /\ (never_reconstructs env -> url r = start).
Proof.
  intros Hinit Hrun.
  split; [intros; eapply effect_leaves;
          [apply total_report_action|apply report_action_effect]|].
  split; [eapply effect_leaves;
          [apply total_get_page_state|apply get_page_state_effect]|].
  split; [intros; eapply effect_leaves;
          [apply total_generate_action|apply generate_action_effect]|].
  split; [intros; eapply effect_leaves;
          [apply total_click_element|apply click_element_effect]|].
  split; [intros; eapply effect_leaves;
          [apply total_type_text|apply type_text_effect]|].
  split; [intros; eapply effect_leaves;
          [apply total_navigate_to|apply navigate_to_effect]|].
  split; [intros; eapply effect_leaves_url;
          [apply total_finish_testing|apply finish_testing_effect]|].
  split.
  { intros code Hm Hs.
    pose proof (total_eval_action env code Hm) as Ht.
    split; [exact Ht|].
    pose proof (eval_action_effect env code) as H.
    rewrite Hs in H.
    assert (Hi : is_init_call code = false).
    { unfold sets_summary in Hs. unfold is_init_call.
      destruct (parse_action code) as [[n|n args]|]; try reflexivity.
      apply orb_false_elim in Hs. apply Hs. }
    rewrite Hi in H. eapply effect_leaves; [exact Ht|exact H]. }
  split; [apply (AITestingAgent_quiet _ _ _ Hinit)|].
  split.
  { intros Hnf.
    assert (Hfalse : false = true -> never_reconstructs env) by discriminate.
    destruct (run_sound _ _ Hfalse Hinit Hrun) as (_ & _ & [H|H]); [exact H|].
    contradiction. }
  intros Hn.
  destruct (@run_tests_counting_inv _ _ _ _ Hrun) as [k Hk].
  pose proof (@run_tests_counting_bounds env true start w s (fun _ => Hn) Hinit) as H.
  rewrite Hk in H. destruct H as (_ & _ & _ & _ & Hu). apply Hu. reflexivity.
Qed.

Lemma clicking_never_reconstructs : never_reconstructs clicking_env.
Proof.
  intros n p text. unfold clicking_env, example_env, scripted. simpl.
  do 7 (destruct n as [|n]; [intros [= <-]; reflexivity|]).
  simpl. destruct n; discriminate.
Qed.

Lemma C10_witness :
  List.length (actions clicking_report) = 8
  /\ summary clicking_report = ""
  /\ url clicking_report = "https://example.test".
Proof.
  destruct (@C10_summary_and_url_frame clicking_env "https://example.test"
              empty_world clicking_start clicking_end clicking_report)
    as (_ & _ & _ & _ & _ & _ & _ & _ & _ & Hs & Hu).
  - vm_compute. reflexivity.
  - vm_compute. reflexivity.
  - split; [reflexivity|]. split.
    + apply Hs. intros (l & e & Hl & He).
      apply (f_equal (fun x => last (map Some x) None)) in Hl.
      rewrite last_some_snoc in Hl. vm_compute in Hl.
      injection Hl as <-. discriminate He.
    + apply Hu. exact clicking_never_reconstructs.
Defined.

(* ------------------------------------------------------------------ *)
(** ** C9: the shape of a delivered report *)

(** C9 as stated fails: the record of the setup-error report has no
    [url_after]. *)
Lemma C9_counterexample :
  exists r w e,
    run_test_and_show_report keyless_env (Some "https://example.test") empty_world
    = Some (Render "report.html" r false, w)
    /\ In e (actions r)
    /\ has_key "url_after" e = false.
Proof.
  eexists _, _, _. split; [vm_compute; reflexivity|].
  split; [left; reflexivity|]. reflexivity.
Qed.

Lemma numbered_keys (l : list dict) (e : dict) :
  numbered l -> In e l -> has_keys ["step"; "action"; "status"; "url_after"] e.
Proof.
  intros Hn Hin. apply In_nth_error in Hin. destruct Hin as [i Hi].
  destruct (Hn i e Hi) as (d & st & u & ->).
  intros k [<-|[<-|[<-|[<-|[]]]]]; reflexivity.
Qed.

(** The shape of a delivered report, by the path that built it. *)
Lemma delivered_report_shape (env : Env) (target : option string) (w w' : World)
    (template : string) (r : Report) (success : bool) :
  run_test_and_show_report env target w = Some (Render template r success, w') ->
  (forall e, In e (actions r) -> has_keys ["step"; "action"; "status"] e)
  /\ (success = true ->
      forall e, In e (actions r) ->
        has_keys ["step"; "action"; "status"; "url_after"] e)
  /\ (success = false ->
      exists message,
        actions r = [[("step", PInt 1); ("action", PStr message);
                      ("status", PStr "FATAL_ERROR")]]).
Proof.
  unfold run_test_and_show_report.
  assert (Herr : forall t m x,
            (forall e, In e (actions (error_report t m x)) ->
               has_keys ["step"; "action"; "status"] e)
            /\ (false = true ->
                forall e, In e (actions (error_report t m x)) ->
                  has_keys ["step"; "action"; "status"; "url_after"] e)
            /\ (false = false ->
                exists message,
                  actions (error_report t m x)
                  = [[("step", PInt 1); ("action", PStr message);
                      ("status", PStr "FATAL_ERROR")]])).
  { intros t m x. split; [|split; [discriminate|]].
    - intros e [<-|[]] k [<-|[<-|[<-|[]]]]; reflexivity.
    - intros _. exists m. reflexivity. }
  destruct target as [t|]; [|discriminate].
  destruct (negb (truthy t)); [discriminate|].
  destruct (negb (truthy_opt (getenv env "GEMINI_API_KEY"))).
  { intros [= <- <- <- <-]. apply Herr. }
  destruct (AITestingAgent env t w) as [[] s| |] eqn:Hinit; [| |discriminate].
  - destruct (run_tests env s) as [fr s1| |] eqn:Hrun; [| |discriminate].
    + intros [= <- <- <- <-].
      assert (Hfalse : false = true -> never_reconstructs env) by discriminate.
      destruct (run_sound _ _ Hfalse Hinit Hrun) as (Hn & _ & _).
      split; [|split; [|discriminate]].
      * intros e He k Hk. apply (@numbered_keys _ _ Hn He).
        simpl in *. tauto.
      * intros _ e He. apply (@numbered_keys _ _ Hn He).
    + intros [= <- <- <- <-]. apply Herr.
  - intros [= <- <- <- <-]. apply Herr.
Qed.

(** With answers that are texts read here, every request is answered. *)
Lemma route_total (env : Env) (target : option string) (w : World) :
  answers_modelled env ->
  exists resp w', run_test_and_show_report env target w = Some (resp, w').
Proof.
  intros Hans. unfold run_test_and_show_report.
  destruct target as [t|]; [|eauto].
  destruct (negb (truthy t)); [eauto|].
  destruct (negb (truthy_opt (getenv env "GEMINI_API_KEY"))); [eauto|].
  cbv zeta.
  destruct (AITestingAgent env t w) as [[] s|e s|] eqn:Hinit; [|eauto|].
  - pose proof (total_run_tests_counting Hans s) as Ht.
    unfold run_tests, bind.
    destruct (run_tests_counting env s) as [[k r] s'|e s'|];
      [eexists _, _; reflexivity|eexists _, _; reflexivity|contradiction].
  - exfalso. revert Hinit. unfold AITestingAgent. rewrite init_eq. cbv zeta.
    destruct (genai_Client env (getenv env "GEMINI_API_KEY")); [discriminate|].
    destruct (webdriver_Chrome env _); discriminate.
Qed.

(** C9 (amended). When every answer of the model is a text read here (a
    reference to one of the methods and attributes the class defines, or a
    call of one with string literals or members of [By] as arguments, other
    than a call of [run_tests]; or a reference to a name the agent does not
    have, or a call of one with literals and names as arguments), every
    request is answered, and every report delivered to the rendering shell
    has the fields url, actions and summary, and every record has step,
    action and status. The records of a report returned by [run_tests] also
    have [url_after]; the setup-error and execution-failure reports hold a
    single record without it. *)
Theorem C9_report_shape (env : Env) (target : option string) (w : World) :
  answers_modelled env ->
  exists resp w',
    run_test_and_show_report env target w = Some (resp, w')
    /\ forall template r success,
         resp = Render template r success ->
         (forall e, In e (actions r) -> has_keys ["step"; "action"; "status"] e)
         /\ (success = true ->
             forall e, In e (actions r) ->
               has_keys ["step"; "action"; "status"; "url_after"] e)
         /\ (success = false ->
             exists message,
               actions r = [[("step", PInt 1); ("action", PStr message);
                             ("status", PStr "FATAL_ERROR")]]).
Proof.
  intros Hans.
  destruct (route_total target w Hans) as (resp & w' & Hrun).
  exists resp, w'. split; [exact Hrun|].
  intros template r success ->.
  exact (delivered_report_shape _ _ _ Hrun).
Qed.

Lemma C9_witness :
  Forall (has_keys ["step"; "action"; "status"; "url_after"])
    (actions scenario_expected).
Proof.
  destruct (@C9_report_shape scenario_env (Some "https://example.test") empty_world
              scenario_answers_modelled) as (resp & w' & Hrun & Hshape).
  assert (Hresp : resp = Render "report.html" scenario_expected true).
  { vm_compute in Hrun. injection Hrun as <- _. reflexivity. }
  apply Forall_forall.
  exact (proj1 (proj2 (Hshape _ _ _ Hresp)) eq_refl).
Defined.

(* ------------------------------------------------------------------ *)
(** ** C8: no credential *)

(** C8. A request for a test of a URL, when the credential is not set (or
    is empty), is answered with the setup-error report, its single record
    with status FATAL_ERROR, and leaves the world as it was: no agent is
    constructed, no browser session is created, no model call is made. *)
Theorem C8_missing_credential (env : Env) (target : string) (w : World) :
  truthy target = true ->
  truthy_opt (getenv env "GEMINI_API_KEY") = false ->
  run_test_and_show_report env (Some target) w
  = Some (Render "report.html"
            (mkReport target
               [[("step", PInt 1); ("action", PStr setup_error_msg);
                 ("status", PStr "FATAL_ERROR")]]
               "Setup Error")
            false,
          w).
Proof.
  intros Ht Hk. unfold run_test_and_show_report. rewrite Ht, Hk. reflexivity.
Qed.

Lemma C8_witness :
  run_test_and_show_report keyless_env (Some "https://example.test") empty_world
  = Some (Render "report.html"
            (mkReport "https://example.test"
               [[("step", PInt 1); ("action", PStr setup_error_msg);
                 ("status", PStr "FATAL_ERROR")]]
               "Setup Error")
            false,
          empty_world).
Proof.
  apply (@C8_missing_credential keyless_env "https://example.test" empty_world);
    reflexivity.
Defined.

(* ------------------------------------------------------------------ *)
(** ** C2: the session on an error path *)

(** When the initial navigation raises, [run_tests] raises with the
    session still open: [driver.quit()] is not reached. *)
Lemma run_tests_initial_navigation_raises (env : Env) (s : State) (e : exn) :
  alive s ->
  browse env (start_url (self s)) = inr e ->
  run_tests env s = Raise e s /\ alive s.
Proof.
  intros Ha Hb. split; [|exact Ha].
  unfold run_tests, run_tests_counting, bind, get_self.
  rewrite (driver_get_alive env _ Ha), Hb. reflexivity.
Qed.

(** C2 fails on the code: for the start URL [not a url] the browser refuses
    the initial navigation; the route answers with the execution-failure
    report, and the session created for the run is still open afterwards. *)
Lemma C2_session_left_open :
  run_test_and_show_report refusing_env (Some "not a url") empty_world
  = Some (Render "report.html"
            (mkReport "not a url"
               [[("step", PInt 1);
                 ("action",
                  PStr "FATAL ERROR during test execution: Message: invalid argument. Check your Chrome WebDriver setup.");
                 ("status", PStr "FATAL_ERROR")]]
               "Execution Failed")
            false,
          mkWorld [mkSession true "data:,"] 0 0 []).
Proof. vm_compute. reflexivity. Qed.

(* ================================================================== *)
(** * Invariants of every state a run reaches *)
(* ================================================================== *)

Lemma report_action_returns (d st : string) (s s' : State) :
  report_action d st s = Ok tt s' -> alive s /\ s' = logged d st s.
Proof.
  intros H. destruct (alive_dec s) as [Ha|Ha].
  - rewrite (report_action_alive _ _ Ha) in H. injection H as <-. auto.
  - unfold report_action, bind, get_self, driver_current_url in H.
    unfold bind in H. rewrite (live_session_gone Ha) in H. discriminate.
Qed.

Lemma last_is_finish_raises (s s' : State) (e : exn) :
  last_is_finish s = Raise e s' -> s' = s.
Proof.
  unfold last_is_finish, bind, get_self.
  destruct (last (map Some (actions (test_report (self s)))) None) as [log|];
    [destruct (dict_get "status" log)|]; unfold ret, raise; intros H;
    inversion H; reflexivity.
Qed.

Lemma AITestingAgent_constructed (env : Env) (start : string) (w : World) (s : State) :
  AITestingAgent env start w = Ok tt s ->
  s = constructed (getenv env "GEMINI_API_KEY") start (mkState blank w).
Proof.
  unfold AITestingAgent. rewrite init_eq. cbv zeta.
  destruct (genai_Client env (getenv env "GEMINI_API_KEY")); [discriminate|].
  destruct (webdriver_Chrome env _); [discriminate|].
  intros [= <-]. reflexivity.
Qed.

Lemma run_tests_outcome (env : Env) (s : State) :
  run_tests env s =
    match run_tests_counting env s with
    | Ok r s' => Ok (snd r) s'
    | Raise e s' => Raise e s'
    | Unmodelled => Unmodelled
    end.
Proof. reflexivity. Qed.

(** With answers that are texts read here, a run has an outcome. *)
Lemma run_tests_total (env : Env) (s : State) :
  answers_modelled env -> run_tests env s <> Unmodelled.
Proof.
  intros Hans. rewrite run_tests_outcome.
  pose proof (total_run_tests_counting Hans s) as Ht.
  destruct (run_tests_counting env s); [discriminate|discriminate|contradiction].
Qed.

Section Reachable.

Variable env : Env.

(** [I] is kept by every step a method takes from a state with an open
    session; with [b] set, the model is known never to call the
    constructor, and [I] need not survive it. *)
Variable I : State -> Prop.
Variable b : bool.

Hypothesis polite :
  b = true -> forall code, from_model env code -> is_init_call code = false.
Hypothesis I_logged : forall d st s, alive s -> I s -> I (logged d st s).
Hypothesis I_moved : forall l s, alive s -> I s -> I (moved l s).
Hypothesis I_asked : forall s, alive s -> I s -> I (asked s).
Hypothesis I_rested : forall n s, alive s -> I s -> I (rested n s).
Hypothesis I_summarized : forall t s, alive s -> I s -> I (summarized t s).
Hypothesis I_keyed : b = false -> forall k s, alive s -> I s -> I (keyed k s).
Hypothesis I_constructed :
  b = false -> forall k start s, alive s -> I s -> I (constructed k start s).

Lemma kept_logged d st s : kept I s -> kept I (logged d st s).
Proof. intros [Ha Hi]. split; [apply alive_logged|apply I_logged]; auto. Qed.

Lemma kept_moved l s : kept I s -> kept I (moved l s).
Proof. intros [Ha Hi]. split; [apply alive_moved|apply I_moved]; auto. Qed.

Lemma kept_asked s : kept I s -> kept I (asked s).
Proof. intros [Ha Hi]. split; [apply alive_asked|apply I_asked]; auto. Qed.

Lemma kept_rested n s : kept I s -> kept I (rested n s).
Proof. intros [Ha Hi]. split; [apply alive_rested|apply I_rested]; auto. Qed.

Lemma kept_summarized t s : kept I s -> kept I (summarized t s).
Proof. intros [Ha Hi]. split; [apply alive_summarized|apply I_summarized]; auto. Qed.

Lemma report_action_kept d st :
  hoare (kept I) (report_action d st) (fun _ => kept I) (fun _ => False).
Proof.
  intros s Hs. rewrite report_action_alive by apply Hs. apply kept_logged, Hs.
Qed.

Lemma report_action_kept' d st :
  hoare (kept I) (report_action d st) (fun _ => kept I) (kept I).
Proof. eapply hoare_post; [apply report_action_kept|auto|contradiction]. Qed.

Lemma get_page_state_kept :
  hoare (kept I) (get_page_state env) (fun _ => kept I) (kept I).
Proof.
  intros s Hs. rewrite get_page_state_alive by apply Hs. exact Hs.
Qed.

Lemma generate_action_kept ps :
  hoare (kept I) (generate_action env ps)
    (fun code s' => kept I s' /\ from_model env code) (kept I).
Proof.
  intros s Hs. rewrite generate_action_alive by apply Hs.
  destruct (generate_content env (llm_calls (world s)) GEMINI_MODEL system_prompt
              (user_prompt (history (self s)) ps)) as [text|e] eqn:E.
  - split; [apply kept_asked, Hs|]. right. eauto.
  - split; [apply kept_logged, kept_asked, Hs|]. left. reflexivity.
Qed.

Lemma click_element_kept by_type locator :
  hoare (kept I) (click_element env by_type locator) (fun _ => kept I) (kept I).
Proof.
  intros s Hs. rewrite click_element_alive by apply Hs.
  destruct (wait_click env (here s) by_type locator) as [landed|e].
  - apply kept_logged, kept_moved, Hs.
  - destruct (catches not_found e); [apply kept_logged|]; exact Hs.
Qed.

Lemma type_text_kept by_type locator text :
  hoare (kept I) (type_text env by_type locator text) (fun _ => kept I) (kept I).
Proof.
  intros s Hs. rewrite type_text_alive by apply Hs.
  destruct (wait_type env (here s) by_type locator text) as [landed|e].
  - apply kept_logged, kept_moved, Hs.
  - destruct (catches not_found e); [apply kept_logged|]; exact Hs.
Qed.

Lemma navigate_to_kept path :
  hoare (kept I) (navigate_to env path) (fun _ => kept I) (kept I).
Proof.
  intros s Hs. rewrite navigate_to_alive by apply Hs. cbv zeta.
  destruct (browse env (urljoin env (start_url (self s)) path)) as [landed|e].
  - apply kept_logged, kept_moved, Hs.
  - exact Hs.
Qed.

Lemma finish_testing_kept text :
  hoare (kept I) (finish_testing text) (fun _ => kept I) (kept I).
Proof.
  intros s Hs. rewrite finish_testing_alive by apply Hs.
  apply kept_logged, kept_summarized, Hs.
Qed.

Lemma init_kept start :
  b = false -> hoare (kept I) (__init__ env start) (fun _ => kept I) (kept I).
Proof.
  intros Hb s Hs. rewrite init_eq. cbv zeta.
  destruct (genai_Client env (getenv env "GEMINI_API_KEY")); [exact Hs|].
  destruct (webdriver_Chrome env (List.length (sessions (world s)))).
  - split; [apply alive_keyed|apply I_keyed]; auto; apply Hs.
  - split; [apply alive_constructed|apply I_constructed]; auto; apply Hs.
Qed.

Lemma eval_action_kept code :
  (b = true -> is_init_call code = false) ->
  hoare (kept I) (eval_action env code) (fun _ => kept I) (kept I).
Proof.
  unfold eval_action, is_init_call.
  destruct (parse_action code) as [[name|name args]|];
    [| |intros; apply eval_unread_hoare; auto].
  - intros _. destruct (getattr name);
      first [apply hoare_unmodelled | apply hoare_raise; auto | apply hoare_ret; auto].
  - intros Hc. destruct (getattr name) as [arity| | |];
      try first [apply hoare_unmodelled | apply hoare_raise; auto].
    destruct (List.length args =? arity); [|apply hoare_raise; auto].
    unfold call_method.
    destruct args as [|x [|y [|z [|? ?]]]]; try apply hoare_unmodelled.
    + destruct (String.eqb name "get_page_state"); [|apply hoare_unmodelled].
      apply discard_hoare, get_page_state_kept.
    + destruct (String.eqb name "navigate_to"); [apply navigate_to_kept|].
      destruct (String.eqb name "finish_testing"); [apply finish_testing_kept|].
      destruct (String.eqb name "generate_action").
      { apply discard_hoare.
        eapply hoare_post; [apply generate_action_kept| |auto].
        intros ? ? H. apply H. }
      destruct (String.eqb name "__init__"); [|apply hoare_unmodelled].
      apply init_kept. destruct b; [|reflexivity].
      specialize (Hc eq_refl). discriminate.
    + destruct (String.eqb name "click_element"); [apply click_element_kept|].
      destruct (String.eqb name "report_action"); [|apply hoare_unmodelled].
      apply report_action_kept'.
    + destruct (String.eqb name "type_text"); [|apply hoare_unmodelled].
      apply type_text_kept.
Qed.

Lemma last_is_finish_kept :
  hoare (kept I) last_is_finish (fun _ => kept I) (kept I).
Proof.
  intros s Hs. destruct (last_is_finish s) as [r s'|e s'|] eqn:E; [| |constructor].
  - apply last_is_finish_state in E. subst. exact Hs.
  - apply last_is_finish_raises in E. subst. exact Hs.
Qed.

Lemma loop_body_kept :
  hoare (kept I) (loop_body env) (fun _ => kept I) (kept I).
Proof.
  unfold loop_body.
  eapply hoare_bind; [apply last_is_finish_kept|].
  intros [|]; [apply hoare_ret; auto|].
  eapply hoare_bind; [apply get_page_state_kept|]. intros ps.
  eapply hoare_bind; [apply generate_action_kept|].
  intros code. apply hoare_pure. intros Hcode.
  eapply hoare_try with (E1 := kept I); [| |auto].
  - eapply hoare_bind; [apply eval_action_kept|].
    { intros Hb. apply polite; assumption. }
    intros ?. eapply hoare_bind with (Q := fun _ => kept I).
    + intros s Hs. rewrite sleep_eq. apply kept_rested, Hs.
    + intros ?. apply hoare_ret. auto.
  - intros e. eapply hoare_bind; [apply report_action_kept'|].
    intros ?. apply hoare_ret. auto.
Qed.

Lemma run_loop_kept n :
  hoare (kept I) (run_loop env n) (fun _ => kept I) (kept I).
Proof.
  induction n as [|n IH]; cbn [run_loop].
  - apply hoare_ret. auto.
  - eapply hoare_bind; [apply loop_body_kept|].
    intros [|].
    + eapply hoare_bind; [apply IH|]. intros k. apply hoare_ret. auto.
    + apply hoare_ret. auto.
Qed.

(** A run from a kept state: when it returns, the state is a kept state
    with its session closed and the report is that state's; when it
    raises, the state is kept, so the session is still open. *)
Lemma run_tests_kept (s : State) :
  kept I s ->
  match run_tests env s with
  | Ok r s' => exists s1, kept I s1 /\ s' = closed s1 /\ r = report_of s1
  | Raise _ s' => kept I s'
  | Unmodelled => True
  end.
Proof.
  intros Hs. rewrite run_tests_outcome.
  unfold run_tests_counting, bind at 1, get_self. unfold bind at 1.
  rewrite (driver_get_alive env _ (proj1 Hs)).
  destruct (browse env (start_url (self s))) as [landed|e]; [|exact Hs].
  unfold bind at 1.
  rewrite (report_action_alive _ _ (alive_moved landed (proj1 Hs))).
  set (s0 := logged _ _ _).
  assert (H0 : kept I s0) by apply kept_logged, kept_moved, Hs.
  unfold loop_and_quit, bind at 1, get_self. unfold bind at 1.
  pose proof (run_loop_kept (max_steps (self s0)) H0) as H.
  destruct (run_loop env (max_steps (self s0)) s0) as [k s1|e s1|];
    [|exact H|constructor].
  unfold bind at 1. rewrite (driver_quit_alive (proj1 H)).
  simpl. exists s1. auto.
Qed.

End Reachable.

(* ================================================================== *)
(** * The history, the sessions and the report over a whole run *)
(* ================================================================== *)

Lemma string_app_assoc (a b c : string) :
  ((a ++ b) ++ c)%string = (a ++ (b ++ c))%string.
Proof. induction a as [|x a IH]; simpl; [reflexivity|]. rewrite IH. reflexivity. Qed.

Lemma string_app_nil_r (a : string) : (a ++ "")%string = a.
Proof. induction a as [|x a IH]; simpl; [reflexivity|]. rewrite IH. reflexivity. Qed.

Lemma history_of_snoc (l : list dict) (e : dict) :
  history_of (l ++ [e]) = (history_of l ++ history_line e)%string.
Proof.
  induction l as [|x l IH]; cbn [history_of app].
  - apply string_app_nil_r.
  - rewrite IH, string_app_assoc. reflexivity.
Qed.

Lemma history_line_log_entry (n : nat) (d st u : string) :
  history_line (log_entry n d st u)
  = ("Step " ++ str_of_int (Z.of_nat n + 1) ++ " (" ++ st ++ "): " ++ d ++ LF)%string.
Proof. reflexivity. Qed.

Lemma history_synced_logged (d st : string) (s : State) :
  history_synced s -> history_synced (logged d st s).
Proof.
  unfold history_synced. intros H.
  rewrite report_of_logged. cbn [actions].
  rewrite history_of_snoc, history_line_log_entry, <- H. reflexivity.
Qed.

Lemma AITestingAgent_kept (I : State -> Prop) (env : Env) (start : string)
    (w : World) (s : State) :
  (forall k, I (constructed k start (mkState blank w))) ->
  AITestingAgent env start w = Ok tt s -> kept I s.
Proof.
  intros HI H. apply AITestingAgent_constructed in H. subst s.
  split; [apply alive_constructed|apply HI].
Qed.

Lemma AITestingAgent_raises (env : Env) (start : string) (w : World)
    (e : exn) (s : State) :
  AITestingAgent env start w = Raise e s -> world s = w.
Proof.
  unfold AITestingAgent. rewrite init_eq. cbv zeta.
  destruct (genai_Client env (getenv env "GEMINI_API_KEY")).
  - intros [= _ <-]. reflexivity.
  - destruct (webdriver_Chrome env _); [|discriminate].
    intros [= _ <-]. reflexivity.
Qed.

(** X1. When every answer of the model is a text read here (a reference to
    one of the methods and attributes the class defines, or a call of one
    with string literals or members of [By] as arguments, other than a call
    of [run_tests]; or a reference to a name the agent does not have, or a
    call of one with literals and names as arguments), also when such a text
    has the agent construct itself again, a run of a new agent has an
    outcome, and the history the prompts are cut from is the log of the
    records of the report, line by line and in order: after a run that
    returns and after one that raises. *)
Theorem history_mirrors_records (env : Env) (start : string) (w : World) (s : State) :
  answers_modelled env ->
  AITestingAgent env start w = Ok tt s ->
  match run_tests env s with
  | Ok r s' => history (self s') = history_of (actions r)
  | Raise _ s' => history (self s') = history_of (actions (report_of s'))
  | Unmodelled => False
  end.
Proof.
  intros Hans Hinit.
  assert (Hk : kept history_synced s).
  { eapply AITestingAgent_kept; [|exact Hinit]. reflexivity. }
  pose proof (@run_tests_kept env history_synced false) as H.
  specialize (H ltac:(discriminate)).
  specialize (H ltac:(intros; apply history_synced_logged; assumption)).
  specialize (H ltac:(intros; assumption)).
  specialize (H ltac:(intros; assumption)).
  specialize (H ltac:(intros; assumption)).
  specialize (H ltac:(intros; assumption)).
  specialize (H ltac:(intros; assumption)).
  specialize (H ltac:(intros; reflexivity)).
  specialize (H s Hk).
  pose proof (run_tests_total s Hans) as Ht.
  destruct (run_tests env s) as [r s'|e s'|]; [|apply H|contradiction].
  destruct H as (s1 & [_ Hs1] & -> & ->). exact Hs1.
Qed.

Lemma history_mirrors_records_witness :
  match run_tests scenario_env scenario_start with
  | Ok r s' => history (self s') = history_of (actions r)
  | Raise _ s' => history (self s') = history_of (actions (report_of s'))
  | Unmodelled => False
  end.
Proof.
  apply (@history_mirrors_records scenario_env "https://example.test" empty_world
           scenario_start).
  - exact scenario_answers_modelled.
  - vm_compute. reflexivity.
Defined.

(* ------------------------------------------------------------------ *)
(** ** The sessions of the world *)

Lemma set_nth_app {A} (old mine : list A) (n : nat) (x : A) :
  List.length old <= n ->
  set_nth n x (old ++ mine) = old ++ set_nth (n - List.length old) x mine.
Proof.
  revert n. induction old as [|y old IH]; intros n Hn; simpl.
  - rewrite Nat.sub_0_r. reflexivity.
  - destruct n as [|n]; [simpl in Hn; lia|].
    simpl. rewrite IH by (simpl in Hn; lia). reflexivity.
Qed.

Lemma others_untouched_moved (old : list Session) (l : string) (s : State) :
  others_untouched old s -> others_untouched old (moved l s).
Proof.
  intros (mine & Hm & Hd). unfold others_untouched, moved. cbn [world self sessions].
  rewrite Hm, set_nth_app by exact Hd. eauto.
Qed.

Lemma others_untouched_closed (old : list Session) (s : State) :
  others_untouched old s -> others_untouched old (closed s).
Proof.
  intros (mine & Hm & Hd). unfold others_untouched, closed. cbn [world self sessions].
  rewrite Hm, set_nth_app by exact Hd. eauto.
Qed.

Lemma others_untouched_constructed (old : list Session) (k : option string)
    (start : string) (s : State) :
  others_untouched old s -> others_untouched old (constructed k start s).
Proof.
  intros (mine & Hm & Hd). unfold others_untouched, constructed.
  cbn [world self sessions driver]. rewrite Hm.
  exists (mine ++ [mkSession true "data:,"]). split.
  - rewrite app_assoc. reflexivity.
  - rewrite length_app. lia.
Qed.

(** The sessions that were in the world before the request are there
    afterwards, whatever a run from a new agent does. *)
Lemma run_spares_other_sessions (env : Env) (start : string) (w : World) (s : State) :
  AITestingAgent env start w = Ok tt s ->
  match run_tests env s with
  | Ok _ s' | Raise _ s' => exists mine, sessions (world s') = sessions w ++ mine
  | Unmodelled => True
  end.
Proof.
  intros Hinit.
  assert (Hk : kept (others_untouched (sessions w)) s).
  { eapply AITestingAgent_kept; [|exact Hinit]. intros k.
    exists [mkSession true "data:,"]. split; [reflexivity|apply Nat.le_refl]. }
  pose proof (@run_tests_kept env (others_untouched (sessions w)) false) as H.
  specialize (H ltac:(discriminate)).
  specialize (H ltac:(intros; assumption)).
  specialize (H ltac:(intros; apply others_untouched_moved; assumption)).
  specialize (H ltac:(intros; assumption)).
  specialize (H ltac:(intros; assumption)).
  specialize (H ltac:(intros; assumption)).
  specialize (H ltac:(intros; assumption)).
  specialize (H ltac:(intros; apply others_untouched_constructed; assumption)).
  specialize (H s Hk).
  destruct (run_tests env s) as [r s'|e s'|]; [| |constructor].
  - destruct H as (s1 & [_ Hs1] & -> & _).
    apply others_untouched_closed in Hs1. destruct Hs1 as (mine & Hm & _). eauto.
  - destruct H as [_ (mine & Hm & _)]. eauto.
Qed.

(** Whatever is answered, the sessions afterwards are the old ones
    followed by the ones the request created. *)
Lemma route_sessions_extend (env : Env) (target : option string)
    (w w' : World) (resp : Response) :
  run_test_and_show_report env target w = Some (resp, w') ->
  exists mine, sessions w' = sessions w ++ mine.
Proof.
  assert (Hsame : exists mine, sessions w = sessions w ++ mine).
  { exists []. rewrite app_nil_r. reflexivity. }
  unfold run_test_and_show_report.
  destruct target as [target|]; [|intros [= _ <-]; exact Hsame].
  destruct (negb (truthy target)); [intros [= _ <-]; exact Hsame|].
  destruct (negb (truthy_opt (getenv env "GEMINI_API_KEY")));
    [intros [= _ <-]; exact Hsame|].
  cbv zeta.
  destruct (AITestingAgent env target w) as [[] s|e s|] eqn:Hinit; [| |discriminate].
  - pose proof (run_spares_other_sessions _ _ _ Hinit) as H.
    destruct (run_tests env s) as [r s'|e s'|]; [| |discriminate];
      intros [= _ <-]; exact H.
  - apply AITestingAgent_raises in Hinit. intros [= _ <-]. rewrite Hinit. exact Hsame.
Qed.

(** X2. When every answer of the model is a text read here (a reference to
    one of the methods and attributes the class defines, or a call of one
    with string literals or members of [By] as arguments, other than a call
    of [run_tests]; or a reference to a name the agent does not have, or a
    call of one with literals and names as arguments), a request to the
    report route is answered and never alters or removes a browser session
    that existed before it: on every path the sessions of the world
    afterwards are the old ones followed by the ones the request created. *)
Theorem route_spares_other_sessions (env : Env) (target : option string)
    (w : World) :
  answers_modelled env ->
  exists resp w',
    run_test_and_show_report env target w = Some (resp, w')
    /\ exists mine, sessions w' = sessions w ++ mine.
Proof.
  intros Hans.
  destruct (route_total target w Hans) as (resp & w' & Hrun).
  exists resp, w'. split; [exact Hrun|].
  exact (route_sessions_extend _ _ _ Hrun).
Qed.

Lemma route_spares_other_sessions_witness :
  exists resp w',
    run_test_and_show_report scenario_env (Some "https://example.test") busy_world
    = Some (resp, w')
    /\ exists mine, sessions w' = sessions busy_world ++ mine.
Proof.
  apply (@route_spares_other_sessions scenario_env (Some "https://example.test")
           busy_world).
  exact scenario_answers_modelled.
Defined.

Lemma one_session_moved (old : list Session) (l : string) (s : State) :
  one_session old s -> one_session old (moved l s).
Proof.
  intros (u & Hs & Hd). exists l. unfold moved. cbn [world self sessions].
  split; [|exact Hd].
  rewrite Hs, Hd, set_nth_app, Nat.sub_diag by apply Nat.le_refl. reflexivity.
Qed.

(** A run of a new agent whose model never calls the constructor: the one
    session added is closed when the run returns and open when it raises. *)
Lemma run_one_session (env : Env) (start : string) (w : World) (s : State) :
  never_reconstructs env ->
  AITestingAgent env start w = Ok tt s ->
  match run_tests env s with
  | Ok _ s' => exists u, sessions (world s') = sessions w ++ [mkSession false u]
  | Raise _ s' => exists u, sessions (world s') = sessions w ++ [mkSession true u]
  | Unmodelled => True
  end.
Proof.
  intros Hnever Hinit.
  assert (Hk : kept (one_session (sessions w)) s).
  { eapply AITestingAgent_kept; [|exact Hinit]. intros k.
    exists "data:,". split; reflexivity. }
  pose proof (@run_tests_kept env (one_session (sessions w)) true) as H.
  specialize (H (polite_of_never (fun _ => Hnever))).
  specialize (H ltac:(intros; assumption)).
  specialize (H ltac:(intros; apply one_session_moved; assumption)).
  specialize (H ltac:(intros; assumption)).
  specialize (H ltac:(intros; assumption)).
  specialize (H ltac:(intros; assumption)).
  specialize (H ltac:(discriminate)).
  specialize (H ltac:(discriminate)).
  specialize (H s Hk).
  destruct (run_tests env s) as [r s'|e s'|]; [| |constructor].
  - destruct H as (s1 & [_ (u & Hs & Hd)] & -> & _).
    exists (here s1). unfold closed. cbn [world self sessions].
    rewrite Hs, Hd, set_nth_app, Nat.sub_diag by apply Nat.le_refl. reflexivity.
  - destruct H as [_ (u & Hs & _)]. eauto.
Qed.

(** X3. With a credential, a client and a browser that can be created, and a
    model whose answers are texts read here (a reference to one of the
    methods and attributes the class defines, or a call of one with string
    literals or members of [By] as arguments, other than a call of
    [run_tests]; or a reference to a name the agent does not have, or a call
    of one with literals and names as arguments), none of them a call of the
    constructor, a request for a URL is answered with the report page and
    adds exactly one session to the world, which is closed exactly when the
    page reports success: after such answers, every failure once the browser
    was started leaves it running. *)
Theorem route_closes_browser_iff_success (env : Env) (target : string) (w : World) :
  answers_modelled env ->
  never_reconstructs env ->
  truthy target = true ->
  truthy_opt (getenv env "GEMINI_API_KEY") = true ->
  genai_Client env (getenv env "GEMINI_API_KEY") = None ->
  webdriver_Chrome env (List.length (sessions w)) = None ->
  exists r success w',
    run_test_and_show_report env (Some target) w
      = Some (Render "report.html" r success, w')
    /\ exists u, sessions w' = sessions w ++ [mkSession (negb success) u].
Proof.
  intros Hans Hnever Ht Hkey Hclient Hchrome.
  unfold run_test_and_show_report. rewrite Ht, Hkey. cbv zeta. cbn [negb].
  pose proof (@run_one_session env target w) as H.
  unfold AITestingAgent in *. rewrite init_eq in *. cbv zeta in *.
  rewrite Hclient in *. cbn [world sessions] in *. rewrite Hchrome in *.
  specialize (H _ Hnever eq_refl).
  pose proof (run_tests_total
                (constructed (getenv env "GEMINI_API_KEY") target (mkState blank w))
                Hans) as Htot.
  destruct (run_tests env _) as [r' s'|e s'|]; [| |contradiction].
  - eexists _, true, _. split; [reflexivity|exact H].
  - eexists _, false, _. split; [reflexivity|exact H].
Qed.

Lemma route_closes_browser_iff_success_witness :
  exists r success w',
    run_test_and_show_report scenario_env (Some "https://example.test") busy_world
      = Some (Render "report.html" r success, w')
    /\ exists u, sessions w' = sessions busy_world ++ [mkSession (negb success) u].
Proof.
  apply (@route_closes_browser_iff_success scenario_env "https://example.test"
           busy_world).
  - exact scenario_answers_modelled.
  - exact scenario_never_reconstructs.
  - reflexivity.
  - reflexivity.
  - reflexivity.
  - reflexivity.
Defined.




(** X5. An agent serves one run: after [run_tests] has returned, a second
    call on the same agent raises at its first statement and changes
    nothing, not even the report. *)
Theorem second_run_raises (env : Env) (s s' : State) (r : Report) :
  alive s ->
  run_tests env s = Ok r s' ->
  exists e, run_tests env s' = Raise e s'.
Proof.
  intros Ha Hrun.
  pose proof (@run_tests_kept env (fun _ => True) false) as H.
  specialize (H ltac:(discriminate)).
  do 7 specialize (H ltac:(intros; constructor)).
  specialize (H s (conj Ha Logic.I)). rewrite Hrun in H.
  destruct H as (s1 & [Ha1 _] & -> & _).
  exists session_gone.
  assert (Hd : ~ alive (closed s1)).
  { intros [u Hu]. rewrite (session_at_closed Ha1) in Hu. discriminate. }
  unfold run_tests, run_tests_counting, bind at 1. unfold bind at 1, get_self.
  unfold bind at 1. unfold driver_get, bind at 1.
  rewrite (live_session_gone Hd). reflexivity.
Qed.

Lemma second_run_raises_witness :
  exists e, run_tests scenario_env scenario_end = Raise e scenario_end.
Proof.
  apply (@second_run_raises scenario_env scenario_start scenario_end scenario_report).
  - exists "data:,". reflexivity.
  - vm_compute. reflexivity.
Defined.

(* ================================================================== *)
(** * One iteration of the loop, by what the model asked for *)
(* ================================================================== *)

(** X6. [report_action] records all or nothing.  It reads the URL of the
    browser before it touches the report: with the session gone it raises
    and leaves the report, the history and the console as they were; with
    the session open it returns, having appended one record, one history
    line and one console line. *)
Theorem report_action_all_or_nothing (d st : string) (s : State) :
  match report_action d st s with
  | Ok _ s' =>
      alive s /\ s' = logged d st s
      /\ actions (report_of s')
         = actions (report_of s)
             ++ [log_entry (List.length (actions (report_of s))) d st (here s)]
      /\ List.length (stdout (world s')) = S (List.length (stdout (world s)))
  | Raise _ s' => ~ alive s /\ s' = s
  | Unmodelled => False
  end.
Proof.
  destruct (alive_dec s) as [Ha|Ha].
  - rewrite (report_action_alive _ _ Ha).
    split; [exact Ha|]. split; [reflexivity|]. split; [reflexivity|].
    unfold logged. cbn [world stdout]. rewrite length_app. simpl. lia.
  - unfold report_action, bind, get_self, driver_current_url. unfold bind.
    rewrite (live_session_gone Ha). split; [exact Ha|reflexivity].
Qed.

Lemma eval_action_click (env : Env) (code by_type locator : string) :
  parse_action code = Some (Call "click_element" [by_type; locator]) ->
  eval_action env code = click_element env by_type locator.
Proof. intros H. unfold eval_action. rewrite H. reflexivity. Qed.

Lemma eval_action_type (env : Env) (code by_type locator text : string) :
  parse_action code = Some (Call "type_text" [by_type; locator; text]) ->
  eval_action env code = type_text env by_type locator text.
Proof. intros H. unfold eval_action. rewrite H. reflexivity. Qed.

(** X7. An iteration in which the model asks for a click.  An element
    that is not found in time does not end the run: an ERROR record, the
    browser where it was, and the loop goes on.  Any other exception of
    the click is fatal: one FATAL_ERROR record naming the model's text and
    the exception, and the loop is left.  A click that works is recorded
    as PASS at the URL the browser landed on. *)
Theorem loop_click_outcomes (env : Env) (s : State) (text by_type locator : string) :
  alive s ->
  last_is_finish s = Ok false s ->
  generate_content env (llm_calls (world s)) GEMINI_MODEL system_prompt
    (user_prompt (history (self s)) (page_state env s)) = inl text ->
  parse_action (strip text) = Some (Call "click_element" [by_type; locator]) ->
  loop_body env s =
    match wait_click env (here s) by_type locator with
    | inl landed =>
        Ok Continue
          (rested 3
             (logged ("Clicked element found by " ++ by_type ++ "='" ++ locator ++ "'.")
                "PASS" (moved landed (asked s))))
    | inr e =>
        if catches not_found e
        then Ok Continue
               (rested 3
                  (logged ("Failed to click element " ++ locator
                             ++ ". Element not found or timed out.") "ERROR" (asked s)))
        else Ok Break
               (logged ("CRITICAL ERROR executing AI code '" ++ strip text ++ "': "
                          ++ exn_text e) "FATAL_ERROR" (asked s))
    end.
Proof.
  intros Ha Hf Hg Hp.
  pose proof (click_element_alive env by_type locator (alive_asked Ha)) as Hc.
  rewrite <- (eval_action_click env _ Hp) in Hc. rewrite here_asked in Hc.
  destruct (wait_click env (here s) by_type locator) as [landed|e].
  - exact (@loop_body_returns env s _ text Ha Hf Hg Hc).
  - destruct (catches not_found e).
    + exact (@loop_body_returns env s _ text Ha Hf Hg Hc).
    + exact (@loop_body_raises env s _ text _ Ha Hf Hg Hc (alive_asked Ha)).
Qed.

Lemma loop_click_outcomes_witness :
  loop_body clicking_env fresh =
    match wait_click clicking_env (here fresh) "link text" "Pricing" with
    | inl landed =>
        Ok Continue
          (rested 3
             (logged ("Clicked element found by " ++ "link text" ++ "='" ++ "Pricing" ++ "'.")
                "PASS" (moved landed (asked fresh))))
    | inr e =>
        if catches not_found e
        then Ok Continue
               (rested 3
                  (logged ("Failed to click element " ++ "Pricing"
                             ++ ". Element not found or timed out.") "ERROR" (asked fresh)))
        else Ok Break
               (logged ("CRITICAL ERROR executing AI code '"
                          ++ strip "click_element(By.LINK_TEXT, 'Pricing')" ++ "': "
                          ++ exn_text e) "FATAL_ERROR" (asked fresh))
    end.
Proof.
  apply (@loop_click_outcomes clicking_env fresh
           "click_element(By.LINK_TEXT, 'Pricing')" "link text" "Pricing").
  - exists "data:,". reflexivity.
  - reflexivity.
  - reflexivity.
  - vm_compute. reflexivity.
Defined.

(** X8. An iteration in which the model asks to type into a field: the
    same three outcomes as for a click.  The text typed is in no record:
    the PASS record names the locator only. *)
Theorem loop_type_outcomes (env : Env) (s : State)
    (text by_type locator typed : string) :
  alive s ->
  last_is_finish s = Ok false s ->
  generate_content env (llm_calls (world s)) GEMINI_MODEL system_prompt
    (user_prompt (history (self s)) (page_state env s)) = inl text ->
  parse_action (strip text) = Some (Call "type_text" [by_type; locator; typed]) ->
  loop_body env s =
    match wait_type env (here s) by_type locator typed with
    | inl landed =>
        Ok Continue
          (rested 3
             (logged ("Typed text into field " ++ locator ++ ".")
                "PASS" (moved landed (asked s))))
    | inr e =>
        if catches not_found e
        then Ok Continue
               (rested 3
                  (logged ("Failed to type text into " ++ locator
                             ++ ". Element not found.") "ERROR" (asked s)))
        else Ok Break
               (logged ("CRITICAL ERROR executing AI code '" ++ strip text ++ "': "
                          ++ exn_text e) "FATAL_ERROR" (asked s))
    end.
Proof.
  intros Ha Hf Hg Hp.
  pose proof (type_text_alive env by_type locator typed (alive_asked Ha)) as Hc.
  rewrite <- (eval_action_type env _ Hp) in Hc. rewrite here_asked in Hc.
  destruct (wait_type env (here s) by_type locator typed) as [landed|e].
  - exact (@loop_body_returns env s _ text Ha Hf Hg Hc).
  - destruct (catches not_found e).
    + exact (@loop_body_returns env s _ text Ha Hf Hg Hc).
    + exact (@loop_body_raises env s _ text _ Ha Hf Hg Hc (alive_asked Ha)).
Qed.

Lemma loop_type_outcomes_witness :
  loop_body typing_env fresh =
    match wait_type typing_env (here fresh) "id" "q" "shoes" with
    | inl landed =>
        Ok Continue
          (rested 3
             (logged ("Typed text into field " ++ "q" ++ ".")
                "PASS" (moved landed (asked fresh))))
    | inr e =>
        if catches not_found e
        then Ok Continue
               (rested 3
                  (logged ("Failed to type text into " ++ "q"
                             ++ ". Element not found.") "ERROR" (asked fresh)))
        else Ok Break
               (logged ("CRITICAL ERROR executing AI code '"
                          ++ strip "type_text(By.ID, 'q', 'shoes')" ++ "': "
                          ++ exn_text e) "FATAL_ERROR" (asked fresh))
    end.
Proof.
  apply (@loop_type_outcomes typing_env fresh
           "type_text(By.ID, 'q', 'shoes')" "id" "q" "shoes").
  - exists "data:,". reflexivity.
  - reflexivity.
  - reflexivity.
  - vm_compute. reflexivity.
Defined.

(** X9. A navigation the browser refuses ends the run, unlike a click
    that finds nothing: [navigate_to] catches no exception, so the loop
    records one FATAL_ERROR with the model's text and the message, at the
    URL the browser was on, and leaves without the sleep. *)
Theorem loop_navigation_failure (env : Env) (s : State) (text path : string) (e : exn) :
  alive s ->
  last_is_finish s = Ok false s ->
  generate_content env (llm_calls (world s)) GEMINI_MODEL system_prompt
    (user_prompt (history (self s)) (page_state env s)) = inl text ->
  parse_action (strip text) = Some (Call "navigate_to" [path]) ->
  browse env (urljoin env (start_url (self s)) path) = inr e ->
  loop_body env s
  = Ok Break
      (logged ("CRITICAL ERROR executing AI code '" ++ strip text ++ "': "
                 ++ exn_text e) "FATAL_ERROR" (asked s))
  /\ here (logged ("CRITICAL ERROR executing AI code '" ++ strip text ++ "': "
                     ++ exn_text e) "FATAL_ERROR" (asked s)) = here s.
Proof.
  intros Ha Hf Hg Hp Hb. split; [|reflexivity].
  apply (@loop_body_raises env s _ text e Ha Hf Hg); [|exact (alive_asked Ha)].
  rewrite (eval_action_navigate env _ Hp).
  rewrite (navigate_to_alive env _ (alive_asked Ha)). cbv zeta.
  change (start_url (self (asked s))) with (start_url (self s)).
  rewrite Hb. reflexivity.
Qed.

Lemma loop_navigation_failure_witness :
  loop_body dead_link_env fresh
  = Ok Break
      (logged ("CRITICAL ERROR executing AI code '" ++ strip "navigate_to('missing')"
                 ++ "': "
                 ++ exn_text (Exn "WebDriverException"
                                "Message: unknown error: net::ERR_CONNECTION_REFUSED"))
         "FATAL_ERROR" (asked fresh))
  /\ here (logged ("CRITICAL ERROR executing AI code '" ++ strip "navigate_to('missing')"
                     ++ "': "
                     ++ exn_text (Exn "WebDriverException"
                                    "Message: unknown error: net::ERR_CONNECTION_REFUSED"))
             "FATAL_ERROR" (asked fresh)) = here fresh.
Proof.
  apply (@loop_navigation_failure dead_link_env fresh "navigate_to('missing')" "missing").
  - exists "data:,". reflexivity.
  - reflexivity.
  - reflexivity.
  - vm_compute. reflexivity.
  - reflexivity.
Defined.

(** X10. A call of a method of the agent with the wrong number of
    arguments runs nothing of the method: the iteration records one
    FATAL_ERROR carrying the interpreter's message and leaves the loop,
    with the browser where it was. *)
Theorem loop_wrong_arity (env : Env) (s : State) (text name : string)
    (args : list string) (arity : nat) :
  alive s ->
  last_is_finish s = Ok false s ->
  generate_content env (llm_calls (world s)) GEMINI_MODEL system_prompt
    (user_prompt (history (self s)) (page_state env s)) = inl text ->
  parse_action (strip text) = Some (Call name args) ->
  getattr name = IsMethod arity ->
  List.length args <> arity ->
  loop_body env s
  = Ok Break
      (logged ("CRITICAL ERROR executing AI code '" ++ strip text ++ "': "
                 ++ interp_message env (BadArity name (List.length args)))
         "FATAL_ERROR" (asked s)).
Proof.
  intros Ha Hf Hg Hp Hm Hn.
  apply (@loop_body_raises env s _ text
           (Exn "TypeError" (interp_message env (BadArity name (List.length args))))
           Ha Hf Hg);
    [|exact (alive_asked Ha)].
  unfold eval_action. rewrite Hp, Hm.
  apply Nat.eqb_neq in Hn. rewrite Hn. reflexivity.
Qed.

Lemma loop_wrong_arity_witness :
  loop_body overfull_env fresh
  = Ok Break
      (logged ("CRITICAL ERROR executing AI code '" ++ strip "navigate_to('a', 'b')"
                 ++ "': "
                 ++ interp_message overfull_env
                      (BadArity "navigate_to" (List.length ["a"; "b"])))
         "FATAL_ERROR" (asked fresh)).
Proof.
  apply (@loop_wrong_arity overfull_env fresh "navigate_to('a', 'b')" "navigate_to"
           ["a"; "b"] 1).
  - exists "data:,". reflexivity.
  - reflexivity.
  - reflexivity.
  - vm_compute. reflexivity.
  - reflexivity.
  - simpl. lia.
Defined.

(** X11. A reply that names a method or an attribute of the agent
    without calling it is accepted silently: nothing is recorded, the
    browser is not touched, and the iteration is spent on the model call
    and the sleep. *)
Theorem loop_bare_name_is_silent (env : Env) (s : State) (text name : string) :
  alive s ->
  last_is_finish s = Ok false s ->
  generate_content env (llm_calls (world s)) GEMINI_MODEL system_prompt
    (user_prompt (history (self s)) (page_state env s)) = inl text ->
  parse_action (strip text) = Some (Attr name) ->
  getattr name <> IsMissing ->
  getattr name <> IsOpaque ->
  loop_body env s = Ok Continue (rested 3 (asked s))
  /\ report_of (rested 3 (asked s)) = report_of s
  /\ here (rested 3 (asked s)) = here s.
Proof.
  intros Ha Hf Hg Hp Hm Ho. split; [|split; reflexivity].
  apply (@loop_body_returns env s _ text Ha Hf Hg).
  unfold eval_action. rewrite Hp.
  destruct (getattr name); try reflexivity; contradiction.
Qed.

Lemma loop_bare_name_is_silent_witness :
  loop_body bare_env fresh = Ok Continue (rested 3 (asked fresh))
  /\ report_of (rested 3 (asked fresh)) = report_of fresh
  /\ here (rested 3 (asked fresh)) = here fresh.
Proof.
  apply (@loop_bare_name_is_silent bare_env fresh "finish_testing" "finish_testing").
  - exists "data:,". reflexivity.
  - reflexivity.
  - reflexivity.
  - vm_compute. reflexivity.
  - discriminate.
  - discriminate.
Defined.

(* ================================================================== *)
(** * Why a run stopped *)
(* ================================================================== *)

Lemma last_is_finish_true (s s' : State) :
  last_is_finish s = Ok true s' ->
  ends_in_status "FINISH" (actions (report_of s)).
Proof.
  unfold last_is_finish, bind, get_self. fold (report_of s).
  destruct (last (map Some (actions (report_of s))) None) as [log|] eqn:E;
    [|discriminate].
  apply last_some_inv in E. destruct E as [l' El].
  destruct (dict_get "status" log) as [v|] eqn:Ev; [|discriminate].
  unfold ret. intros [= Hv _]. exists l', log. split; [exact El|].
  unfold status_of. rewrite Ev.
  destruct v as [n|t]; [discriminate|].
  simpl in Hv. apply String.eqb_eq in Hv. subst t. reflexivity.
Qed.

Lemma ends_in_status_logged (d st : string) (s : State) :
  ends_in_status st (actions (report_of (logged d st s))).
Proof.
  rewrite report_of_logged. cbn [actions].
  eexists _, _. split; [reflexivity|apply status_log_entry].
Qed.

(** An iteration that leaves the loop found a FINISH record last or has
    just recorded a FATAL_ERROR. *)
Lemma loop_body_break (env : Env) (s s1 : State) :
  loop_body env s = Ok Break s1 ->
  ends_in_status "FINISH" (actions (report_of s1))
  \/ ends_in_status "FATAL_ERROR" (actions (report_of s1)).
Proof.
  unfold loop_body. unfold bind at 1.
  destruct (last_is_finish s) as [[|] s'| |] eqn:Hf; try discriminate.
  - pose proof (last_is_finish_state _ Hf) as ->.
    intros [= <-]. left. exact (last_is_finish_true _ Hf).
  - unfold bind at 1.
    destruct (get_page_state env s') as [ps s2| |]; try discriminate.
    unfold bind at 1.
    destruct (generate_action env ps s2) as [code s3| |]; try discriminate.
    unfold try_except.
    destruct ((eval_action env code ;; sleep 3 ;; ret Continue) s3)
      as [f s4|e s4|] eqn:Hev; try discriminate.
    + intros [= -> ->]. exfalso. revert Hev. unfold bind at 1.
      destruct (eval_action env code s3) as [[] s5| |]; discriminate.
    + simpl catches. cbv iota. unfold bind at 1.
      destruct (report_action _ "FATAL_ERROR" s4) as [[] s5| |] eqn:Hr;
        try discriminate.
      apply report_action_returns in Hr. destruct Hr as [_ ->].
      intros [= <-]. right. apply ends_in_status_logged.
Qed.

Lemma run_loop_stops (env : Env) (n : nat) (s s' : State) (begun : nat) :
  run_loop env n s = Ok begun s' ->
  begun = n
  \/ ends_in_status "FINISH" (actions (report_of s'))
  \/ ends_in_status "FATAL_ERROR" (actions (report_of s')).
Proof.
  revert s begun. induction n as [|n IH]; intros s begun; cbn [run_loop].
  - intros [= <- _]. left. reflexivity.
  - unfold bind at 1.
    destruct (loop_body env s) as [[|] s1| |] eqn:Hb; try discriminate.
    + unfold bind at 1.
      destruct (run_loop env n s1) as [k s2| |] eqn:Hk; try discriminate.
      intros [= <- <-]. destruct (IH _ _ Hk) as [->|H]; [left; reflexivity|right; exact H].
    + intros [= _ <-]. right. exact (loop_body_break _ _ Hb).
Qed.

(** X12. Why a returned run stopped can be read off its report. A run
    returns here only when every answer it used was a text read here (a
    reference to one of the methods and attributes the class defines, or a
    call of one with string literals or members of [By] as arguments, other
    than a call of [run_tests]; or a reference to a name the agent does not
    have, or a call of one with literals and names as arguments); of such a
    run, either the loop began as many iterations as the budget of the agent
    allows, or the last record of the report is a FINISH, or it is a
    FATAL_ERROR. *)
Theorem early_stop_is_recorded (env : Env) (s s' : State) (begun : nat) (r : Report) :
  alive s ->
  run_tests_counting env s = Ok (begun, r) s' ->
  begun = max_steps (self s)
  \/ ends_in_status "FINISH" (actions r)
  \/ ends_in_status "FATAL_ERROR" (actions r).
Proof.
  intros Ha.
  unfold run_tests_counting, bind at 1, get_self. unfold bind at 1.
  rewrite (driver_get_alive env _ Ha).
  destruct (browse env (start_url (self s))) as [landed|e]; [|discriminate].
  unfold bind at 1.
  rewrite (report_action_alive _ _ (alive_moved landed Ha)).
  set (s0 := logged _ _ _).
  change (max_steps (self s)) with (max_steps (self s0)).
  unfold loop_and_quit, bind at 1, get_self. unfold bind at 1.
  destruct (run_loop env (max_steps (self s0)) s0) as [k s1| |] eqn:Hk;
    try discriminate.
  apply run_loop_stops in Hk.
  unfold bind at 1, driver_quit. fold (session_at s1).
  destruct (session_at s1) as [b|]; unfold bind, set_session, ret;
    intros [= <- <- _]; exact Hk.
Qed.

Lemma early_stop_is_recorded_witness :
  3 = max_steps (self scenario_start)
  \/ ends_in_status "FINISH" (actions scenario_report)
  \/ ends_in_status "FATAL_ERROR" (actions scenario_report).
Proof.
  apply (@early_stop_is_recorded scenario_env scenario_start scenario_end 3
           scenario_report).
  - exists "data:,". reflexivity.
  - vm_compute. reflexivity.
Defined.

(* ================================================================== *)
(** * The two routes *)
(* ================================================================== *)

(** X13. With the credential set, a constructor that raises, for the
    client or for the browser, is answered with the report page for the
    submitted URL: one FATAL_ERROR record carrying the message, the
    summary Execution Failed, no success; no session is created and the
    world is as it was. *)
Theorem constructor_failure_is_reported (env : Env) (target : string) (w : World)
    (e : exn) :
  truthy target = true ->
  truthy_opt (getenv env "GEMINI_API_KEY") = true ->
  genai_Client env (getenv env "GEMINI_API_KEY") = Some e
  \/ (genai_Client env (getenv env "GEMINI_API_KEY") = None
      /\ webdriver_Chrome env (List.length (sessions w)) = Some e) ->
  run_test_and_show_report env (Some target) w
  = Some (Render "report.html"
            (error_report target
               ("FATAL ERROR during test execution: " ++ exn_text e
                  ++ ". Check your Chrome WebDriver setup.")
               "Execution Failed")
            false, w).
Proof.
  intros Ht Hkey Hc.
  unfold run_test_and_show_report. rewrite Ht, Hkey. cbn [negb]. cbv zeta.
  unfold AITestingAgent. rewrite init_eq. cbv zeta.
  destruct Hc as [Hc|[Hc Hd]]; rewrite Hc; [reflexivity|].
  cbn [world sessions]. rewrite Hd. reflexivity.
Qed.

Lemma constructor_failure_is_reported_witness :
  run_test_and_show_report driverless_env (Some "https://example.test") busy_world
  = Some (Render "report.html"
            (error_report "https://example.test"
               ("FATAL ERROR during test execution: "
                  ++ exn_text (Exn "WebDriverException"
                                 "Message: unknown error: Chrome failed to start")
                  ++ ". Check your Chrome WebDriver setup.")
               "Execution Failed")
            false, busy_world).
Proof.
  apply (@constructor_failure_is_reported driverless_env "https://example.test"
           busy_world).
  - reflexivity.
  - reflexivity.
  - right. split; reflexivity.
Defined.

(** X14. The two routes never bounce a request between them.  When the
    index route redirects to the report route, it was a POST with a URL
    that is not empty, and the report route, given that URL, answers with
    the report page, never with the redirect back; and the redirect the
    report route sends for a missing URL is a GET, which the index route
    answers with the search page. *)
Theorem routes_never_loop (env : Env) (method endpoint target : string)
    (form_url : option string) (w w' : World) (resp : Response) :
  index method form_url = ToReport endpoint target ->
  run_test_and_show_report env (Some target) w = Some (resp, w') ->
  (endpoint = "run_test_and_show_report" /\ method = "POST" /\ form_url = Some target)
  /\ (exists r success, resp = Render "report.html" r success)
  /\ (forall form, index "GET" form = Page "index.html").
Proof.
  unfold index.
  destruct (String.eqb method "POST") eqn:Em; [|discriminate].
  destruct form_url as [u|]; [|discriminate].
  destruct (truthy u) eqn:Et; [|discriminate].
  intros [= <- <-]. apply String.eqb_eq in Em.
  intros Hr. split; [auto|]. split; [|reflexivity].
  revert Hr. unfold run_test_and_show_report. rewrite Et. cbn [negb]. cbv zeta.
  destruct (negb (truthy_opt (getenv env "GEMINI_API_KEY")));
    [intros [= <- _]; eauto|].
  destruct (AITestingAgent env u w) as [[] s|e s|]; [| |discriminate].
  - destruct (run_tests env s) as [r s'|e s'|]; [| |discriminate];
      intros [= <- _]; eauto.
  - intros [= <- _]. eauto.
Qed.

Lemma routes_never_loop_witness :
  ("run_test_and_show_report" = "run_test_and_show_report"
   /\ "POST" = "POST" /\ Some "https://example.test" = Some "https://example.test")
  /\ (exists r success, fst busy_outcome = Render "report.html" r success)
  /\ (forall form, index "GET" form = Page "index.html").
Proof.
  apply (@routes_never_loop scenario_env "POST" "run_test_and_show_report"
           "https://example.test" (Some "https://example.test")
           busy_world (snd busy_outcome) (fst busy_outcome)).
  - reflexivity.
  - vm_compute. reflexivity.
Defined.

(* ================================================================== *)
(** * What the model is shown *)
(* ================================================================== *)

Lemma substring_all (s : string) (k : nat) :
  String.length s <= k -> substring 0 k s = s.
Proof.
  revert k. induction s as [|c s IH]; intros [|k] H; simpl in *;
    try reflexivity; try lia.
  rewrite IH by lia. reflexivity.
Qed.

Lemma substring_suffix (s : string) (m k : nat) :
  String.length s <= m + k ->
  exists p, s = (p ++ substring m k s)%string
            /\ String.length p = Nat.min m (String.length s).
Proof.
  revert m. induction s as [|c s IH]; intros m H.
  - exists ""%string. destruct m, k; simpl; split; reflexivity.
  - destruct m as [|m].
    + exists ""%string. rewrite substring_all by exact H. split; reflexivity.
    + simpl in H. destruct (IH m) as (p & Hp & Hl); [lia|].
      exists (String c p). cbn [substring append String.length]. split.
      * rewrite <- Hp. reflexivity.
      * rewrite Hl. reflexivity.
Qed.

Lemma string_length_app (a b : string) :
  String.length (a ++ b) = String.length a + String.length b.
Proof. induction a as [|c a IH]; simpl; [reflexivity|]. rewrite IH. reflexivity. Qed.

(** X15. The window of the history put into the prompt, [history[-200:]],
    is an end of the history: the history is some text followed by the
    window, and the window has 200 characters, or all of the history when
    that is shorter.  A history of at most 200 characters is shown whole. *)
Theorem history_window_is_the_end (hist : string) :
  (exists before, hist = (before ++ last_chars 200 hist)%string)
  /\ String.length (last_chars 200 hist) = Nat.min 200 (String.length hist)
  /\ (String.length hist <= 200 -> last_chars 200 hist = hist).
Proof.
  unfold last_chars.
  destruct (substring_suffix hist (String.length hist - 200) 200) as (p & Hp & Hl);
    [lia|].
  split; [exists p; exact Hp|]. split.
  - apply (f_equal String.length) in Hp. rewrite string_length_app in Hp. lia.
  - intros H. replace (String.length hist - 200) with 0 by lia.
    apply substring_all, H.
Qed.

Lemma interactable_app (front rest : list Tag) :
  interactable (front ++ rest) = interactable front ++ interactable rest.
Proof. rewrite !interactable_listed, filter_app, map_app. reflexivity. Qed.

(** X16. The model never sees past the tenth listed element: once the
    front of a document yields ten lines, whatever follows it in the
    document leaves the observation as it is; and no observation lists
    more than ten elements. *)
Theorem observation_stops_at_ten (front rest : list Tag) (current title : string) :
  10 <= List.length (interactable front) ->
  format_state current title (top10 (front ++ rest))
  = format_state current title (top10 front)
  /\ List.length (top10 (front ++ rest)) = 10.
Proof.
  intros H. unfold top10. rewrite interactable_app, firstn_app.
  replace (10 - List.length (interactable front)) with 0 by lia.
  rewrite firstn_O, app_nil_r. split; [reflexivity|].
  rewrite length_firstn. lia.
Qed.

Lemma observation_stops_at_ten_witness :
  format_state "https://example.test" "Example Domain"
    (top10 (repeat (mkTag "a" [("id", "home")] "Home") 10
              ++ [mkTag "button" [] "Buy now"]))
  = format_state "https://example.test" "Example Domain"
      (top10 (repeat (mkTag "a" [("id", "home")] "Home") 10))
  /\ List.length (top10 (repeat (mkTag "a" [("id", "home")] "Home") 10
                           ++ [mkTag "button" [] "Buy now"])) = 10.
Proof.
  apply (@observation_stops_at_ten (repeat (mkTag "a" [("id", "home")] "Home") 10)
           [mkTag "button" [] "Buy now"]).
  vm_compute. lia.
Defined.

(* ================================================================== *)
(** * The URL of the report and the base of a navigation *)
(* ================================================================== *)

Lemma run_base_fixed (env : Env) (start : string) (w : World) (s : State) :
  AITestingAgent env start w = Ok tt s ->
  match run_tests env s with
  | Ok r s' => url r = start_url (self s') /\ max_steps (self s') = 7
  | Raise _ s' => url (report_of s') = start_url (self s') /\ max_steps (self s') = 7
  | Unmodelled => True
  end.
Proof.
  intros Hinit.
  assert (Hk : kept base_fixed s).
  { eapply AITestingAgent_kept; [|exact Hinit]. intros k. split; reflexivity. }
  pose proof (@run_tests_kept env base_fixed false) as H.
  specialize (H ltac:(discriminate)).
  do 5 specialize (H ltac:(intros; assumption)).
  specialize (H ltac:(intros; assumption)).
  specialize (H ltac:(intros; split; reflexivity)).
  specialize (H s Hk).
  destruct (run_tests env s) as [r s'|e s'|]; [|apply H|constructor].
  destruct H as (s1 & [_ Hs1] & -> & ->). exact Hs1.
Qed.

(** X17. A run returns here only when every answer it used was a text read
    here (a reference to one of the methods and attributes the class
    defines, or a call of one with string literals or members of [By] as
    arguments, other than a call of [run_tests]; or a reference to a name
    the agent does not have, or a call of one with literals and names as
    arguments). Of such a run, also when a text had the agent construct
    itself again for another site, the report names the URL that
    [navigate_to] resolved its paths against at the end, and the budget of
    the agent is still seven. *)
Theorem report_names_the_base (env : Env) (start : string) (w : World)
    (s s' : State) (r : Report) :
  AITestingAgent env start w = Ok tt s ->
  run_tests env s = Ok r s' ->
  url r = start_url (self s') /\ max_steps (self s') = 7.
Proof.
  intros Hinit Hrun. pose proof (run_base_fixed _ _ _ Hinit) as H.
  rewrite Hrun in H. exact H.
Qed.

Lemma report_names_the_base_witness :
  url reconstructing_report = start_url (self reconstructing_end)
  /\ max_steps (self reconstructing_end) = 7.
Proof.
  apply (@report_names_the_base reconstructing_env "https://example.test"
           empty_world fresh reconstructing_end reconstructing_report).
  - vm_compute. reflexivity.
  - vm_compute. reflexivity.
Defined.

(* ================================================================== *)
(** * Element extraction against the label policy *)
(* ================================================================== *)

Lemma resolvable_truthy (v : string) : resolvable v = true -> truthy v = true.
Proof.
  unfold resolvable, truthy. destruct (String.eqb v "") eqn:E; [|reflexivity].
  apply String.eqb_eq in E. subst v. intros H. discriminate H.
Qed.

Lemma first_truthy_resolved (l : list (option string)) :
  forallb (fun o => match o with
                    | Some v => implb (truthy v) (resolvable v)
                    | None => true
                    end) l = true ->
  first_truthy l = first_resolved l.
Proof.
  induction l as [|[v|] l IH]; cbn [forallb first_truthy first_resolved];
    [reflexivity| |exact IH].
  intros H. apply andb_prop in H. destruct H as [Hv Hl].
  destruct (truthy v) eqn:Et.
  - simpl in Hv. rewrite Hv. reflexivity.
  - destruct (resolvable v) eqn:Er; [|exact (IH Hl)].
    apply resolvable_truthy in Er. congruence.
Qed.

Lemma picked_label_spec (t : Tag) :
  no_blank_source t = true -> picked_label t = spec_label t.
Proof. apply first_truthy_resolved. Qed.

Lemma listed_spec (soup : list Tag) :
  no_blank_candidate soup = true ->
  map render (filter listed soup) = map spec_entry (filter spec_listed soup).
Proof.
  unfold no_blank_candidate. intros H.
  assert (Ht : forall t, In t soup -> is_candidate t = true ->
                 picked_label t = spec_label t).
  { intros t Hin Hc. apply picked_label_spec.
    rewrite forallb_forall in H. specialize (H t Hin). rewrite Hc in H. exact H. }
  rewrite (filter_ext_in listed spec_listed).
  - apply map_ext_in. intros t Hin. apply filter_In in Hin.
    destruct Hin as [Hin Hl]. unfold spec_listed in Hl.
    apply andb_prop in Hl. unfold render, spec_entry.
    rewrite (Ht t Hin (proj1 Hl)). reflexivity.
  - intros t Hin. unfold listed, spec_listed.
    destruct (is_candidate t) eqn:Hc; [|reflexivity].
    rewrite (Ht t Hin Hc). reflexivity.
Qed.

(** X18. On a page none of whose anchors, buttons and inputs has a label
    source that is white space only, what [get_page_state] returns is the
    text the label policy of the specification gives: the URL line, the
    title line, the heading, and one line for each of the first ten, in
    document order, of the anchors, buttons and inputs that have a
    resolvable label of fewer than 50 characters, the label being the first
    resolvable one of accessible label, text, placeholder and name.  The
    state is left as it was. *)
Theorem extraction_follows_policy (env : Env) (s : State) :
  alive s ->
  no_blank_candidate (html_parser env (page_source env (here s))) = true ->
  get_page_state env s
  = Ok ("Current URL: " ++ here s ++ LF
        ++ "Page Title: " ++ page_title env (here s) ++ LF
        ++ "Visible Interactable Elements (Top 10):" ++ LF
        ++ join LF (spec_elements (html_parser env (page_source env (here s)))))%string
       s
  /\ List.length (spec_elements (html_parser env (page_source env (here s))))
     = Nat.min (List.length (filter spec_listed
                               (html_parser env (page_source env (here s))))) 10.
Proof.
  intros Ha Hb. split.
  - rewrite (get_page_state_alive env Ha). unfold page_state, top10, spec_elements.
    rewrite interactable_listed, (listed_spec _ Hb). reflexivity.
  - unfold spec_elements. rewrite length_firstn, length_map. apply Nat.min_comm.
Qed.

Lemma extraction_follows_policy_witness :
  get_page_state (example_env None []) fresh
  = Ok ("Current URL: data:," ++ LF
        ++ "Page Title: Example Domain" ++ LF
        ++ "Visible Interactable Elements (Top 10):" ++ LF
        ++ "<a> Text: 'About' ID: 'N/A'" ++ LF
        ++ "<input> Text: 'q' ID: 'search-input'" ++ LF
        ++ "<a> Text: 'Home' ID: 'home'")%string
       fresh
  /\ List.length (spec_elements example_soup) = Nat.min 3 10.
Proof.
  apply (@extraction_follows_policy (example_env None []) fresh).
  - exists "data:,". reflexivity.
  - reflexivity.
Defined.
